(** * Terminal selection engine of codex-env (src/ui.go): shallow embedding

    The Go program is embedded function by function.  Go [int] is the 64-bit
    two's-complement integer, modelled as [Z] with the wrap-around written out
    ([GoInt]); a Go [string] and a [[]byte] are byte sequences ([gostring]);
    [float64] is IEEE-754 binary64 in the executable specification of the
    Standard Library ([F64]); a run-time panic of a pure function is [None];
    the terminal, the environment and the standard streams are an explicit
    [World] (read only) and [State] (threaded through a small monad). *)

From Stdlib Require Import ZArith List Bool Lia Ascii String.
From Stdlib Require Import Strings.Byte.
From Stdlib Require Import Floats.SpecFloat.
From Stdlib Require Import Numbers.DecimalString.
From Stdlib Require Numbers.DecimalPos Numbers.DecimalFacts.
Import ListNotations.
Open Scope Z_scope.

(* ================================================================== *)
(** * Part I: the embedding                                            *)
(* ================================================================== *)

(** ** Go's [int] on a 64-bit platform *)

Module GoInt.

Definition min_int : Z := - 2 ^ 63.
Definition max_int : Z := 2 ^ 63 - 1.

Definition in_range (z : Z) : Prop := min_int <= z <= max_int.

Definition in_rangeb (z : Z) : bool := (min_int <=? z) && (z <=? max_int).

(** Two's-complement wrap-around of a mathematical integer. *)
Definition wrap (z : Z) : Z := (z + 2 ^ 63) mod 2 ^ 64 - 2 ^ 63.

Definition add (a b : Z) : Z := wrap (a + b).
Definition sub (a b : Z) : Z := wrap (a - b).

(** Go's [/] and [%] truncate toward zero.  The source divides by the
    constant 2 only; the divisor of [%] is a run-time value, and a zero
    divisor panics. *)
Definition quot2 (a : Z) : Z := wrap (Z.quot a 2).
Definition rem (a b : Z) : option Z :=
  if b =? 0 then None else Some (wrap (Z.rem a b)).

End GoInt.

(** ** Byte strings *)

Definition gostring : Type := list byte.

Definition str (s : string) : gostring := list_byte_of_string s.

Definition len (s : gostring) : Z := Z.of_nat (List.length s).

Definition byte_eqb (a b : byte) : bool := Byte.eqb a b.

Fixpoint gostring_eqb (a b : gostring) : bool :=
  match a, b with
  | [], [] => true
  | x :: a', y :: b' => byte_eqb x y && gostring_eqb a' b'
  | _, _ => false
  end.

(** The option monad carries the panics of pure code. *)
Definition obind {A B : Type} (m : option A) (k : A -> option B) : option B :=
  match m with
  | Some a => k a
  | None => None
  end.

Declare Scope opt_scope.
Delimit Scope opt_scope with opt.
Notation "x <- m ;; k" := (obind m (fun x => k))
  (at level 61, m at next level, right associativity) : opt_scope.
Notation "' pat <- m ;; k" := (obind m (fun x => match x with pat => k end))
  (at level 61, pat pattern, m at next level, right associativity) : opt_scope.

(** [s[:k]] and [s[k:]]: a bound outside [0, len(s)] is a run-time panic. *)
Definition slice_to (s : gostring) (k : Z) : option gostring :=
  if (0 <=? k) && (k <=? len s) then Some (firstn (Z.to_nat k) s) else None.

Definition slice_from (s : gostring) (k : Z) : option gostring :=
  if (0 <=? k) && (k <=? len s) then Some (skipn (Z.to_nat k) s) else None.

(** [strings.Repeat]: a negative count panics. *)
Definition strings_Repeat (s : gostring) (count : Z) : option gostring :=
  if count <? 0 then None else Some (List.concat (repeat s (Z.to_nat count))).

Fixpoint has_prefix (p s : gostring) : bool :=
  match p, s with
  | [], _ => true
  | x :: p', y :: s' => byte_eqb x y && has_prefix p' s'
  | _ :: _, [] => false
  end.

Definition strings_HasPrefix (s p : gostring) : bool := has_prefix p s.

(** Offset of the first occurrence of [sep] in [s]. *)
Fixpoint find_sub (sep s : gostring) : option nat :=
  if has_prefix sep s then Some O
  else match s with
       | [] => None
       | _ :: s' => option_map S (find_sub sep s')
       end.

(** [strings.Index]: -1 when [sep] does not occur. *)
Definition strings_Index (s sep : gostring) : Z :=
  match find_sub sep s with
  | Some i => Z.of_nat i
  | None => -1
  end.

Definition strings_Contains (s sep : gostring) : bool :=
  match find_sub sep s with
  | Some _ => true
  | None => false
  end.

(** [strings.SplitN(s, sep, 2)] for a non-empty separator. *)
Definition strings_SplitN2 (s sep : gostring) : list gostring :=
  match find_sub sep s with
  | Some i => [firstn i s; skipn (i + List.length sep) s]
  | None => [s]
  end.

(** [%d] of [fmt.Sprintf]. *)
Definition fmt_d (z : Z) : gostring :=
  str (NilZero.string_of_int (Z.to_int z)).

(** ** IEEE-754 binary64 *)

Module F64.

Definition prec : Z := 53.
Definition emax : Z := 1024.

Definition t : Type := spec_float.

(** [float64(n)] for an integer [n]: round to nearest, ties to even. *)
Definition of_int (n : Z) : t := binary_normalize prec emax n 0 false.

Definition mul (x y : t) : t := SFmul prec emax x y.
Definition div (x y : t) : t := SFdiv prec emax x y.

(** The float64 closest to the decimal constant [num/den]: Go rounds an
    untyped constant once, as the correctly rounded quotient does. *)
Definition const (num den : Z) : t := div (of_int num) (of_int den).

(** [int(f)]: truncation toward zero.  Outside the range of [int] (and for
    NaN and the infinities) the result is the one amd64 produces. *)
Definition to_int (f : t) : Z :=
  match f with
  | S754_zero _ => 0
  | S754_finite s m e =>
      let mag := if 0 <=? e then Zpos m * 2 ^ e else Zpos m / 2 ^ (- e) in
      let v := if s then - mag else mag in
      if GoInt.in_rangeb v then v else GoInt.min_int
  | _ => GoInt.min_int
  end.

End F64.

(** ** Records of the display layer *)

Record terminalCapabilities : Type := {
  IsTerminal : bool;
  SupportsRaw : bool;
  SupportsANSI : bool;
  SupportsCursor : bool;
  Width : Z;
  Height : Z
}.

Record TerminalLayout : Type := {
  layoutWidth : Z;
  layoutHeight : Z;
  layoutSupportsANSI : bool;
  ContentWidth : Z;
  TruncationLimit : Z
}.

Record DisplayFormatter : Type := {
  layout : TerminalLayout;
  nameWidth : Z;
  urlWidth : Z;
  modelWidth : Z
}.

Record Environment : Type := {
  Name : gostring;
  URL : gostring;
  APIKey : gostring;
  Model : gostring;
  EnvVars : list (gostring * gostring)
}.

(** The zero value [Environment{}]. *)
Definition emptyEnvironment : Environment :=
  {| Name := []; URL := []; APIKey := []; Model := []; EnvVars := [] |}.

(** [Config]; its optional settings are not read by the selection code. *)
Record Config : Type := { Environments : list Environment }.

(** ** The process environment (read only during one call) *)

Record World : Type := {
  stdinIsTerminal : bool;          (* term.IsTerminal(stdin) *)
  getenv : gostring -> gostring;   (* os.Getenv; empty when unset *)
  makeRawOk : bool;                (* term.MakeRaw(stdin) succeeds *)
  restoreErr : option gostring;    (* error of term.Restore, None = nil *)
  termSize : option (Z * Z);       (* term.GetSize(stdin); None on error *)
  stdoutStat : option Z            (* os.Stdout.Stat(): mode bits; None on error *)
}.

(** [detectTerminalCapabilities] *)
Definition detectTerminalCapabilities (w : World) : terminalCapabilities :=
  let termType := getenv w (str "TERM") in
  let ansi := negb (gostring_eqb termType (str ""))
              && negb (gostring_eqb termType (str "dumb"))
              && negb (strings_HasPrefix termType (str "vt5")) in
  let raw :=
    if stdinIsTerminal w then
      if makeRawOk w then
        match restoreErr w with None => true | Some _ => false end
      else false
    else false in
  let '(width, height) :=
    if stdinIsTerminal w then
      match termSize w with
      | Some (wd, ht) => (wd, ht)
      | None => (80, 24)
      end
    else (80, 24) in
  {| IsTerminal := stdinIsTerminal w;
     SupportsRaw := raw;
     SupportsANSI := ansi;
     SupportsCursor := ansi;
     Width := width;
     Height := height |}.

(** [detectTerminalLayout] *)
Definition detectTerminalLayout (w : World) : TerminalLayout :=
  let caps := detectTerminalCapabilities w in
  let uiOverhead := if Width caps <? 40 then 4 else 8 in
  let contentWidth := GoInt.sub (Width caps) uiOverhead in
  let contentWidth := if contentWidth <? 20 then 20 else contentWidth in
  let truncationLimit := GoInt.sub contentWidth 10 in
  let truncationLimit := if truncationLimit <? 10 then 10 else truncationLimit in
  {| layoutWidth := Width caps;
     layoutHeight := Height caps;
     layoutSupportsANSI := SupportsANSI caps;
     ContentWidth := contentWidth;
     TruncationLimit := truncationLimit |}.

(** The three proportions, as the float64 constants of the source. *)
Definition share_name : F64.t := F64.const 40 100.
Definition share_url : F64.t := F64.const 45 100.
Definition share_model : F64.t := F64.const 15 100.

(** [int(float64(n) * c)] *)
Definition scale (n : Z) (c : F64.t) : Z := F64.to_int (F64.mul (F64.of_int n) c).

(** [newDisplayFormatter] *)
Definition newDisplayFormatter (l : TerminalLayout) : DisplayFormatter :=
  let contentSpace := ContentWidth l in
  let nw := scale contentSpace share_name in
  let uw := scale contentSpace share_url in
  let mw := scale contentSpace share_model in
  {| layout := l;
     nameWidth := if nw <? 8 then 8 else nw;
     urlWidth := if uw <? 10 then 10 else uw;
     modelWidth := if mw <? 6 then 6 else mw |}.

(** ** Truncation of the three display fields *)

Definition dots : gostring := str "...".

Local Open Scope opt_scope.

(** [DisplayFormatter.smartTruncateName] *)
Definition smartTruncateName (df : DisplayFormatter) (name : gostring)
  : option (gostring * bool) :=
  if len name <=? nameWidth df then Some (name, false)
  else if nameWidth df <? 8 then
    p <- slice_to name (GoInt.sub (nameWidth df) 3) ;;
    Some (p ++ dots, true)
  else
    let prefixLen := GoInt.quot2 (GoInt.sub (nameWidth df) 3) in
    let suffixLen := GoInt.sub (GoInt.sub (nameWidth df) 3) prefixLen in
    p <- slice_to name prefixLen ;;
    q <- slice_from name (GoInt.sub (len name) suffixLen) ;;
    Some (p ++ dots ++ q, true).

(** [DisplayFormatter.smartTruncateURL] *)
Definition smartTruncateURL (df : DisplayFormatter) (url : gostring)
  : option (gostring * bool) :=
  if len url <=? urlWidth df then Some (url, false)
  else
    let fallback :=
      p <- slice_to url (GoInt.sub (urlWidth df) 3) ;;
      Some (p ++ dots, true) in
    if strings_Contains url (str "://") then
      match strings_SplitN2 url (str "://") with
      | [part0; remaining] =>
          let protocol := part0 ++ str "://" in
          let domainEndIdx := strings_Index remaining (str "/") in
          let domainEndIdx :=
            if domainEndIdx =? -1 then len remaining else domainEndIdx in
          domain <- slice_to remaining domainEndIdx ;;
          let protocolDomainLen := GoInt.add (len protocol) (len domain) in
          if protocolDomainLen <=? GoInt.sub (urlWidth df) 3
          then Some (protocol ++ domain ++ dots, true)
          else fallback
      | _ => fallback
      end
    else fallback.

(** [DisplayFormatter.smartTruncateModel] *)
Definition smartTruncateModel (df : DisplayFormatter) (model : gostring)
  : option (gostring * bool) :=
  if gostring_eqb model (str "") then Some (str "default", false)
  else if len model <=? modelWidth df then Some (model, false)
  else
    p <- slice_to model (GoInt.sub (modelWidth df) 3) ;;
    Some (p ++ dots, true).

(** The block that [formatSingleLine] repeats for each of its three fields:
    cut [s] to [space] bytes, ending in an ellipsis when there is room. *)
Definition clipField (s : gostring) (space : Z) : option gostring :=
  if len s >? space then
    if space >? 3 then
      p <- slice_to s (GoInt.sub space 3) ;; Some (p ++ dots)
    else slice_to s space
  else Some s.

(** [DisplayFormatter.formatSingleLine] *)
Definition formatSingleLine (df : DisplayFormatter) (prefix : gostring)
  (env : Environment) : option gostring :=
  let prefixLen := len prefix in
  let staticOverhead := 6 in
  let maxContentLen :=
    GoInt.sub (GoInt.sub (layoutWidth (layout df)) prefixLen) staticOverhead in
  if maxContentLen <? 20 then
    name <- (if len (Name env) >? 10
             then p <- slice_to (Name env) 7 ;; Some (p ++ dots)
             else Some (Name env)) ;;
    Some (prefix ++ name)
  else
    let nameSpace := scale maxContentLen share_name in
    let urlSpace := scale maxContentLen share_url in
    let modelSpace := GoInt.sub (GoInt.sub maxContentLen nameSpace) urlSpace in
    let nameSpace := if nameSpace <? 8 then 8 else nameSpace in
    let urlSpace := if urlSpace <? 10 then 10 else urlSpace in
    let modelSpace := if modelSpace <? 6 then 6 else modelSpace in
    name <- clipField (Name env) nameSpace ;;
    url <- clipField (URL env) urlSpace ;;
    let model :=
      if gostring_eqb (Model env) (str "") then str "default" else Model env in
    model <- clipField model modelSpace ;;
    let line :=
      prefix ++ name ++ str " (" ++ url ++ str ") [" ++ model ++ str "]" in
    if len line >? layoutWidth (layout df) then
      let maxLen := GoInt.sub (layoutWidth (layout df)) 3 in
      if maxLen >? 0 then
        p <- slice_to line maxLen ;; Some (p ++ dots)
      else slice_to line (layoutWidth (layout df))
    else Some line.

(** ** Key classification *)

Inductive ArrowKey : Type :=
| ArrowNone
| ArrowUp
| ArrowDown
| ArrowLeft
| ArrowRight.

(** Errors the selection code builds itself ([fmt.Errorf], with or without a
    wrapped cause) and the library errors it can receive. *)
Inductive error : Type :=
| Errorf (msg : gostring)
| Wrapf (msg : gostring) (cause : error)
| ErrRead
| ErrEOF
| ErrNoProgress
| ErrSyntax
| ErrRange.

(** [rune(b)] *)
Definition rune_of_byte (b : byte) : Z := Z.of_N (Byte.to_N b).

Definition key_enter : Z := 10.   (* '\n' *)
Definition key_cr : Z := 13.      (* '\r' *)
Definition key_escape : Z := 27.  (* '\x1b' *)
Definition key_ctrl_c : Z := 3.   (* '\x03' *)

Definition err_empty_input : error := Errorf (str "empty input").
Definition err_unrecognized : error := Errorf (str "unrecognized key sequence").

(** [parseKeyInput] *)
Definition parseKeyInput (input : list byte) : ArrowKey * Z * option error :=
  match input with
  | [] => (ArrowNone, 0, Some err_empty_input)
  | [b] =>
      match b with
      | x0a | x0d => (ArrowNone, key_enter, None)
      | x1b => (ArrowNone, key_escape, None)
      | x03 => (ArrowNone, key_ctrl_c, None)
      | _ => (ArrowNone, rune_of_byte b, None)
      end
  | b0 :: b1 :: rest =>
      match b0, b1, rest with
      | x1b, "["%byte, b2 :: _ =>
          match b2 with
          | "A"%byte => (ArrowUp, 0, None)
          | "B"%byte => (ArrowDown, 0, None)
          | "C"%byte => (ArrowRight, 0, None)
          | "D"%byte => (ArrowLeft, 0, None)
          | _ => (ArrowNone, 0, Some err_unrecognized)
          end
      | _, _, _ => (ArrowNone, 0, Some err_unrecognized)
      end
  end.

(** ** Render state *)

Record DisplayState : Type := {
  currentLines : list gostring;
  headerLine : gostring;
  footerLine : gostring;
  terminalWidth : Z;
  terminalHeight : Z;
  lastSelection : Z;
  currentSelection : Z;
  initialized : bool;
  contentChanged : bool;
  selectionChanged : bool
}.

(** [initializeDisplayState] *)
Definition initializeDisplayState (w : World) : DisplayState :=
  let caps := detectTerminalCapabilities w in
  {| currentLines := [];
     headerLine := [];
     footerLine := [];
     terminalWidth := Width caps;
     terminalHeight := Height caps;
     lastSelection := -1;
     currentSelection := 0;
     initialized := true;
     contentChanged := true;
     selectionChanged := false |}.

(** The comparison loop of [UpdateContent]: some index [i] of [lines] is
    beyond [current] or holds a different line. *)
Fixpoint linesDiffer (lines current : list gostring) : bool :=
  match lines, current with
  | [], _ => false
  | _ :: _, [] => true
  | l :: lines', c :: current' =>
      if gostring_eqb l c then linesDiffer lines' current' else true
  end.

Definition len_lines_eqb (a b : list gostring) : bool :=
  Nat.eqb (List.length a) (List.length b).

(** [DisplayState.UpdateContent] *)
Definition UpdateContent (ds : DisplayState) (lines : list gostring)
  (selection : Z) : DisplayState :=
  if negb (initialized ds) then ds
  else
    let changed := negb (len_lines_eqb lines (currentLines ds)) in
    let changed := if negb changed then linesDiffer lines (currentLines ds)
                   else changed in
    let selChanged := negb (selection =? currentSelection ds) && negb changed in
    {| currentLines := lines;
       headerLine := headerLine ds;
       footerLine := footerLine ds;
       terminalWidth := terminalWidth ds;
       terminalHeight := terminalHeight ds;
       lastSelection := currentSelection ds;
       currentSelection := selection;
       initialized := initialized ds;
       contentChanged := changed;
       selectionChanged := selChanged |}.

(** [DisplayState.ClearDisplay] *)
Definition ClearDisplay (ds : DisplayState) : DisplayState :=
  if negb (initialized ds) then ds
  else
    {| currentLines := [];
       headerLine := [];
       footerLine := [];
       terminalWidth := terminalWidth ds;
       terminalHeight := terminalHeight ds;
       lastSelection := -1;
       currentSelection := 0;
       initialized := initialized ds;
       contentChanged := true;
       selectionChanged := false |}.

(** ** ANSI-free positioning *)

Record TextPositioner : Type := { tpWidth : Z }.

Definition newTextPositioner (width : Z) : TextPositioner := {| tpWidth := width |}.

(** [TextPositioner.MoveToStartOfLine]: a carriage return. *)
Definition MoveToStartOfLine (tp : TextPositioner) : gostring := [x0d].

(** [TextPositioner.ClearToEndOfLine] *)
Definition ClearToEndOfLine (tp : TextPositioner) : option gostring :=
  strings_Repeat (str " ") (tpWidth tp).

(** [TextPositioner.ClearLine] *)
Definition ClearLine (tp : TextPositioner) : option gostring :=
  pad <- ClearToEndOfLine tp ;;
  Some (MoveToStartOfLine tp ++ pad ++ MoveToStartOfLine tp).

(** [TextPositioner.OverwriteLine] *)
Definition OverwriteLine (tp : TextPositioner) (content : gostring)
  : option gostring :=
  content <- (if len content >? tpWidth tp
              then p <- slice_to content (GoInt.sub (tpWidth tp) 3) ;;
                   Some (p ++ dots)
              else Some content) ;;
  pad <- strings_Repeat (str " ") (GoInt.sub (tpWidth tp) (len content)) ;;
  Some (MoveToStartOfLine tp ++ (content ++ pad) ++ MoveToStartOfLine tp).

Record LineRenderer : Type := {
  positioner : TextPositioner;
  useANSI : bool
}.

(** ** Raw-mode guard *)

(** The saved [*term.State] is opaque. *)
Inductive termState : Type := SavedState.

Record terminalState : Type := {
  fd : Z;
  oldState : option termState;   (* None is the nil pointer *)
  restored : bool
}.

(** ** Mutable state and the monad of effectful code *)

(** What a pending [Read] on standard input finds: bytes that are available
    (the call takes as many as fit its buffer and leaves the rest), or a
    failure.  After the last event the stream is at end of file. *)
Inductive ReadEvent : Type :=
| RData (bs : list byte)
| RErr.

Record State : Type := {
  stdin : list ReadEvent;
  stdout : gostring;                         (* everything written so far *)
  stderr : gostring;
  ttyRaw : bool;                             (* the terminal is in raw mode *)
  globalDisplayState : option DisplayState;  (* None is nil *)
  globalLineRenderer : option LineRenderer
}.

Definition set_stdin (v : list ReadEvent) (s : State) : State :=
  {| stdin := v; stdout := stdout s; stderr := stderr s; ttyRaw := ttyRaw s;
     globalDisplayState := globalDisplayState s;
     globalLineRenderer := globalLineRenderer s |}.

Definition set_stdout (v : gostring) (s : State) : State :=
  {| stdin := stdin s; stdout := v; stderr := stderr s; ttyRaw := ttyRaw s;
     globalDisplayState := globalDisplayState s;
     globalLineRenderer := globalLineRenderer s |}.

Definition set_stderr (v : gostring) (s : State) : State :=
  {| stdin := stdin s; stdout := stdout s; stderr := v; ttyRaw := ttyRaw s;
     globalDisplayState := globalDisplayState s;
     globalLineRenderer := globalLineRenderer s |}.

Definition set_ttyRaw (v : bool) (s : State) : State :=
  {| stdin := stdin s; stdout := stdout s; stderr := stderr s; ttyRaw := v;
     globalDisplayState := globalDisplayState s;
     globalLineRenderer := globalLineRenderer s |}.

Definition set_globalDisplayState (v : option DisplayState) (s : State) : State :=
  {| stdin := stdin s; stdout := stdout s; stderr := stderr s; ttyRaw := ttyRaw s;
     globalDisplayState := v;
     globalLineRenderer := globalLineRenderer s |}.

Definition set_globalLineRenderer (v : option LineRenderer) (s : State) : State :=
  {| stdin := stdin s; stdout := stdout s; stderr := stderr s; ttyRaw := ttyRaw s;
     globalDisplayState := globalDisplayState s;
     globalLineRenderer := v |}.

(** The outcome of a call: a value, a run-time panic, or (for the two
    reading loops only) exhaustion of the recursion budget. *)
Inductive Res (A : Type) : Type :=
| Val (a : A)
| Panic
| OutOfFuel.

Arguments Val {A} a.
Arguments Panic {A}.
Arguments OutOfFuel {A}.

Definition M (A : Type) : Type := State -> Res A * State.

Definition ret {A : Type} (a : A) : M A := fun s => (Val a, s).

Definition bind {A B : Type} (m : M A) (k : A -> M B) : M B :=
  fun s =>
    match m s with
    | (Val a, s') => k a s'
    | (Panic, s') => (Panic, s')
    | (OutOfFuel, s') => (OutOfFuel, s')
    end.

Declare Scope m_scope.
Delimit Scope m_scope with m.
Notation "x <- m ;; k" := (bind m (fun x => k))
  (at level 61, m at next level, right associativity) : m_scope.
Notation "m >> k" := (bind m (fun _ => k))
  (at level 61, right associativity) : m_scope.

(** A pure computation that may panic. *)
Definition liftP {A : Type} (o : option A) : M A :=
  fun s => match o with Some a => (Val a, s) | None => (Panic, s) end.

Definition get {A : Type} (f : State -> A) : M A := fun s => (Val (f s), s).
Definition modify (f : State -> State) : M unit := fun s => (Val tt, f s).

(** [defer d] around [body]: [d] runs when [body] returns and also when it
    panics; a panic of [d] replaces the outcome. *)
Definition with_defer {A : Type} (body : M A) (d : M unit) : M A :=
  fun s =>
    let '(r, s') := body s in
    match d s' with
    | (Val _, s'') => (r, s'')
    | (Panic, s'') => (Panic, s'')
    | (OutOfFuel, s'') => (OutOfFuel, s'')
    end.

(** [fmt.Print] and friends; writes to the standard streams succeed. *)
Definition fmt_Print (text : gostring) : M unit :=
  modify (fun s => set_stdout (stdout s ++ text) s).

Definition newline : gostring := [x0a].

Definition fmt_Println (text : gostring) : M unit := fmt_Print (text ++ newline).

Definition fmt_Fprint_stderr (text : gostring) : M unit :=
  modify (fun s => set_stderr (stderr s ++ text) s).

(** One [Read] on standard input into a buffer of [n] bytes. *)
Definition os_Stdin_Read (n : nat) : M (error + list byte) :=
  fun s =>
    match stdin s with
    | [] => (Val (inl ErrEOF), s)
    | RErr :: rest => (Val (inl ErrRead), set_stdin rest s)
    | RData bs :: rest =>
        if Nat.leb (List.length bs) n
        then (Val (inr bs), set_stdin rest s)
        else (Val (inr (firstn n bs)), set_stdin (RData (skipn n bs) :: rest) s)
    end.

(** Budget that outlasts every sequence of reads of at least one byte. *)
Fixpoint stdin_weight (evs : list ReadEvent) : nat :=
  match evs with
  | [] => O
  | RData bs :: rest => S (List.length bs + stdin_weight rest)
  | RErr :: rest => S (stdin_weight rest)
  end.

(** ** Library routines used by the numbered tier *)

(** Width in bytes of a white-space rune at the head of [s] (0 when there is
    none): the ASCII set of [strings.TrimSpace], then U+0085, U+00A0, U+1680,
    U+2000..U+200A, U+2028, U+2029, U+202F, U+205F and U+3000 in UTF-8. *)
Definition space_width (s : list byte) : nat :=
  match s with
  | (x09 | x0a | x0b | x0c | x0d | x20) :: _ => 1
  | xc2 :: (x85 | xa0) :: _ => 2
  | xe1 :: x9a :: x80 :: _ => 3
  | xe2 :: x80 :: (x80 | x81 | x82 | x83 | x84 | x85 | x86 | x87 | x88 | x89
                   | x8a | xa8 | xa9 | xaf) :: _ => 3
  | xe2 :: x81 :: x9f :: _ => 3
  | xe3 :: x80 :: x80 :: _ => 3
  | _ => 0
  end%nat.

(** The same for a rune at the end of [s], given [s] reversed. *)
Definition space_width_rev (r : list byte) : nat :=
  match r with
  | (x09 | x0a | x0b | x0c | x0d | x20) :: _ => 1
  | (x85 | xa0) :: xc2 :: _ => 2
  | x80 :: x9a :: xe1 :: _ => 3
  | (x80 | x81 | x82 | x83 | x84 | x85 | x86 | x87 | x88 | x89
     | x8a | xa8 | xa9 | xaf) :: x80 :: xe2 :: _ => 3
  | x9f :: x81 :: xe2 :: _ => 3
  | x80 :: x80 :: xe3 :: _ => 3
  | _ => 0
  end%nat.

Fixpoint trim_with (width : list byte -> nat) (fuel : nat) (s : list byte)
  : list byte :=
  match fuel with
  | O => s
  | S fuel' =>
      match width s with
      | O => s
      | k => trim_with width fuel' (skipn k s)
      end
  end.

(** [strings.TrimSpace] *)
Definition strings_TrimSpace (s : gostring) : gostring :=
  let s1 := trim_with space_width (List.length s) s in
  rev (trim_with space_width_rev (List.length s1) (rev s1)).

Definition digit_value (b : byte) : option Z :=
  let v := rune_of_byte b - 48 in
  if (0 <=? v) && (v <=? 9) then Some v else None.

Fixpoint parse_digits (acc : Z) (s : list byte) : option Z :=
  match s with
  | [] => Some acc
  | b :: s' =>
      match digit_value b with
      | Some d => parse_digits (acc * 10 + d) s'
      | None => None
      end
  end.

(** [strconv.Atoi]: an optional sign, then decimal digits; the value must
    fit [int]. *)
Definition strconv_Atoi (s : gostring) : error + Z :=
  let '(neg, digits) :=
    match s with
    | "-"%byte :: d => (true, d)
    | "+"%byte :: d => (false, d)
    | _ => (false, s)
    end in
  match digits with
  | [] => inl ErrSyntax
  | _ =>
      match parse_digits 0 digits with
      | None => inl ErrSyntax
      | Some v =>
          let n := if neg then - v else v in
          if GoInt.in_rangeb n then inr n else inl ErrRange
      end
  end.

(** ** Effectful code *)

Local Open Scope m_scope.

Notation "' pat <- m ;; k" := (bind m (fun x => match x with pat => k end))
  (at level 61, pat pattern, m at next level, right associativity) : m_scope.

Section WithWorld.

Variable w : World.

(** [term.MakeRaw] on standard input: the saved state, or nil on error. *)
Definition term_MakeRaw : M (option termState) :=
  if makeRawOk w
  then modify (set_ttyRaw true) >> ret (Some SavedState)
  else ret None.

(** [term.Restore]: the text of the error, if any. *)
Definition term_Restore (fd0 : Z) (st : termState) : M (option gostring) :=
  match restoreErr w with
  | None => modify (set_ttyRaw false) >> ret None
  | Some e => ret (Some e)
  end.

(** [terminalState.restore]; the receiver is returned as updated. *)
Definition restore (ts : terminalState) : M (terminalState * option gostring) :=
  match restored ts, oldState ts with
  | true, _ => ret (ts, None)
  | false, None => ret (ts, None)
  | false, Some st =>
      let ts' := {| fd := fd ts; oldState := oldState ts; restored := true |} in
      err <- term_Restore (fd ts) st ;;
      ret (ts', err)
  end.

(** [terminalState.ensureRestore] *)
Definition ensureRestore (ts : terminalState) : M terminalState :=
  ' (ts', err) <- restore ts ;;
  match err with
  | Some e =>
      fmt_Fprint_stderr
        (str "Warning: failed to restore terminal: " ++ e ++ newline) >>
      ret ts'
  | None => ret ts'
  end.

(** The loop of [clearScreen], from counter value [i], [count] rounds left. *)
Fixpoint clearLoop (tp : TextPositioner) (linesToClear : Z) (count : nat)
  (i : Z) : M unit :=
  match count with
  | O => ret tt
  | S count' =>
      line <- liftP (ClearLine tp) ;;
      fmt_Print line >>
      (if i <? GoInt.sub linesToClear 1 then fmt_Print newline else ret tt) >>
      clearLoop tp linesToClear count' (GoInt.add i 1)
  end.

(** [clearScreen] *)
Definition clearScreen : M unit :=
  let caps := detectTerminalCapabilities w in
  let tp := newTextPositioner (Width caps) in
  let linesToClear := if Height caps >? 0 then Height caps else 25 in
  clearLoop tp linesToClear (Z.to_nat linesToClear) 0 >>
  cr <- liftP (strings_Repeat [x0d] linesToClear) ;;
  fmt_Print cr.

(** The loop of [renderFullContent] over the stored lines. *)
Fixpoint printLines (tp : TextPositioner) (first : bool) (lines : list gostring)
  : M unit :=
  match lines with
  | [] => ret tt
  | line :: rest =>
      (if first then ret tt else fmt_Print newline) >>
      text <- liftP (OverwriteLine tp line) ;;
      fmt_Print text >>
      printLines tp false rest
  end.

(** [LineRenderer.renderFullContent]; the renderer's [state] pointer is the
    global display state. *)
Definition renderFullContent (lr : LineRenderer) : M unit :=
  clearScreen >>
  ods <- get globalDisplayState ;;
  match ods with
  | None => liftP None
  | Some ds => printLines (positioner lr) true (currentLines ds)
  end.

(** [LineRenderer.renderSelectionChange] *)
Definition renderSelectionChange (lr : LineRenderer) (envs : list Environment)
  (formatter : DisplayFormatter) : M unit :=
  renderFullContent lr.

Definition prefix_plain : gostring := str "  ".
Definition prefix_arrow : gostring := [xe2; x96; xba; x20].   (* U+25BA, space *)
Definition prefix_star : gostring := str "* ".

(** The loop of [RenderMenu] that formats one line per environment. *)
Fixpoint menuLines (formatter : DisplayFormatter) (ansi : bool)
  (selectedIndex : Z) (i : Z) (envs : list Environment)
  : option (list gostring) :=
  match envs with
  | [] => Some []
  | env :: rest =>
      let prefix :=
        if i =? selectedIndex
        then (if ansi then prefix_arrow else prefix_star)
        else prefix_plain in
      obind (formatSingleLine formatter prefix env) (fun line =>
      obind (menuLines formatter ansi selectedIndex (i + 1) rest) (fun lines =>
      Some (line :: lines)))
  end.

(** [LineRenderer.RenderMenu] *)
Definition RenderMenu (lr : LineRenderer) (envs : list Environment)
  (selectedIndex : Z) (header : gostring) : M unit :=
  ods <- get globalDisplayState ;;
  match ods with
  | None => liftP None
  | Some ds =>
      if negb (initialized ds) then ret tt
      else
        let layout := detectTerminalLayout w in
        let formatter := newDisplayFormatter layout in
        lines <- liftP (menuLines formatter (useANSI lr) selectedIndex 0 envs) ;;
        let newLines :=
          (if gostring_eqb header (str "") then [] else [header]) ++ lines in
        let ds' := UpdateContent ds newLines selectedIndex in
        modify (set_globalDisplayState (Some ds')) >>
        if contentChanged ds' then renderFullContent lr
        else if selectionChanged ds' then renderSelectionChange lr envs formatter
        else ret tt
  end.

(** [newLineRenderer] *)
Definition newLineRenderer (state : DisplayState) (ansi : bool) : LineRenderer :=
  {| positioner := newTextPositioner (terminalWidth state); useANSI := ansi |}.

Definition resize (width height : Z) (ds : DisplayState) : DisplayState :=
  {| currentLines := currentLines ds;
     headerLine := headerLine ds;
     footerLine := footerLine ds;
     terminalWidth := width;
     terminalHeight := height;
     lastSelection := lastSelection ds;
     currentSelection := currentSelection ds;
     initialized := initialized ds;
     contentChanged := contentChanged ds;
     selectionChanged := selectionChanged ds |}.

(** [renderMenuStatefully] *)
Definition renderMenuStatefully (envs : list Environment) (selectedIndex : Z)
  (header : gostring) (ansi : bool) : M unit :=
  ods <- get globalDisplayState ;;
  (match ods with
   | None =>
       let ds := initializeDisplayState w in
       modify (set_globalDisplayState (Some ds)) >>
       modify (set_globalLineRenderer (Some (newLineRenderer ds ansi))) >>
       clearScreen
   | Some _ => ret tt
   end) >>
  let caps := detectTerminalCapabilities w in
  ods <- get globalDisplayState ;;
  ds <- liftP ods ;;
  modify (set_globalDisplayState (Some (resize (Width caps) (Height caps) ds))) >>
  olr <- get globalLineRenderer ;;
  lr <- liftP olr ;;
  let lr' := {| positioner := newTextPositioner (Width caps);
                useANSI := useANSI lr |} in
  modify (set_globalLineRenderer (Some lr')) >>
  RenderMenu lr' envs selectedIndex header.

(** [cleanupDisplayState] *)
Definition cleanupDisplayState : M unit :=
  ods <- get globalDisplayState ;;
  match ods with
  | Some ds =>
      modify (set_globalDisplayState (Some (ClearDisplay ds))) >>
      modify (set_globalDisplayState None) >>
      modify (set_globalLineRenderer None)
  | None => ret tt
  end.

Definition up_down_glyphs : gostring := [xe2; x86; x91; xe2; x86; x93].  (* U+2191 U+2193 *)

(** [displayEnvironmentMenu] *)
Definition displayEnvironmentMenu (envs : list Environment) (selectedIndex : Z)
  : M unit :=
  let header :=
    str "Select environment (use " ++ up_down_glyphs
    ++ str " arrows, Enter to confirm, Esc to cancel):" in
  renderMenuStatefully envs selectedIndex header true.

(** [displayBasicEnvironmentMenu] *)
Definition displayBasicEnvironmentMenu (envs : list Environment)
  (selectedIndex : Z) : M unit :=
  let header :=
    str "Select environment (use arrows, Enter to confirm, Esc to cancel):" in
  renderMenuStatefully envs selectedIndex header false.

(** [isHeadlessMode] *)
Definition ModeCharDevice : Z := Z.shiftl 1 21.

Definition ciVars : list gostring :=
  [str "CI"; str "CONTINUOUS_INTEGRATION"; str "GITHUB_ACTIONS";
   str "GITLAB_CI"; str "JENKINS_URL"].

Definition isHeadlessMode : bool :=
  match stdoutStat w with
  | Some mode => Z.land mode ModeCharDevice =? 0
  | None => existsb (fun envVar => negb (gostring_eqb (getenv w envVar) (str "")))
                    ciVars
  end.

(** [bufio.Reader.fill]: up to [tries] reads until one brings data or fails. *)
Fixpoint bufio_fill (tries : nat) (room : nat) : M (error + list byte) :=
  match tries with
  | O => ret (inl ErrNoProgress)
  | S tries' =>
      r <- os_Stdin_Read room ;;
      match r with
      | inl e => ret (inl e)
      | inr [] => bufio_fill tries' room
      | inr bs => ret (inr bs)
      end
  end.

Definition bufio_size : nat := 4096.

(** [bufio.Reader.ReadString('\n')] on a fresh reader over standard input:
    [buffered] bytes without a newline sit in the buffer, [acc] is everything
    read so far. *)
Fixpoint bufio_ReadString (fuel : nat) (buffered : nat) (acc : list byte)
  : M (list byte * option error) :=
  match fuel with
  | O => fun s => (OutOfFuel, s)
  | S fuel' =>
      let buffered := if Nat.eqb buffered bufio_size then O else buffered in
      r <- bufio_fill 100 (bufio_size - buffered) ;;
      match r with
      | inl e => ret (acc, Some e)
      | inr bs =>
          match find_sub [x0a] bs with
          | Some i => ret (acc ++ firstn (S i) bs, None)
          | None => bufio_ReadString fuel' (buffered + List.length bs) (acc ++ bs)
          end
      end
  end.

(** [regularInput] *)
Definition regularInput (prompt : gostring) : M (gostring * option error) :=
  fmt_Print prompt >>
  fuel <- get (fun s => S (stdin_weight (stdin s))) ;;
  ' (input, err) <- bufio_ReadString fuel O [] ;;
  match err with
  | Some e => ret (str "", Some (Wrapf (str "failed to read input") e))
  | None => ret (strings_TrimSpace input, None)
  end.

Definition err_no_environments : error :=
  Errorf (str "no environments configured - use 'add' command to create one").

Definition err_cancelled : error := Errorf (str "selection cancelled").

(** [envs[i]]: an index outside the slice panics. *)
Definition index_env (envs : list Environment) (i : Z) : option Environment :=
  if (0 <=? i) && (i <? Z.of_nat (List.length envs))
  then nth_error envs (Z.to_nat i) else None.

(** The loop of [selectEnvironmentOriginal] that prints the numbered lines. *)
Fixpoint printOptions (formatter : DisplayFormatter) (i : Z)
  (envs : list Environment) : M unit :=
  match envs with
  | [] => ret tt
  | env :: rest =>
      let prefix := fmt_d (GoInt.add i 1) ++ str ". " in
      line <- liftP (formatSingleLine formatter prefix env) ;;
      fmt_Println line >>
      printOptions formatter (i + 1) rest
  end.

(** [selectEnvironmentOriginal] *)
Definition selectEnvironmentOriginal (config : Config)
  : M (Environment * option error) :=
  let envs := Environments config in
  let count := Z.of_nat (List.length envs) in
  if count =? 0 then ret (emptyEnvironment, Some err_no_environments)
  else if count =? 1 then
    env <- liftP (index_env envs 0) ;; ret (env, None)
  else
    fmt_Println (str "Select environment:") >>
    let layout := detectTerminalLayout w in
    let formatter := newDisplayFormatter layout in
    printOptions formatter 0 envs >>
    ' (input, err) <-
        regularInput (str "Enter number (1-" ++ fmt_d count ++ str "): ") ;;
    match err with
    | Some e =>
        ret (emptyEnvironment, Some (Wrapf (str "environment selection failed") e))
    | None =>
        match strconv_Atoi input with
        | inl e =>
            ret (emptyEnvironment,
                 Some (Wrapf (str "invalid selection - must be a number") e))
        | inr choice =>
            if (choice <? 1) || (choice >? count) then
              ret (emptyEnvironment,
                   Some (Errorf (str "invalid selection - must be between 1 and "
                                 ++ fmt_d count)))
            else
              env <- liftP (index_env envs (GoInt.sub choice 1)) ;;
              ret (env, None)
        end
    end.

(** [fallbackToNumberedSelection] *)
Definition fallbackToNumberedSelection (config : Config)
  : M (Environment * option error) :=
  fmt_Println (str "Arrow key navigation not supported, using numbered selection:") >>
  selectEnvironmentOriginal config.

(** What one round of the interactive loop decides. *)
Inductive LoopStep : Type :=
| Continue (selectedIndex : Z)
| Return (env : Environment) (err : option error).

(** The body of the loop of [fullInteractiveSelection] and of
    [basicInteractiveSelection] after a successful read (the two are the same
    text): classify the bytes, then move the selection, return or go on. *)
Definition handleKey (envs : list Environment) (selectedIndex : Z)
  (input : list byte) : option LoopStep :=
  let count := Z.of_nat (List.length envs) in
  match parseKeyInput input with
  | (_, _, Some _) => Some (Continue selectedIndex)
  | (ArrowUp, _, None) =>
      obind (GoInt.rem (GoInt.add (GoInt.sub selectedIndex 1) count) count)
            (fun i => Some (Continue i))
  | (ArrowDown, _, None) =>
      obind (GoInt.rem (GoInt.add selectedIndex 1) count)
            (fun i => Some (Continue i))
  | (ArrowNone, char, None) =>
      if (char =? key_enter) || (char =? key_cr) then
        obind (index_env envs selectedIndex) (fun env => Some (Return env None))
      else if (char =? key_escape) || (char =? key_ctrl_c) then
        Some (Return emptyEnvironment (Some err_cancelled))
      else Some (Continue selectedIndex)
  | (_, _, None) => Some (Continue selectedIndex)
  end.

(** The [for] loop of the two interactive tiers; [display] is the tier's menu
    function.  A failed read hands over to the numbered tier. *)
Fixpoint selectionLoop (display : list Environment -> Z -> M unit)
  (config : Config) (fuel : nat) (selectedIndex : Z)
  : M (Environment * option error) :=
  match fuel with
  | O => fun s => (OutOfFuel, s)
  | S fuel' =>
      display (Environments config) selectedIndex >>
      r <- os_Stdin_Read 10 ;;
      match r with
      | inl _ => fallbackToNumberedSelection config
      | inr input =>
          step <- liftP (handleKey (Environments config) selectedIndex input) ;;
          match step with
          | Continue i => selectionLoop display config fuel' i
          | Return env err => ret (env, err)
          end
      end
  end.

(** The part of an interactive tier that follows a successful [MakeRaw]:
    the two deferred calls run last registered first. *)
Definition guardedLoop (display : list Environment -> Z -> M unit)
  (config : Config) (st : termState) : M (Environment * option error) :=
  let termState := {| fd := 0; oldState := Some st; restored := false |} in
  with_defer
    (with_defer
       (fuel <- get (fun s => S (stdin_weight (stdin s))) ;;
        selectionLoop display config fuel 0)
       cleanupDisplayState)
    (ensureRestore termState >> ret tt).

(** [basicInteractiveSelection] *)
Definition basicInteractiveSelection (config : Config)
  (caps : terminalCapabilities) : M (Environment * option error) :=
  old <- term_MakeRaw ;;
  match old with
  | None => fallbackToNumberedSelection config
  | Some st => guardedLoop displayBasicEnvironmentMenu config st
  end.

(** [fullInteractiveSelection] *)
Definition fullInteractiveSelection (config : Config)
  (caps : terminalCapabilities) : M (Environment * option error) :=
  old <- term_MakeRaw ;;
  match old with
  | None => basicInteractiveSelection config caps
  | Some st => guardedLoop displayEnvironmentMenu config st
  end.

(** [selectEnvironmentWithArrows] *)
Definition selectEnvironmentWithArrows (config : Config)
  : M (Environment * option error) :=
  let envs := Environments config in
  let count := Z.of_nat (List.length envs) in
  if count =? 0 then ret (emptyEnvironment, Some err_no_environments)
  else if count =? 1 then
    env <- liftP (index_env envs 0) ;; ret (env, None)
  else
    let caps := detectTerminalCapabilities w in
    if negb (IsTerminal caps) then
      if isHeadlessMode then
        if count >? 0 then
          env <- liftP (index_env envs 0) ;;
          fmt_Print (str "Headless mode: using first environment '"
                     ++ Name env ++ str "'" ++ newline) >>
          ret (env, None)
        else
          ret (emptyEnvironment,
               Some (Errorf (str "no environments available for headless mode")))
      else fallbackToNumberedSelection config
    else if SupportsRaw caps && SupportsANSI caps && SupportsCursor caps then
      fullInteractiveSelection config caps
    else if SupportsRaw caps then
      basicInteractiveSelection config caps
    else fallbackToNumberedSelection config.

(** [selectEnvironment] *)
Definition selectEnvironment (config : Config) : M (Environment * option error) :=
  selectEnvironmentWithArrows config.

End WithWorld.

(* ------------------------------------------------------------------ *)
(** ** Further functions of ui.go, and the helpers of main.go and
       config.go they call *)

Local Open Scope opt_scope.

Record EnvironmentDisplay : Type := {
  displayEnvironment : Environment;
  DisplayName : gostring;
  DisplayURL : gostring;
  DisplayModel : gostring;
  TruncatedFields : list gostring
}.

(** [DisplayFormatter.formatEnvironmentForDisplay] *)
Definition formatEnvironmentForDisplay (df : DisplayFormatter) (env : Environment)
  : option EnvironmentDisplay :=
  ' (displayName, nameTruncated) <- smartTruncateName df (Name env) ;;
  let fields := if nameTruncated then [str "name"] else [] in
  ' (displayURL, urlTruncated) <- smartTruncateURL df (URL env) ;;
  let fields := if urlTruncated then fields ++ [str "url"] else fields in
  ' (displayModel, modelTruncated) <- smartTruncateModel df (Model env) ;;
  let fields := if modelTruncated then fields ++ [str "model"] else fields in
  Some {| displayEnvironment := env;
          DisplayName := displayName;
          DisplayURL := displayURL;
          DisplayModel := displayModel;
          TruncatedFields := fields |}.

(** [maskAPIKey] *)
Definition maskAPIKey (apiKey : gostring) : option gostring :=
  if len apiKey <=? 8 then strings_Repeat (str "*") (len apiKey)
  else
    head <- slice_to apiKey 4 ;;
    stars <- strings_Repeat (str "*") (GoInt.sub (len apiKey) 8) ;;
    tail <- slice_from apiKey (GoInt.sub (len apiKey) 4) ;;
    Some (head ++ stars ++ tail).

Local Close Scope opt_scope.

Definition is_upper (c : byte) : bool :=
  (65 <=? rune_of_byte c) && (rune_of_byte c <=? 90).      (* 'A'..'Z' *)
Definition is_lower (c : byte) : bool :=
  (97 <=? rune_of_byte c) && (rune_of_byte c <=? 122).     (* 'a'..'z' *)
Definition is_digit (c : byte) : bool :=
  (48 <=? rune_of_byte c) && (rune_of_byte c <=? 57).      (* '0'..'9' *)

(** The loop of [isValidEnvVarName] over the bytes after the first. *)
Fixpoint envVarNameRest (s : list byte) : bool :=
  match s with
  | [] => true
  | char :: s' =>
      if negb (is_upper char || is_lower char || is_digit char
               || byte_eqb char "_"%byte)
      then false
      else envVarNameRest s'
  end.

(** [isValidEnvVarName] *)
Definition isValidEnvVarName (name : gostring) : bool :=
  match name with
  | [] => false
  | first :: rest =>
      if negb (is_upper first || is_lower first || byte_eqb first "_"%byte)
      then false
      else envVarNameRest rest
  end.

(** The character class of the pattern ^[a-zA-Z0-9_-]+$ of [validateName]. *)
Definition name_char (c : byte) : bool :=
  is_lower c || is_upper c || is_digit c || byte_eqb c "_"%byte
  || byte_eqb c "-"%byte.

(** [regexp.MatchString("^[a-zA-Z0-9_-]+$", name)]: the whole text is one
    or more bytes of the class (the pattern is valid, so no error). *)
Definition matches_name_pattern (name : gostring) : bool :=
  match name with
  | [] => false
  | _ => forallb name_char name
  end.

(** [validateName] *)
Definition validateName (name : gostring) : option error :=
  if gostring_eqb name (str "") then Some (Errorf (str "name cannot be empty"))
  else if len name >? 50 then
    Some (Errorf (str "name too long (max 50 characters)"))
  else if negb (matches_name_pattern name) then
    Some (Errorf (str "name contains invalid characters (use only letters, numbers, hyphens, underscores)"))
  else None.

(** A rune below 32 or equal to 127 is a single byte of that value: the
    [range] loops of [validateAPIKey] and [validateModel] over runes find one
    exactly when such a byte occurs. *)
Definition is_control (c : byte) : bool :=
  (rune_of_byte c <? 32) || (rune_of_byte c =? 127).

(** [validateAPIKey] *)
Definition validateAPIKey (apiKey : gostring) : option error :=
  if existsb is_control apiKey
  then Some (Errorf (str "API key contains invalid characters"))
  else None.

Definition backslash_x : gostring := [x5c; "x"%byte].

(** [validateModel] *)
Definition validateModel (model : gostring) : option error :=
  if gostring_eqb model (str "") then None
  else if strings_Contains model (str "$(")
          || strings_Contains model (str "`")
          || strings_Contains model (str ";")
          || strings_Contains model (str "../")
          || strings_Contains model backslash_x
  then Some (Errorf (str "model contains disallowed characters"))
  else if existsb is_control model
  then Some (Errorf (str "model contains invalid characters"))
  else if len model >? 200 then Some (Errorf (str "model name too long"))
  else None.

(** The loop of [findEnvironmentByName] from index [i]. *)
Fixpoint findFrom (envs : list Environment) (name : gostring) (i : Z)
  : Z * bool :=
  match envs with
  | [] => (-1, false)
  | env :: rest =>
      if gostring_eqb (Name env) name then (i, true)
      else findFrom rest name (i + 1)
  end.

(** [findEnvironmentByName] *)
Definition findEnvironmentByName (config : Config) (name : gostring) : Z * bool :=
  findFrom (Environments config) name 0.

(** [removeEnvironmentFromConfig]: the updated configuration and the error. *)
Definition removeEnvironmentFromConfig (config : Config) (name : gostring)
  : Config * option error :=
  let '(index, found) := findEnvironmentByName config name in
  if negb found then
    (config, Some (Errorf (str "environment '" ++ name ++ str "' not found")))
  else
    ({| Environments :=
          firstn (Z.to_nat index) (Environments config)
          ++ skipn (Z.to_nat (index + 1)) (Environments config) |},
     None).

Section Validation.

(** [validateURL] rests on the parser of net/url, which is not part of the
    repository; the functions below are stated for whatever it answers. *)
Variable validateURL : gostring -> option error.

(** [validateEnvironment] *)
Definition validateEnvironment (env : Environment) : option error :=
  match validateName (Name env) with
  | Some err => Some (Wrapf (str "invalid name") err)
  | None =>
  match validateURL (URL env) with
  | Some err => Some (Wrapf (str "invalid URL") err)
  | None =>
  match validateAPIKey (APIKey env) with
  | Some err => Some (Wrapf (str "invalid API key") err)
  | None =>
  match validateModel (Model env) with
  | Some err => Some (Wrapf (str "invalid model") err)
  | None => None
  end end end end.

(** [addEnvironmentToConfig]: the updated configuration and the error. *)
Definition addEnvironmentToConfig (config : Config) (env : Environment)
  : Config * option error :=
  match validateEnvironment env with
  | Some err => (config, Some (Wrapf (str "environment addition failed") err))
  | None =>
      let '(_, found) := findEnvironmentByName config (Name env) in
      if found then
        (config,
         Some (Errorf (str "environment with name '" ++ Name env
                       ++ str "' already exists")))
      else ({| Environments := Environments config ++ [env] |}, None)
  end.

End Validation.

Local Open Scope m_scope.

Section SecureInput.

Variable w : World.

(** The error [term.MakeRaw] returns when it fails. *)
Variable makeRawErr : error.

(** What one byte does to the line typed so far in [secureInput]. *)
Inductive SecureStep : Type :=
| Typing (input : list byte)
| Done (result : gostring) (err : option error).

(** The loop of [secureInput]; [input] holds the bytes accepted so far. *)
Fixpoint secureLoop (fuel : nat) (input : list byte) : M (gostring * option error) :=
  match fuel with
  | O => fun s => (OutOfFuel, s)
  | S fuel' =>
      r <- os_Stdin_Read 1 ;;
      match r with
      | inl err => ret (str "", Some (Wrapf (str "failed to read input") err))
      | inr [] => secureLoop fuel' input
      | inr (char :: _) =>
          match char with
          | x0a | x0d => fmt_Println (str "") >> ret (input, None)
          | x7f | x08 =>
              if len input >? 0
              then secureLoop fuel' (firstn (List.length input - 1) input)
              else secureLoop fuel' input
          | x03 => ret (str "", Some (Errorf (str "input cancelled by user")))
          | x04 =>
              if len input =? 0
              then ret (str "", Some (Errorf (str "EOF received")))
              else secureLoop fuel' input
          | _ =>
              if (32 <=? rune_of_byte char) && (rune_of_byte char <=? 126)
              then secureLoop fuel' (input ++ [char])
              else secureLoop fuel' input
          end
      end
  end.

(** The deferred closure of [secureInput]. *)
Definition secureRestore (st : termState) : M unit :=
  err <- term_Restore w 0 st ;;
  match err with
  | Some e =>
      fmt_Fprint_stderr
        (str "Warning: failed to restore terminal state: " ++ e ++ newline)
  | None => ret tt
  end.

(** [secureInput] *)
Definition secureInput (prompt : gostring) : M (gostring * option error) :=
  fmt_Print prompt >>
  if negb (stdinIsTerminal w) then
    ret (str "", Some (Errorf (str "secure input requires a terminal")))
  else
    old <- term_MakeRaw w ;;
    match old with
    | None =>
        ret (str "", Some (Wrapf (str "failed to set terminal raw mode") makeRawErr))
    | Some st =>
        with_defer
          (fuel <- get (fun s => S (stdin_weight (stdin s))) ;;
           secureLoop fuel [])
          (secureRestore st)
    end.

End SecureInput.

Local Close Scope m_scope.

(** ** Vocabulary of the statements and sample inputs *)

(** The three float64 products of [n] truncate to the integer parts of 40%,
    45% and 15% of [n]. *)
Definition scale_exactb (n : Z) : bool :=
  (scale n share_name =? n * 40 / 100)
  && (scale n share_url =? n * 45 / 100)
  && (scale n share_model =? n * 15 / 100).

(** An interactive terminal of the given size (or, with [None], one whose
    size cannot be read), TERM=xterm. *)
Definition sample_world (size : option (Z * Z)) : World :=
  {| stdinIsTerminal := true;
     getenv := fun v => if gostring_eqb v (str "TERM") then str "xterm" else [];
     makeRawOk := true;
     restoreErr := None;
     termSize := size;
     stdoutStat := Some ModeCharDevice |}.

(** A layout given directly by its width and content width, as the
    repository's tests build it. *)
Definition sample_layout (width contentWidth : Z) : TerminalLayout :=
  {| layoutWidth := width;
     layoutHeight := 24;
     layoutSupportsANSI := true;
     ContentWidth := contentWidth;
     TruncationLimit := Z.max (contentWidth - 10) 10 |}.

(** A formatter whose column widths respect the floors and fit [int], as
    every formatter built by [newDisplayFormatter] does. *)
Definition floored (df : DisplayFormatter) : Prop :=
  8 <= nameWidth df <= GoInt.max_int /\
  10 <= urlWidth df <= GoInt.max_int /\
  6 <= modelWidth df <= GoInt.max_int.

(** A profile with the given display fields. *)
Definition sample_env (name url model : string) : Environment :=
  {| Name := str name; URL := str url; APIKey := []; Model := str model;
     EnvVars := [] |}.

(** The byte sequences of the four arrow keys. *)
Definition key_up : list byte := [x1b; "["%byte; "A"%byte].
Definition key_down : list byte := [x1b; "["%byte; "B"%byte].
Definition key_right : list byte := [x1b; "["%byte; "C"%byte].
Definition key_left : list byte := [x1b; "["%byte; "D"%byte].

Definition arrow_letters : list byte := ["A"%byte; "B"%byte; "C"%byte; "D"%byte].

(** The input starts with ESC, '[' and one of the four arrow letters. *)
Definition arrow_prefixed (input : list byte) : Prop :=
  exists b2 rest, In b2 arrow_letters /\ input = x1b :: "["%byte :: b2 :: rest.

(** Two profiles; the first has no model. *)
Definition sample_config : Config :=
  {| Environments :=
       [sample_env "alpha" "https://alpha.example.com/v1" "";
        sample_env "beta" "https://beta.example.com/v1" "gpt-5"] |}.

(** An initialized display state showing two lines, the second selected. *)
Definition sample_display_state : DisplayState :=
  {| currentLines := [str "  alpha"; str "* beta"];
     headerLine := [];
     footerLine := [];
     terminalWidth := 80;
     terminalHeight := 24;
     lastSelection := -1;
     currentSelection := 1;
     initialized := true;
     contentChanged := true;
     selectionChanged := false |}.

(** The line [ensureRestore] writes for the error text [e]. *)
Definition warning_text (e : gostring) : gostring :=
  str "Warning: failed to restore terminal: " ++ e ++ newline.

(** The state at the start of a call: [input] pending on standard input,
    nothing written, no display state. *)
Definition initial_state (input : list ReadEvent) : State :=
  {| stdin := input;
     stdout := [];
     stderr := [];
     ttyRaw := false;
     globalDisplayState := None;
     globalLineRenderer := None |}.

(** A terminal that enters raw mode but refuses to leave it. *)
Definition failing_restore_world : World :=
  {| stdinIsTerminal := true;
     getenv := fun _ => [];
     makeRawOk := true;
     restoreErr := Some (str "input/output error");
     termSize := Some (80, 24);
     stdoutStat := Some ModeCharDevice |}.

(** The informational line of the headless tier. *)
Definition headless_line (env : Environment) : gostring :=
  str "Headless mode: using first environment '" ++ Name env ++ str "'" ++ newline.

(** [fs.ModeDevice] *)
Definition ModeDevice : Z := Z.shiftl 1 26.

(** Standard input is a pipe, standard output is a terminal (a character
    device with permissions 0620), and CI=true is set. *)
Definition ci_terminal_world : World :=
  {| stdinIsTerminal := false;
     getenv := fun v => if gostring_eqb v (str "CI") then str "true" else [];
     makeRawOk := false;
     restoreErr := None;
     termSize := None;
     stdoutStat := Some (Z.lor ModeDevice (Z.lor ModeCharDevice 400)) |}.

(** A computation that does not read standard input and has no budget to
    exhaust. *)
Definition quiet {A : Type} (m : M A) : Prop :=
  forall s, fst (m s) <> OutOfFuel /\ stdin (snd (m s)) = stdin s.

(** A computation that never reports an exhausted budget. *)
Definition funded {A : Type} (m : M A) : Prop :=
  forall s, fst (m s) <> OutOfFuel.

(** A printable ASCII byte. *)
Definition printable (c : byte) : Prop := 32 <= rune_of_byte c <= 126.

(** What [secureLoop] leaves behind, seen from the state [s] it started in:
    standard error and the terminal mode are untouched; on success the result
    is printable and one newline was written; on failure the result is empty
    and nothing was written; it does not panic. *)
Definition secure_post (s : State)
  (out : Res (gostring * option error) * State) : Prop :=
  stderr (snd out) = stderr s /\ ttyRaw (snd out) = ttyRaw s /\
  match fst out with
  | Val (res, None) =>
      Forall printable res /\ stdout (snd out) = stdout s ++ newline
  | Val (res, Some _) => res = [] /\ stdout (snd out) = stdout s
  | Panic => False
  | OutOfFuel => stdout (snd out) = stdout s
  end.

(** A computation whose final state, whatever the outcome, is related to
    its initial state by [R]. *)
Definition frames (R : State -> State -> Prop) {A : Type} (m : M A) : Prop :=
  forall s, R s (snd (m s)).

(** Nothing but the streams changes: terminal mode, standard error and the
    two display globals are as before. *)
Definition R_calm (s s' : State) : Prop :=
  ttyRaw s' = ttyRaw s /\ stderr s' = stderr s /\
  globalDisplayState s' = globalDisplayState s /\
  globalLineRenderer s' = globalLineRenderer s.

(** Terminal mode and standard error are as before. *)
Definition R_mild (s s' : State) : Prop :=
  ttyRaw s' = ttyRaw s /\ stderr s' = stderr s.

(** A display state that exists is not dropped. *)
Definition R_kept (s s' : State) : Prop :=
  globalDisplayState s <> None -> globalDisplayState s' <> None.

(** No line renderer without a display state. *)
Definition paired (s : State) : Prop :=
  globalDisplayState s = None -> globalLineRenderer s = None.

(** What every step of the selection loop keeps. *)
Definition tidy (s s' : State) : Prop := paired s' /\ R_mild s s'.

(** The part of [renderMenuStatefully] that follows the first-use
    initialisation: refresh the dimensions and the positioner, then render. *)
Definition renderTail (w : World) (envs : list Environment) (selectedIndex : Z)
  (header : gostring) : M unit :=
  let caps := detectTerminalCapabilities w in
  bind (get globalDisplayState) (fun ods =>
  bind (liftP ods) (fun ds =>
  bind (modify (set_globalDisplayState
                  (Some (resize (Width caps) (Height caps) ds)))) (fun _ =>
  bind (get globalLineRenderer) (fun olr =>
  bind (liftP olr) (fun lr =>
  let lr' := {| positioner := newTextPositioner (Width caps);
                useANSI := useANSI lr |} in
  bind (modify (set_globalLineRenderer (Some lr'))) (fun _ =>
  RenderMenu w lr' envs selectedIndex header)))))).

(** The state in which a selection that began in [s0] must end: terminal out
    of raw mode, no display state left, standard error as it was. *)
Definition settled (s0 s' : State) : Prop :=
  ttyRaw s' = false /\ globalDisplayState s' = None /\
  globalLineRenderer s' = None /\ stderr s' = stderr s0.

(** Total correctness: started in a state that satisfies [P], [m] returns a
    value (it does not panic and does not exhaust its budget) and leaves a
    state that satisfies [Q]. *)
Definition hoare {A : Type} (P : State -> Prop) (m : M A)
  (Q : A -> State -> Prop) : Prop :=
  forall s, P s -> exists a s', m s = (Val a, s') /\ Q a s'.

(** The bytes of a sequence of decimal digits, most significant first. *)
Definition digits_of (d : Decimal.uint) : gostring :=
  str (NilEmpty.string_of_uint d).

(** A computation that panics in no state. *)
Definition unfailing {A : Type} (m : M A) : Prop :=
  forall s, fst (m s) <> Panic.

(** Started in a state that satisfies [P], [m] panics. *)
Definition panics {A : Type} (P : State -> Prop) (m : M A) : Prop :=
  forall s, P s -> fst (m s) = Panic.

(** The pending input and the two display globals have the given values. *)
Definition pinned (evs : list ReadEvent) (d : option DisplayState)
  (l : option LineRenderer) (s : State) : Prop :=
  stdin s = evs /\ globalDisplayState s = d /\ globalLineRenderer s = l.

(** [evs] is pending, and a display state, if there is one, has its
    renderer. *)
Definition ready (evs : list ReadEvent) (s : State) : Prop :=
  stdin s = evs /\ (globalLineRenderer s = None -> globalDisplayState s = None).

(** The decisions of the interactive loop over the successive reads [keys],
    as a function of the reads alone: the first [Return], a panic of
    [handleKey], or the index reached when the reads are used up. *)
Fixpoint run_keys (envs : list Environment) (selectedIndex : Z)
  (keys : list (list byte)) : option LoopStep :=
  match keys with
  | [] => Some (Continue selectedIndex)
  | key :: rest =>
      match handleKey envs selectedIndex key with
      | Some (Continue i) => run_keys envs i rest
      | other => other
      end
  end.

(* ================================================================== *)
(** * Part II: properties                                              *)
(* ================================================================== *)

Local Close Scope m_scope.
Local Close Scope opt_scope.

(** ** Integers and byte strings *)

Lemma wrap_id (z : Z) : GoInt.in_range z -> GoInt.wrap z = z.
Proof.
  unfold GoInt.in_range, GoInt.wrap, GoInt.min_int, GoInt.max_int.
  intros H. rewrite Z.mod_small; lia.
Qed.

Lemma wrap_in_range (z : Z) : GoInt.in_range (GoInt.wrap z).
Proof.
  unfold GoInt.in_range, GoInt.wrap, GoInt.min_int, GoInt.max_int.
  pose proof (Z.mod_pos_bound (z + 2 ^ 63) (2 ^ 64) ltac:(lia)). lia.
Qed.

Lemma in_rangeb_spec (z : Z) : GoInt.in_rangeb z = true <-> GoInt.in_range z.
Proof.
  unfold GoInt.in_rangeb, GoInt.in_range.
  rewrite andb_true_iff, !Z.leb_le. tauto.
Qed.

(** Rewrites [GoInt.add] and [GoInt.sub] of in-range results to plain
    arithmetic, leaving the range conditions to [lia]. *)
Ltac unwrap :=
  unfold GoInt.add, GoInt.sub, GoInt.quot2;
  repeat match goal with
         | |- context [GoInt.wrap ?z] =>
             rewrite (wrap_id z) by
               (unfold GoInt.in_range, GoInt.min_int, GoInt.max_int in *; lia)
         end.

Lemma len_nonneg (s : gostring) : 0 <= len s.
Proof. unfold len. lia. Qed.

Lemma len_app (a b : gostring) : len (a ++ b) = len a + len b.
Proof. unfold len. rewrite length_app. lia. Qed.

Lemma len_dots : len dots = 3.
Proof. reflexivity. Qed.

Lemma slice_to_some (s : gostring) (k : Z) :
  0 <= k <= len s ->
  exists p, slice_to s k = Some p /\ len p = k.
Proof.
  intros H. unfold slice_to.
  replace ((0 <=? k) && (k <=? len s)) with true
    by (symmetry; apply andb_true_iff; split; apply Z.leb_le; lia).
  eexists; split; [reflexivity |].
  unfold len in *. rewrite length_firstn. lia.
Qed.

Lemma slice_from_some (s : gostring) (k : Z) :
  0 <= k <= len s ->
  exists q, slice_from s k = Some q /\ len q = len s - k.
Proof.
  intros H. unfold slice_from.
  replace ((0 <=? k) && (k <=? len s)) with true
    by (symmetry; apply andb_true_iff; split; apply Z.leb_le; lia).
  eexists; split; [reflexivity |].
  unfold len in *. rewrite length_skipn. lia.
Qed.

Lemma slice_to_len (s p : gostring) (k : Z) : slice_to s k = Some p -> len p = k.
Proof.
  unfold slice_to. destruct ((0 <=? k) && (k <=? len s)) eqn:E; [| discriminate].
  apply andb_true_iff in E. destruct E as [E1 E2].
  apply Z.leb_le in E1. apply Z.leb_le in E2.
  intros [= <-]. unfold len in *. rewrite length_firstn. lia.
Qed.

Lemma byte_eqb_eq (a b : byte) : byte_eqb a b = true <-> a = b.
Proof.
  unfold byte_eqb. split.
  - apply Byte.byte_dec_bl.
  - apply Byte.byte_dec_lb.
Qed.

Lemma gostring_eqb_eq (a b : gostring) : gostring_eqb a b = true <-> a = b.
Proof.
  revert b. induction a as [| x a IH]; intros [| y b]; simpl;
    try (split; [discriminate | discriminate]); try tauto.
  rewrite andb_true_iff, byte_eqb_eq, IH. split.
  - intros [-> ->]. reflexivity.
  - intros [= -> ->]. split; reflexivity.
Qed.

Lemma gostring_eqb_refl (a : gostring) : gostring_eqb a a = true.
Proof. apply gostring_eqb_eq. reflexivity. Qed.

Lemma has_prefix_length (p s : gostring) :
  has_prefix p s = true -> (List.length p <= List.length s)%nat.
Proof.
  revert s. induction p as [| x p IH]; intros [| y s]; simpl; try lia; try discriminate.
  intros H. apply andb_true_iff in H. destruct H as [_ H]. apply IH in H. lia.
Qed.

Lemma find_sub_bound (sep s : gostring) (i : nat) :
  find_sub sep s = Some i -> (i + List.length sep <= List.length s)%nat.
Proof.
  revert i. induction s as [| y s IH]; intros i; simpl.
  - destruct (has_prefix sep []) eqn:E; [| discriminate].
    intros [= <-]. apply has_prefix_length in E. simpl in *. lia.
  - destruct (has_prefix sep (y :: s)) eqn:E.
    + intros [= <-]. apply has_prefix_length in E. simpl in *. lia.
    + destruct (find_sub sep s) as [j |] eqn:F; simpl; [| discriminate].
      intros [= <-]. specialize (IH j eq_refl). lia.
Qed.

(** ** The float64 proportions *)

Lemma to_int_in_range (f : F64.t) : GoInt.in_range (F64.to_int f).
Proof.
  unfold F64.to_int.
  destruct f as [s | s | | s m e];
    try (unfold GoInt.in_range, GoInt.min_int, GoInt.max_int; lia).
  cbv zeta.
  match goal with
  | |- GoInt.in_range (if GoInt.in_rangeb ?v then _ else _) =>
      destruct (GoInt.in_rangeb v) eqn:E
  end.
  - apply in_rangeb_spec. exact E.
  - unfold GoInt.in_range, GoInt.min_int, GoInt.max_int; lia.
Qed.

Lemma scale_in_range (n : Z) (c : F64.t) : GoInt.in_range (scale n c).
Proof. apply to_int_in_range. Qed.

Example share_name_bits : share_name = S754_finite false 7205759403792794 (-54).
Proof. reflexivity. Qed.

Example share_url_bits : share_url = S754_finite false 8106479329266893 (-54).
Proof. reflexivity. Qed.

Example share_model_bits : share_model = S754_finite false 5404319552844595 (-55).
Proof. reflexivity. Qed.

(** Checked by evaluation for every content width up to 4096 columns. *)
Lemma scale_exact_table :
  forallb scale_exactb (map Z.of_nat (seq 0 4097)) = true.
Proof. vm_compute. reflexivity. Qed.

Lemma scale_exact (n : Z) :
  0 <= n <= 4096 ->
  scale n share_name = n * 40 / 100 /\
  scale n share_url = n * 45 / 100 /\
  scale n share_model = n * 15 / 100.
Proof.
  intros H.
  pose proof scale_exact_table as T.
  rewrite forallb_forall in T.
  specialize (T n).
  assert (I : In n (map Z.of_nat (seq 0 4097))).
  { apply in_map_iff. exists (Z.to_nat n). split; [lia |].
    apply in_seq. lia. }
  apply T in I. unfold scale_exactb in I.
  apply andb_true_iff in I. destruct I as [I I3].
  apply andb_true_iff in I. destruct I as [I1 I2].
  apply Z.eqb_eq in I1. apply Z.eqb_eq in I2. apply Z.eqb_eq in I3.
  auto.
Qed.

(** ** Layout (C4) *)

(** C4: for every terminal width from 1 up (and within [int]), the layout
    computed from it has contentWidth = max(width - uiOverhead, 20), where
    uiOverhead is 4 below 40 columns and 8 otherwise, and truncationLimit =
    max(contentWidth - 10, 10); so contentWidth >= 20 and truncationLimit >= 10;
    width 80 gives 72 and 62, width 15 gives the floors 20 and 10. *)
Theorem detectTerminalLayout_budget (w : World) (width : Z) :
  Width (detectTerminalCapabilities w) = width ->
  1 <= width <= GoInt.max_int ->
  let l := detectTerminalLayout w in
  let uiOverhead := if width <? 40 then 4 else 8 in
  layoutWidth l = width /\
  ContentWidth l = Z.max (width - uiOverhead) 20 /\
  TruncationLimit l = Z.max (ContentWidth l - 10) 10 /\
  20 <= ContentWidth l /\
  10 <= TruncationLimit l /\
  (width = 80 -> ContentWidth l = 72 /\ TruncationLimit l = 62) /\
  (width = 15 -> ContentWidth l = 20 /\ TruncationLimit l = 10).
Proof.
  intros HW Hr. unfold detectTerminalLayout. rewrite HW. cbn [layoutWidth ContentWidth TruncationLimit].
  unfold GoInt.max_int in Hr.
  assert (Hc : GoInt.sub width (if width <? 40 then 4 else 8)
               = width - (if width <? 40 then 4 else 8)).
  { destruct (width <? 40); unwrap; reflexivity. }
  rewrite Hc.
  set (ov := if width <? 40 then 4 else 8).
  assert (Hov : ov = 4 /\ width < 40 \/ ov = 8 /\ 40 <= width).
  { subst ov. destruct (width <? 40) eqn:E;
      [apply Z.ltb_lt in E | apply Z.ltb_ge in E]; lia. }
  set (cw := if width - ov <? 20 then 20 else width - ov).
  assert (Hcw : cw = Z.max (width - ov) 20).
  { subst cw. destruct (width - ov <? 20) eqn:E;
      [apply Z.ltb_lt in E | apply Z.ltb_ge in E]; lia. }
  assert (Ht : GoInt.sub cw 10 = cw - 10) by (unwrap; reflexivity).
  rewrite Ht.
  set (tl := if cw - 10 <? 10 then 10 else cw - 10).
  assert (Htl : tl = Z.max (cw - 10) 10).
  { subst tl. destruct (cw - 10 <? 10) eqn:E;
      [apply Z.ltb_lt in E | apply Z.ltb_ge in E]; lia. }
  repeat split; try lia.
Qed.

Lemma detectTerminalLayout_budget_witness :
  let l := detectTerminalLayout (sample_world (Some (80, 24))) in
  ContentWidth l = 72 /\ TruncationLimit l = 62.
Proof.
  pose proof (detectTerminalLayout_budget (sample_world (Some (80, 24))) 80
                eq_refl ltac:(unfold GoInt.max_int; lia)) as H.
  cbv zeta in H. destruct H as (_ & _ & _ & _ & _ & H80 & _).
  exact (H80 eq_refl).
Defined.

(** ** Column widths (C5) *)

(** C5: for every contentWidth the three column widths are the float64
    products contentWidth * 0.40 / 0.45 / 0.15 truncated to integers and then
    raised to the floors 8 / 10 / 6, so nameWidth >= 8, urlWidth >= 10 and
    modelWidth >= 6 always; up to 4096 columns the products are exactly the
    integer parts of 40%, 45% and 15% of contentWidth; contentWidth 72 (terminal
    width 80) yields 28, 32 and 10. *)
Theorem newDisplayFormatter_columns (l : TerminalLayout) :
  let df := newDisplayFormatter l in
  let cw := ContentWidth l in
  nameWidth df = Z.max (scale cw share_name) 8 /\
  urlWidth df = Z.max (scale cw share_url) 10 /\
  modelWidth df = Z.max (scale cw share_model) 6 /\
  8 <= nameWidth df /\ 10 <= urlWidth df /\ 6 <= modelWidth df /\
  (0 <= cw <= 4096 ->
   nameWidth df = Z.max (cw * 40 / 100) 8 /\
   urlWidth df = Z.max (cw * 45 / 100) 10 /\
   modelWidth df = Z.max (cw * 15 / 100) 6) /\
  (cw = 72 -> nameWidth df = 28 /\ urlWidth df = 32 /\ modelWidth df = 10).
Proof.
  cbv zeta. unfold newDisplayFormatter. cbn [nameWidth urlWidth modelWidth].
  set (cw := ContentWidth l).
  assert (Hn : (if scale cw share_name <? 8 then 8 else scale cw share_name)
               = Z.max (scale cw share_name) 8).
  { destruct (scale cw share_name <? 8) eqn:E;
      [apply Z.ltb_lt in E | apply Z.ltb_ge in E]; lia. }
  assert (Hu : (if scale cw share_url <? 10 then 10 else scale cw share_url)
               = Z.max (scale cw share_url) 10).
  { destruct (scale cw share_url <? 10) eqn:E;
      [apply Z.ltb_lt in E | apply Z.ltb_ge in E]; lia. }
  assert (Hm : (if scale cw share_model <? 6 then 6 else scale cw share_model)
               = Z.max (scale cw share_model) 6).
  { destruct (scale cw share_model <? 6) eqn:E;
      [apply Z.ltb_lt in E | apply Z.ltb_ge in E]; lia. }
  rewrite Hn, Hu, Hm.
  repeat split; try lia.
  - destruct (scale_exact cw H) as (-> & _ & _). reflexivity.
  - destruct (scale_exact cw H) as (_ & -> & _). reflexivity.
  - destruct (scale_exact cw H) as (_ & _ & ->). reflexivity.
  - rewrite H. reflexivity.
  - rewrite H. reflexivity.
  - rewrite H. reflexivity.
Qed.

Lemma newDisplayFormatter_columns_witness :
  let l := detectTerminalLayout (sample_world (Some (80, 24))) in
  let df := newDisplayFormatter l in
  nameWidth df = 28 /\ urlWidth df = 32 /\ modelWidth df = 10.
Proof.
  pose proof (newDisplayFormatter_columns
                (detectTerminalLayout (sample_world (Some (80, 24))))) as H.
  cbv zeta in H. destruct H as (_ & _ & _ & _ & _ & _ & _ & H72).
  exact (H72 eq_refl).
Defined.

Lemma newDisplayFormatter_in_range (l : TerminalLayout) :
  let df := newDisplayFormatter l in
  GoInt.in_range (nameWidth df) /\ GoInt.in_range (urlWidth df)
  /\ GoInt.in_range (modelWidth df).
Proof.
  cbv zeta. unfold newDisplayFormatter. cbn [nameWidth urlWidth modelWidth].
  pose proof (scale_in_range (ContentWidth l) share_name) as Hn.
  pose proof (scale_in_range (ContentWidth l) share_url) as Hu.
  pose proof (scale_in_range (ContentWidth l) share_model) as Hm.
  unfold GoInt.in_range, GoInt.min_int, GoInt.max_int in *.
  repeat split;
    match goal with
    | |- context [if ?c then _ else _] => destruct c
    end; lia.
Qed.

(** ** Truncators (C1) *)

Lemma newDisplayFormatter_floored (l : TerminalLayout) :
  floored (newDisplayFormatter l).
Proof.
  pose proof (newDisplayFormatter_in_range l) as R.
  cbv zeta in R. unfold floored, GoInt.in_range in *.
  unfold newDisplayFormatter in *. cbn [nameWidth urlWidth modelWidth] in *.
  destruct (scale (ContentWidth l) share_name <? 8) eqn:En;
    [| apply Z.ltb_ge in En];
  (destruct (scale (ContentWidth l) share_url <? 10) eqn:Eu;
    [| apply Z.ltb_ge in Eu]);
  (destruct (scale (ContentWidth l) share_model <? 6) eqn:Em;
    [| apply Z.ltb_ge in Em]);
  unfold GoInt.max_int in *; lia.
Qed.

(** The name column: never a panic, never longer than [nameWidth]. *)
Lemma smartTruncateName_fits (df : DisplayFormatter) (name : gostring) :
  floored df -> len name <= GoInt.max_int ->
  exists out flag,
    smartTruncateName df name = Some (out, flag) /\ len out <= nameWidth df.
Proof.
  intros (Hn & _ & _) Hl. unfold smartTruncateName.
  unfold GoInt.max_int in *.
  destruct (len name <=? nameWidth df) eqn:E.
  - apply Z.leb_le in E. eauto.
  - apply Z.leb_gt in E.
    destruct (nameWidth df <? 8) eqn:E8; [apply Z.ltb_lt in E8; lia |].
    set (nw := nameWidth df) in *.
    assert (Hq : 0 <= Z.quot (nw - 3) 2 <= nw - 3).
    { rewrite Z.quot_div_nonneg by lia.
      pose proof (Z.div_pos (nw - 3) 2). pose proof (Z.div_le_upper_bound (nw - 3) 2 (nw - 3)).
      lia. }
    unwrap.
    destruct (slice_to_some name (Z.quot (nw - 3) 2)) as (p & Hp & Lp); [lia |].
    destruct (slice_from_some name (len name - (nw - 3 - Z.quot (nw - 3) 2)))
      as (q & Hq' & Lq); [lia |].
    rewrite Hp. cbn [obind]. rewrite Hq'. cbn [obind].
    eexists; eexists; split; [reflexivity |].
    rewrite !len_app, len_dots. lia.
Qed.

(** The URL column: never a panic, never longer than [urlWidth]. *)
Lemma smartTruncateURL_fits (df : DisplayFormatter) (url : gostring) :
  floored df -> len url <= GoInt.max_int ->
  exists out flag,
    smartTruncateURL df url = Some (out, flag) /\ len out <= urlWidth df.
Proof.
  intros (_ & Hu & _) Hl. unfold smartTruncateURL.
  unfold GoInt.max_int in *.
  destruct (len url <=? urlWidth df) eqn:E.
  - apply Z.leb_le in E. eauto.
  - apply Z.leb_gt in E.
    set (uw := urlWidth df) in *.
    assert (Hfb : exists out flag,
               obind (slice_to url (GoInt.sub uw 3))
                     (fun p => Some (p ++ dots, true)) = Some (out, flag)
               /\ len out <= uw).
    { unwrap. destruct (slice_to_some url (uw - 3)) as (p & Hp & Lp); [lia |].
      rewrite Hp. cbn [obind]. eexists; eexists; split; [reflexivity |].
      rewrite len_app, len_dots. lia. }
    destruct (strings_Contains url (str "://")); [| exact Hfb].
    unfold strings_SplitN2.
    destruct (find_sub (str "://") url) as [i |] eqn:F; [| exact Hfb].
    apply find_sub_bound in F. change (List.length (str "://")) with 3%nat in *.
    cbv beta iota.
    set (remaining := skipn (i + 3) url).
    set (protocol := firstn i url ++ str "://").
    assert (Lr : len remaining = len url - Z.of_nat i - 3).
    { subst remaining. unfold len. rewrite length_skipn. lia. }
    assert (Lpr : len protocol = Z.of_nat i + 3).
    { subst protocol. rewrite len_app. unfold len at 1. rewrite length_firstn.
      change (len (str "://")) with 3. lia. }
    set (idx := strings_Index remaining (str "/")).
    assert (Hidx : idx = -1 \/ 0 <= idx <= len remaining).
    { subst idx. unfold strings_Index.
      destruct (find_sub (str "/") remaining) as [j |] eqn:G; [| left; reflexivity].
      apply find_sub_bound in G. right. unfold len. lia. }
    set (dend := if idx =? -1 then len remaining else idx).
    assert (Hd : 0 <= dend <= len remaining).
    { subst dend. pose proof (len_nonneg remaining).
      destruct (idx =? -1) eqn:E1; [lia |]. apply Z.eqb_neq in E1. lia. }
    destruct (slice_to_some remaining dend) as (domain & Hdom & Ldom); [exact Hd |].
    rewrite Hdom. cbn [obind].
    assert (Hsum : GoInt.add (len protocol) (len domain) = len protocol + len domain).
    { unwrap. reflexivity. }
    rewrite Hsum.
    assert (Hw3 : GoInt.sub uw 3 = uw - 3) by (unwrap; reflexivity).
    rewrite Hw3 in *.
    destruct (len protocol + len domain <=? uw - 3) eqn:E2; [| exact Hfb].
    apply Z.leb_le in E2.
    eexists; eexists; split; [reflexivity |].
    rewrite !len_app, len_dots. lia.
Qed.

(** The model column, for a model that is not empty: never a panic, never
    longer than [modelWidth]. *)
Lemma smartTruncateModel_fits_nonempty (df : DisplayFormatter) (model : gostring) :
  floored df -> model <> [] ->
  exists out flag,
    smartTruncateModel df model = Some (out, flag) /\ len out <= modelWidth df.
Proof.
  intros (_ & _ & Hm) Hne. unfold smartTruncateModel.
  unfold GoInt.max_int in *.
  destruct (gostring_eqb model (str "")) eqn:E0.
  - apply gostring_eqb_eq in E0. contradiction.
  - destruct (len model <=? modelWidth df) eqn:E.
    + apply Z.leb_le in E. eauto.
    + apply Z.leb_gt in E. unwrap.
      destruct (slice_to_some model (modelWidth df - 3)) as (p & Hp & Lp); [lia |].
      rewrite Hp. cbn [obind]. eexists; eexists; split; [reflexivity |].
      rewrite len_app, len_dots. lia.
Qed.

(** The placeholder of an empty model is returned whatever the width. *)
Lemma smartTruncateModel_empty (df : DisplayFormatter) :
  smartTruncateModel df [] = Some (str "default", false).
Proof. reflexivity. Qed.

(** Hence the empty model keeps within its column exactly when the column is
    at least seven bytes wide. *)
Lemma smartTruncateModel_empty_fits_iff (df : DisplayFormatter) :
  (exists out flag,
      smartTruncateModel df [] = Some (out, flag) /\ len out <= modelWidth df)
  <-> 7 <= modelWidth df.
Proof.
  rewrite smartTruncateModel_empty. split.
  - intros (out & flag & [= <- _] & H). exact H.
  - intros H. exists (str "default"), false. split; [reflexivity | exact H].
Qed.

(** C1 (the code departs from the claim): in a terminal 40 columns wide the
    content width is 32 and the model column is at its floor, 6 bytes; yet for
    the empty model [smartTruncateModel] returns the 7-byte placeholder
    "default", flagged as not truncated: the result is longer than the width. *)
Theorem smartTruncateModel_placeholder_overflows :
  let l := detectTerminalLayout (sample_world (Some (40, 24))) in
  let df := newDisplayFormatter l in
  ContentWidth l = 32 /\
  modelWidth df = 6 /\
  smartTruncateModel df (str "") = Some (str "default", false) /\
  len (str "default") = 7 /\
  ~ (len (str "default") <= modelWidth df).
Proof.
  cbv zeta. split; [reflexivity |]. split; [reflexivity |].
  split; [reflexivity |].
  split; [reflexivity |]. intros H. vm_compute in H. apply H. reflexivity.
Qed.

(** ** Single-line composition (C3) *)

Lemma clipField_some (s : gostring) (space : Z) :
  4 <= space <= GoInt.max_int ->
  exists r, clipField s space = Some r /\ len r <= Z.max (len s) space.
Proof.
  intros H. unfold clipField. unfold GoInt.max_int in H.
  destruct (len s >? space) eqn:E.
  - apply Z.gtb_lt in E.
    replace (space >? 3) with true by (symmetry; apply Z.gtb_lt; lia).
    unwrap. destruct (slice_to_some s (space - 3)) as (p & Hp & Lp); [lia |].
    rewrite Hp. cbn [obind]. eexists; split; [reflexivity |].
    rewrite len_app, len_dots. lia.
  - eexists; split; [reflexivity | lia].
Qed.

(** The final safety check of [formatSingleLine]. *)
Lemma final_check_fits (line : gostring) (width : Z) :
  4 <= width <= GoInt.max_int ->
  exists r,
    (if len line >? width then
       let maxLen := GoInt.sub width 3 in
       if maxLen >? 0
       then obind (slice_to line maxLen) (fun p => Some (p ++ dots))
       else slice_to line width
     else Some line) = Some r
    /\ len r <= width.
Proof.
  intros H. unfold GoInt.max_int in H. cbv zeta.
  destruct (len line >? width) eqn:E.
  - apply Z.gtb_lt in E. unwrap.
    replace (width - 3 >? 0) with true by (symmetry; apply Z.gtb_lt; lia).
    destruct (slice_to_some line (width - 3)) as (p & Hp & Lp); [lia |].
    rewrite Hp. cbn [obind]. eexists; split; [reflexivity |].
    rewrite len_app, len_dots. lia.
  - assert (len line <= width).
    { destruct (Z.gtb_spec (len line) width); [discriminate | assumption]. }
    eexists; split; [reflexivity | assumption].
Qed.

Lemma floor_choice (x lo : Z) :
  GoInt.in_range x -> 4 <= lo <= GoInt.max_int ->
  4 <= (if x <? lo then lo else x) <= GoInt.max_int.
Proof.
  unfold GoInt.in_range. intros Hx Hlo.
  destruct (x <? lo) eqn:E; [lia |]. apply Z.ltb_ge in E. lia.
Qed.

(** On the full path (at least 20 bytes left for content) the composed line
    never panics and never exceeds the terminal width. *)
Lemma formatSingleLine_full_path_fits (df : DisplayFormatter)
  (prefix : gostring) (env : Environment) :
  layoutWidth (layout df) <= GoInt.max_int ->
  20 <= layoutWidth (layout df) - len prefix - 6 ->
  exists line,
    formatSingleLine df prefix env = Some line
    /\ len line <= layoutWidth (layout df).
Proof.
  intros Hmax Hroom. unfold formatSingleLine.
  set (W := layoutWidth (layout df)) in *.
  pose proof (len_nonneg prefix) as Hp0.
  assert (Hm : GoInt.sub (GoInt.sub W (len prefix)) 6 = W - len prefix - 6).
  { unfold GoInt.max_int in Hmax. unwrap. reflexivity. }
  cbv zeta. rewrite Hm.
  replace (W - len prefix - 6 <? 20) with false by (symmetry; apply Z.ltb_ge; lia).
  set (mcl := W - len prefix - 6).
  pose proof (floor_choice (scale mcl share_name) 8 (scale_in_range _ _)
                ltac:(unfold GoInt.max_int; lia)) as Hn.
  pose proof (floor_choice (scale mcl share_url) 10 (scale_in_range _ _)
                ltac:(unfold GoInt.max_int; lia)) as Hu.
  pose proof (floor_choice
                (GoInt.sub (GoInt.sub mcl (scale mcl share_name)) (scale mcl share_url))
                6 (wrap_in_range _) ltac:(unfold GoInt.max_int; lia)) as Hmo.
  destruct (clipField_some (Name env) _ Hn) as (name & En & _).
  destruct (clipField_some (URL env) _ Hu) as (url & Eu & _).
  destruct (clipField_some
              (if gostring_eqb (Model env) (str "") then str "default" else Model env)
              _ Hmo) as (model & Em & _).
  rewrite En. cbn [obind]. rewrite Eu. cbn [obind]. rewrite Em. cbn [obind].
  apply final_check_fits. lia.
Qed.

(** On the minimal path the line is the prefix followed by the name, the
    name cut to ten bytes; the terminal width plays no part. *)
Lemma formatSingleLine_minimal_path (df : DisplayFormatter)
  (prefix : gostring) (env : Environment) :
  GoInt.sub (GoInt.sub (layoutWidth (layout df)) (len prefix)) 6 < 20 ->
  exists line,
    formatSingleLine df prefix env = Some line
    /\ len line = len prefix + Z.min (len (Name env)) 10.
Proof.
  intros H. unfold formatSingleLine. cbv zeta.
  replace (GoInt.sub (GoInt.sub (layoutWidth (layout df)) (len prefix)) 6 <? 20)
    with true by (symmetry; apply Z.ltb_lt; exact H).
  destruct (len (Name env) >? 10) eqn:E.
  - apply Z.gtb_lt in E.
    destruct (slice_to_some (Name env) 7) as (p & Hp & Lp); [lia |].
    rewrite Hp. cbn [obind]. eexists; split; [reflexivity |].
    rewrite !len_app, len_dots. lia.
  - assert (len (Name env) <= 10).
    { destruct (Z.gtb_spec (len (Name env)) 10); [discriminate | assumption]. }
    cbn [obind]. eexists; split; [reflexivity |].
    rewrite len_app. lia.
Qed.

(** C3 (the code departs from the claim): in a terminal 10 columns wide the
    minimal-format path is taken (10 - 2 - 6 < 20) and the line for the
    ten-byte name "production" with the two-space prefix is 12 bytes long,
    more than the terminal width; no width check guards this path. *)
Theorem formatSingleLine_minimal_path_overflows :
  let l := detectTerminalLayout (sample_world (Some (10, 24))) in
  let df := newDisplayFormatter l in
  let env := sample_env "production" "https://api.example.com" "" in
  layoutWidth l = 10 /\
  formatSingleLine df prefix_plain env = Some (str "  production") /\
  len (str "  production") = 12 /\
  ~ (len (str "  production") <= layoutWidth l).
Proof.
  cbv zeta. split; [reflexivity |]. split; [vm_compute; reflexivity |].
  split; [reflexivity |]. intros H. vm_compute in H. apply H. reflexivity.
Qed.

(** ** Key classification (C6) *)

Lemma parseKeyInput_single (b : byte) :
  b <> x0a -> b <> x0d -> b <> x1b -> b <> x03 ->
  parseKeyInput [b] = (ArrowNone, rune_of_byte b, None).
Proof.
  intros H1 H2 H3 H4. destruct b; try reflexivity; congruence.
Qed.

Lemma parseKeyInput_not_escape (b0 b1 : byte) (rest : list byte) :
  b0 <> x1b ->
  parseKeyInput (b0 :: b1 :: rest) = (ArrowNone, 0, Some err_unrecognized).
Proof.
  intros H. destruct b0; try reflexivity; congruence.
Qed.

Lemma parseKeyInput_not_bracket (b1 : byte) (rest : list byte) :
  b1 <> "["%byte ->
  parseKeyInput (x1b :: b1 :: rest) = (ArrowNone, 0, Some err_unrecognized).
Proof.
  intros H. destruct b1; try reflexivity; congruence.
Qed.

Lemma parseKeyInput_not_letter (b2 : byte) (rest : list byte) :
  ~ In b2 arrow_letters ->
  parseKeyInput (x1b :: "["%byte :: b2 :: rest) = (ArrowNone, 0, Some err_unrecognized).
Proof.
  intros H. destruct b2; try reflexivity; exfalso; apply H; simpl; tauto.
Qed.

(** C6 as stated fails: a four-byte input that begins with the up-arrow
    sequence is a multi-byte input other than the three-byte sequences, and it
    is classified as the up arrow instead of being reported as unrecognized. *)
Lemma parseKeyInput_longer_sequence_counterexample :
  ~ (forall input : list byte,
        (2 <= List.length input)%nat ->
        ~ (exists b2, In b2 arrow_letters /\ input = [x1b; "["%byte; b2]) ->
        parseKeyInput input = (ArrowNone, 0, Some err_unrecognized)).
Proof.
  intros H.
  specialize (H [x1b; "["%byte; "A"%byte; "B"%byte]).
  assert (E : parseKeyInput [x1b; "["%byte; "A"%byte; "B"%byte] = (ArrowUp, 0, None))
    by reflexivity.
  rewrite E in H.
  assert (C : (ArrowUp, 0, @None error) = (ArrowNone, 0, Some err_unrecognized)).
  { apply H.
    - simpl. lia.
    - intros (b2 & _ & Hb). discriminate Hb. }
  discriminate C.
Qed.

(** C6, amended: one byte '\n' or '\r' is the confirm key; one byte 0x1b or
    0x03 is a cancel key; any other single byte is passed through as that
    character with no arrow; an input of three OR MORE bytes that begins with
    0x1b '[' and 'A'/'B'/'C'/'D' is up/down/right/left, whatever follows; every
    other input of two or more bytes is the "unrecognized" error, and the empty
    input is the "empty input" error. *)
Theorem parseKeyInput_classification :
  parseKeyInput [] = (ArrowNone, 0, Some err_empty_input) /\
  parseKeyInput [x0a] = (ArrowNone, key_enter, None) /\
  parseKeyInput [x0d] = (ArrowNone, key_enter, None) /\
  parseKeyInput [x1b] = (ArrowNone, key_escape, None) /\
  parseKeyInput [x03] = (ArrowNone, key_ctrl_c, None) /\
  (forall b, b <> x0a -> b <> x0d -> b <> x1b -> b <> x03 ->
             parseKeyInput [b] = (ArrowNone, rune_of_byte b, None)) /\
  (forall rest,
      parseKeyInput (key_up ++ rest) = (ArrowUp, 0, None) /\
      parseKeyInput (key_down ++ rest) = (ArrowDown, 0, None) /\
      parseKeyInput (key_right ++ rest) = (ArrowRight, 0, None) /\
      parseKeyInput (key_left ++ rest) = (ArrowLeft, 0, None)) /\
  (forall input,
      (2 <= List.length input)%nat -> ~ arrow_prefixed input ->
      parseKeyInput input = (ArrowNone, 0, Some err_unrecognized)).
Proof.
  repeat (split; [reflexivity |]).
  split; [exact parseKeyInput_single |].
  split; [intros rest; repeat split |].
  intros input Hlen Hna.
  destruct input as [| b0 [| b1 rest]]; simpl in Hlen; try lia.
  destruct (Byte.byte_eq_dec b0 x1b) as [-> | N0];
    [| apply parseKeyInput_not_escape; exact N0].
  destruct (Byte.byte_eq_dec b1 "["%byte) as [-> | N1];
    [| apply parseKeyInput_not_bracket; exact N1].
  destruct rest as [| b2 rest]; [reflexivity |].
  apply parseKeyInput_not_letter.
  intros Hin. apply Hna. exists b2, rest. split; [exact Hin | reflexivity].
Qed.

Lemma parseKeyInput_classification_witness :
  parseKeyInput [x1b; "["%byte; "Z"%byte] = (ArrowNone, 0, Some err_unrecognized).
Proof.
  destruct parseKeyInput_classification as (_ & _ & _ & _ & _ & _ & _ & H).
  apply H.
  - simpl. lia.
  - intros (b2 & rest & Hin & E). injection E as E2 _. subst b2.
    simpl in Hin. intuition discriminate.
Defined.

(** ** Cyclic navigation (C7) *)

(** The arithmetic of the two arrows in [handleKey]: for every profile count
    >= 2 (a slice length, hence far below 2^62) and every index in
    [0, count), an up-arrow gives (index - 1 + count) mod count and a
    down-arrow (index + 1) mod count; up from 0 gives count - 1 and down from
    count - 1 gives 0. *)
Lemma handleKey_arrows (envs : list Environment) (index : Z) :
  let count := Z.of_nat (List.length envs) in
  2 <= count -> 2 * count <= GoInt.max_int ->
  0 <= index < count ->
  handleKey envs index key_up = Some (Continue ((index - 1 + count) mod count)) /\
  handleKey envs index key_down = Some (Continue ((index + 1) mod count)) /\
  (index = 0 -> handleKey envs index key_up = Some (Continue (count - 1))) /\
  (index = count - 1 -> handleKey envs index key_down = Some (Continue 0)).
Proof.
  cbv zeta. set (count := Z.of_nat (List.length envs)).
  intros H2 Hmax Hi. unfold GoInt.max_int in Hmax.
  assert (Hup : handleKey envs index key_up
                = Some (Continue ((index - 1 + count) mod count))).
  { unfold handleKey. fold count. cbn [parseKeyInput key_up].
    unfold GoInt.rem.
    replace (count =? 0) with false by (symmetry; apply Z.eqb_neq; lia).
    cbn [obind]. unwrap.
    rewrite Z.rem_mod_nonneg by lia.
    pose proof (Z.mod_pos_bound (index - 1 + count) count ltac:(lia)).
    unwrap. reflexivity. }
  assert (Hdown : handleKey envs index key_down
                  = Some (Continue ((index + 1) mod count))).
  { unfold handleKey. fold count. cbn [parseKeyInput key_down].
    unfold GoInt.rem.
    replace (count =? 0) with false by (symmetry; apply Z.eqb_neq; lia).
    cbn [obind]. unwrap.
    rewrite Z.rem_mod_nonneg by lia.
    pose proof (Z.mod_pos_bound (index + 1) count ltac:(lia)).
    unwrap. reflexivity. }
  split; [exact Hup |]. split; [exact Hdown |]. split.
  - intros ->. rewrite Hup. do 2 f_equal.
    replace (0 - 1 + count) with (count - 1) by lia.
    apply Z.mod_small. lia.
  - intros ->. rewrite Hdown. do 2 f_equal.
    replace (count - 1 + 1) with count by lia.
    apply Z.mod_same. lia.
Qed.


(** How the loop of either tier uses [handleKey]: when the menu has been
    drawn and the read brings [input], a round that goes on continues with the
    index [handleKey] computed. *)
Lemma selectionLoop_round (w : World) (display : list Environment -> Z -> M unit)
  (config : Config) (fuel : nat) (index index' : Z) (s s0 : State)
  (input : list byte) (rest : list ReadEvent) :
  display (Environments config) index s = (Val tt, s0) ->
  stdin s0 = RData input :: rest ->
  (List.length input <= 10)%nat ->
  handleKey (Environments config) index input = Some (Continue index') ->
  selectionLoop w display config (S fuel) index s
  = selectionLoop w display config fuel index' (set_stdin rest s0).
Proof.
  intros Hd Hin Hlen Hk. cbn [selectionLoop]. unfold bind at 1. rewrite Hd.
  unfold bind at 1. unfold os_Stdin_Read. rewrite Hin.
  replace (Nat.leb (List.length input) 10) with true
    by (symmetry; apply Nat.leb_le; exact Hlen).
  unfold bind, liftP. rewrite Hk. reflexivity.
Qed.

(** What the loop does with the other keys: Enter (either byte) returns the
    selected profile, Escape and Ctrl-C return the cancellation error. *)
Lemma handleKey_confirm_cancel (envs : list Environment) (index : Z)
  (env : Environment) :
  index_env envs index = Some env ->
  handleKey envs index [x0a] = Some (Return env None) /\
  handleKey envs index [x0d] = Some (Return env None) /\
  handleKey envs index [x1b] = Some (Return emptyEnvironment (Some err_cancelled)) /\
  handleKey envs index [x03] = Some (Return emptyEnvironment (Some err_cancelled)).
Proof.
  intros H. unfold handleKey. cbn [parseKeyInput]. cbn.
  rewrite H. repeat split; reflexivity.
Qed.

(** Every width is the width of some terminal. *)
Lemma every_width_is_probed (width height : Z) :
  Width (detectTerminalCapabilities (sample_world (Some (width, height)))) = width.
Proof. reflexivity. Qed.

(** ** Render-state update (C10) *)

Lemma linesDiffer_false_iff (lines current : list gostring) :
  List.length lines = List.length current ->
  (linesDiffer lines current = false <-> lines = current).
Proof.
  revert current.
  induction lines as [| l lines IH]; intros [| c current] Hlen;
    simpl in *; try discriminate.
  - tauto.
  - destruct (gostring_eqb l c) eqn:E.
    + apply gostring_eqb_eq in E. subst c.
      rewrite IH by lia. split; [intros -> | intros [= ->]]; reflexivity.
    + split; [discriminate |].
      intros [= -> ->]. rewrite gostring_eqb_refl in E. discriminate.
Qed.

(** C10: for every sequence of new lines and every new selection index, the
    update of a display state sets contentChanged exactly when the new lines
    differ from the stored ones, sets selectionChanged exactly when the
    selection index differs from the stored one and contentChanged is false
    (so the two flags are never both true), stores the new lines and the new
    selection and shifts the previous current selection into lastSelection.
    This is stated for the display states the program holds: the only
    constructor, [initializeDisplayState], sets [initialized], and
    [UpdateContent], [ClearDisplay] and the resize of [renderMenuStatefully]
    keep it.  (The guard for a state that is not initialized returns it
    unchanged.) *)
Theorem UpdateContent_flags (ds : DisplayState) (lines : list gostring)
  (selection : Z) :
  let ds' := UpdateContent ds lines selection in
  (initialized ds = true ->
   (contentChanged ds' = true <-> lines <> currentLines ds) /\
   (selectionChanged ds' = true <->
    selection <> currentSelection ds /\ contentChanged ds' = false) /\
   ~ (contentChanged ds' = true /\ selectionChanged ds' = true) /\
   currentLines ds' = lines /\
   currentSelection ds' = selection /\
   lastSelection ds' = currentSelection ds /\
   initialized ds' = true) /\
  (initialized ds = false -> ds' = ds) /\
  (forall w, initialized (initializeDisplayState w) = true) /\
  (initialized ds = true ->
   initialized (ClearDisplay ds) = true /\
   forall width height, initialized (resize width height ds) = true).
Proof.
  cbv zeta.
  split; [| split; [intros Hi; unfold UpdateContent; rewrite Hi; reflexivity |
            split; [reflexivity |
              intros Hi;
              split; [unfold ClearDisplay; rewrite Hi; reflexivity
                     | intros ? ?; exact Hi]]]].
  unfold UpdateContent. intros Hi; rewrite Hi; cbn [negb].
  cbn [contentChanged selectionChanged currentLines currentSelection
       lastSelection initialized].
  set (changed :=
         if negb (negb (len_lines_eqb lines (currentLines ds)))
         then linesDiffer lines (currentLines ds)
         else negb (len_lines_eqb lines (currentLines ds))).
  assert (Hc : changed = true <-> lines <> currentLines ds).
  { subst changed. unfold len_lines_eqb.
    destruct (Nat.eqb_spec (List.length lines) (List.length (currentLines ds)))
      as [E | N]; cbn [negb].
    - pose proof (linesDiffer_false_iff lines (currentLines ds) E) as D.
      destruct (linesDiffer lines (currentLines ds)).
      + split; [| reflexivity]. intros _ Heq. apply D in Heq. discriminate.
      + split; [discriminate |]. intros Hne. exfalso. apply Hne. apply D. reflexivity.
    - split; [| reflexivity]. intros _ Heq. apply N. rewrite Heq. reflexivity. }
  assert (Hs : negb (selection =? currentSelection ds) && negb changed = true
               <-> selection <> currentSelection ds /\ changed = false).
  { rewrite andb_true_iff, !negb_true_iff, Z.eqb_neq. tauto. }
  split; [exact Hc |]. split; [exact Hs |]. split.
  - intros (H1 & H2). apply Hs in H2. destruct H2 as (_ & H2). congruence.
  - repeat split; reflexivity.
Qed.

Lemma UpdateContent_flags_witness :
  let ds' := UpdateContent sample_display_state [str "* alpha"; str "  beta"] 0 in
  contentChanged ds' = true /\
  currentSelection ds' = 0 /\ lastSelection ds' = 1.
Proof.
  pose proof (UpdateContent_flags sample_display_state
                [str "* alpha"; str "  beta"] 0) as H.
  cbv zeta in H. destruct H as (H & _).
  specialize (H eq_refl). destruct H as (Hc & _ & _ & _ & Hsel & Hlast & _).
  cbv zeta. split; [apply Hc; discriminate |].
  split; [exact Hsel | exact Hlast].
Defined.

(** ** Raw-mode guard (C9) *)

(** C9: releasing a guard that is already restored, or whose acquisition
    failed (no saved state), touches nothing and returns no error; a second
    release after any first one is such a no-op; and when the underlying
    restoration fails, [ensureRestore] marks the guard restored, writes one
    warning line to the diagnostic stream, and returns normally (it has no
    error result and does not panic). *)
Theorem restore_idempotent_and_demoted (w : World) (ts : terminalState) (s : State) :
  (restored ts = true \/ oldState ts = None ->
   restore w ts s = (Val (ts, None), s) /\ ensureRestore w ts s = (Val ts, s)) /\
  (forall ts1 err1 s1,
      restore w ts s = (Val (ts1, err1), s1) ->
      restore w ts1 s1 = (Val (ts1, None), s1) /\
      ensureRestore w ts1 s1 = (Val ts1, s1)) /\
  (forall st e,
      restored ts = false -> oldState ts = Some st -> restoreErr w = Some e ->
      restore w ts s
      = (Val ({| fd := fd ts; oldState := Some st; restored := true |}, Some e), s) /\
      ensureRestore w ts s
      = (Val {| fd := fd ts; oldState := Some st; restored := true |},
         set_stderr (stderr s ++ warning_text e) s)).
Proof.
  assert (Noop : forall t u, restored t = true \/ oldState t = None ->
                   restore w t u = (Val (t, None), u)
                   /\ ensureRestore w t u = (Val t, u)).
  { intros t u H. unfold ensureRestore, restore, bind.
    destruct (restored t) eqn:R; [split; reflexivity |].
    destruct (oldState t) eqn:O; [| split; reflexivity].
    destruct H; discriminate. }
  split; [apply Noop |]. split.
  - intros ts1 err1 s1 H. apply Noop.
    unfold restore in H.
    destruct (restored ts) eqn:R.
    + injection H as <- _ _. left. exact R.
    + destruct (oldState ts) eqn:O.
      * unfold bind, term_Restore in H.
        destruct (restoreErr w); cbn in H; injection H as <- _ _; left; reflexivity.
      * injection H as <- _ _. right. exact O.
  - intros st e R O E.
    unfold ensureRestore, restore, bind, term_Restore. rewrite R, O, E.
    split; reflexivity.
Qed.

Lemma restore_idempotent_and_demoted_witness :
  let ts := {| fd := 0; oldState := Some SavedState; restored := false |} in
  let '(r, s') := ensureRestore failing_restore_world ts (initial_state []) in
  r = Val {| fd := 0; oldState := Some SavedState; restored := true |} /\
  stderr s' = str "Warning: failed to restore terminal: input/output error" ++ newline /\
  ensureRestore failing_restore_world
    {| fd := 0; oldState := Some SavedState; restored := true |} s'
  = (Val {| fd := 0; oldState := Some SavedState; restored := true |}, s').
Proof.
  pose proof (restore_idempotent_and_demoted failing_restore_world
                {| fd := 0; oldState := Some SavedState; restored := false |}
                (initial_state [])) as (_ & _ & H).
  destruct (H SavedState (str "input/output error") eq_refl eq_refl eq_refl)
    as (_ & H2).
  cbv zeta. cbn [fd] in H2. rewrite H2.
  split; [reflexivity |]. split; [reflexivity |].
  pose proof (restore_idempotent_and_demoted failing_restore_world
                {| fd := 0; oldState := Some SavedState; restored := true |}
                (set_stderr (stderr (initial_state []) ++ warning_text (str "input/output error"))
                            (initial_state []))) as (H1 & _).
  exact (proj2 (H1 (or_introl eq_refl))).
Defined.

(** ** Degenerate profile lists (C8) *)

(** C8: whatever the terminal (hence whichever tier would be chosen), with no
    profile the selection returns the no-profiles-configured error, and with
    exactly one profile it returns that profile; in both cases the state is
    untouched: nothing is written, no input is consumed, raw mode is not
    entered.  The numbered tier's own entry point behaves the same. *)
Theorem selection_degenerate_lists (w : World) (s : State) (env : Environment) :
  selectEnvironmentWithArrows w {| Environments := [] |} s
  = (Val (emptyEnvironment, Some err_no_environments), s) /\
  selectEnvironmentOriginal w {| Environments := [] |} s
  = (Val (emptyEnvironment, Some err_no_environments), s) /\
  selectEnvironment w {| Environments := [] |} s
  = (Val (emptyEnvironment, Some err_no_environments), s) /\
  selectEnvironmentWithArrows w {| Environments := [env] |} s = (Val (env, None), s) /\
  selectEnvironmentOriginal w {| Environments := [env] |} s = (Val (env, None), s) /\
  selectEnvironment w {| Environments := [env] |} s = (Val (env, None), s).
Proof.
  repeat split; reflexivity.
Qed.

(** ** Headless detection (C2) *)

(** What [isHeadlessMode] computes: when the status of standard output can be
    read, that alone decides; the CI variables are consulted only when it
    cannot. *)
Lemma isHeadlessMode_decides (w : World) :
  isHeadlessMode w = true <->
  (exists mode, stdoutStat w = Some mode /\ Z.land mode ModeCharDevice = 0)
  \/ (stdoutStat w = None
      /\ exists envVar, In envVar ciVars /\ getenv w envVar <> []).
Proof.
  unfold isHeadlessMode. destruct (stdoutStat w) as [mode |].
  - rewrite Z.eqb_eq. split.
    + intros H. left. exists mode. split; [reflexivity | exact H].
    + intros [(m & [= <-] & H) | (D & _)]; [exact H | discriminate D].
  - rewrite existsb_exists. split.
    + intros (v & Hin & Hv). right. split; [reflexivity |].
      exists v. split; [exact Hin |].
      intros E. rewrite E in Hv. discriminate Hv.
    + intros [(m & D & _) | (_ & v & Hin & Hv)]; [discriminate D |].
      exists v. split; [exact Hin |].
      destruct (gostring_eqb (getenv w v) (str "")) eqn:E; [| reflexivity].
      apply gostring_eqb_eq in E. contradiction.
Qed.

(** With standard input not a terminal and at least two profiles, the
    selection takes the first profile and prints the informational line when
    [isHeadlessMode] holds, and otherwise runs the numbered tier. *)
Lemma selection_without_terminal (w : World) (first second : Environment)
  (others : list Environment) (s : State) :
  stdinIsTerminal w = false ->
  let config := {| Environments := first :: second :: others |} in
  selectEnvironmentWithArrows w config s
  = if isHeadlessMode w
    then (Val (first, None), set_stdout (stdout s ++ headless_line first) s)
    else fallbackToNumberedSelection w config s.
Proof.
  intros Hnt. cbv zeta. unfold selectEnvironmentWithArrows.
  cbn [Environments].
  replace (Z.of_nat (List.length (first :: second :: others)) =? 0) with false
    by (symmetry; apply Z.eqb_neq; simpl List.length; lia).
  replace (Z.of_nat (List.length (first :: second :: others)) =? 1) with false
    by (symmetry; apply Z.eqb_neq; simpl List.length; lia).
  replace (Z.of_nat (List.length (first :: second :: others)) >? 0) with true
    by (symmetry; apply Z.gtb_lt; simpl List.length; lia).
  unfold detectTerminalCapabilities at 1. cbn [IsTerminal]. rewrite Hnt. cbn [negb].
  destruct (isHeadlessMode w); [| reflexivity].
  unfold index_env.
  replace ((0 <=? 0) && (0 <? Z.of_nat (List.length (first :: second :: others))))
    with true
    by (symmetry; apply andb_true_iff; split;
        [reflexivity | apply Z.ltb_lt; simpl List.length; lia]).
  reflexivity.
Qed.

(** C2 (the code departs from the claim): with standard input not a terminal,
    standard output a terminal and the CI variable set, [isHeadlessMode] is
    false, because the successful Stat of standard output returns before the
    CI variables are looked at; the selection does not take the first profile
    but runs the numbered tier, which here reads "2" and returns the second
    profile. *)
Theorem headless_ignores_ci_marker :
  let w := ci_terminal_world in
  let s := initial_state [RData (str "2" ++ newline)] in
  getenv w (str "CI") = str "true" /\
  isHeadlessMode w = false /\
  selectEnvironmentWithArrows w sample_config s
  = fallbackToNumberedSelection w sample_config s /\
  fst (selectEnvironmentWithArrows w sample_config s)
  = Val (sample_env "beta" "https://beta.example.com/v1" "gpt-5", None) /\
  stdout (snd (selectEnvironmentWithArrows w sample_config s))
  = str "Arrow key navigation not supported, using numbered selection:" ++ newline
    ++ str "Select environment:" ++ newline
    ++ str "1. alpha (https://alpha.example.com/v1) [default]" ++ newline
    ++ str "2. beta (https://beta.example.com/v1) [gpt-5]" ++ newline
    ++ str "Enter number (1-2): ".
Proof.
  cbv zeta. split; [reflexivity |]. split; [reflexivity |].
  split; [vm_compute; reflexivity |]. split; vm_compute; reflexivity.
Qed.

(** ** The reading loops never exhaust their budget *)

Lemma quiet_ret {A : Type} (a : A) : quiet (ret a).
Proof. intros s. split; [discriminate | reflexivity]. Qed.

Lemma quiet_liftP {A : Type} (o : option A) : quiet (liftP o).
Proof. intros s. unfold liftP. destruct o; split; try discriminate; reflexivity. Qed.

Lemma quiet_get {A : Type} (f : State -> A) : quiet (get f).
Proof. intros s. split; [discriminate | reflexivity]. Qed.

Lemma quiet_modify (f : State -> State) :
  (forall s, stdin (f s) = stdin s) -> quiet (modify f).
Proof. intros H s. split; [discriminate | apply H]. Qed.

Lemma quiet_bind {A B : Type} (m : M A) (k : A -> M B) :
  quiet m -> (forall a, quiet (k a)) -> quiet (bind m k).
Proof.
  intros Hm Hk s. unfold bind. specialize (Hm s).
  destruct (m s) as [r s1]. cbn [fst snd] in Hm. destruct Hm as [Hf Hs].
  destruct r as [a | |].
  - destruct (Hk a s1) as [Kf Ks]. split; [exact Kf | congruence].
  - split; [discriminate | exact Hs].
  - contradiction.
Qed.

Lemma quiet_funded {A : Type} (m : M A) : quiet m -> funded m.
Proof. intros H s. apply H. Qed.

Lemma funded_bind {A B : Type} (m : M A) (k : A -> M B) :
  funded m -> (forall a, funded (k a)) -> funded (bind m k).
Proof.
  intros Hm Hk s. unfold bind. specialize (Hm s).
  destruct (m s) as [r s1]. cbn [fst] in Hm.
  destruct r as [a | |]; [apply Hk | discriminate | contradiction].
Qed.

Lemma funded_with_defer {A : Type} (body : M A) (d : M unit) :
  funded body -> funded d -> funded (with_defer body d).
Proof.
  intros Hb Hd s. unfold with_defer. specialize (Hb s).
  destruct (body s) as [r s1]. cbn [fst] in Hb. specialize (Hd s1).
  destruct (d s1) as [r2 s2]. cbn [fst] in Hd.
  destruct r2; [exact Hb | discriminate | contradiction].
Qed.

Lemma quiet_fmt_Print (text : gostring) : quiet (fmt_Print text).
Proof. apply quiet_modify. reflexivity. Qed.

Lemma quiet_fmt_Println (text : gostring) : quiet (fmt_Println text).
Proof. apply quiet_fmt_Print. Qed.

Lemma quiet_fmt_Fprint_stderr (text : gostring) : quiet (fmt_Fprint_stderr text).
Proof. apply quiet_modify. reflexivity. Qed.

Create HintDb quiet.
#[local] Hint Resolve quiet_ret quiet_liftP quiet_get quiet_fmt_Print
  quiet_fmt_Println quiet_fmt_Fprint_stderr : quiet.

(** Decomposes a goal [quiet m] along the binds and case distinctions of [m]. *)
Ltac quiet_tac :=
  repeat first
    [ solve [auto with quiet]
    | apply quiet_modify; intros; reflexivity
    | apply quiet_bind; [| intros ?]
    | match goal with
      | |- quiet (match ?x with _ => _ end) => destruct x
      | |- quiet (let '(_, _) := ?x in _) => destruct x
      end ].

Lemma quiet_clearLoop (tp : TextPositioner) (n : Z) (count : nat) (i : Z) :
  quiet (clearLoop tp n count i).
Proof.
  revert i. induction count as [| count IH]; intros i; cbn [clearLoop]; quiet_tac.
Qed.

#[local] Hint Resolve quiet_clearLoop : quiet.

Lemma quiet_clearScreen (w : World) : quiet (clearScreen w).
Proof. unfold clearScreen. quiet_tac. Qed.

#[local] Hint Resolve quiet_clearScreen : quiet.

Lemma quiet_printLines (tp : TextPositioner) (first : bool)
  (lines : list gostring) : quiet (printLines tp first lines).
Proof.
  revert first. induction lines as [| line rest IH]; intros first;
    cbn [printLines]; quiet_tac.
Qed.

#[local] Hint Resolve quiet_printLines : quiet.

Lemma quiet_renderFullContent (w : World) (lr : LineRenderer) :
  quiet (renderFullContent w lr).
Proof. unfold renderFullContent. quiet_tac. Qed.

#[local] Hint Resolve quiet_renderFullContent : quiet.

Lemma quiet_RenderMenu (w : World) (lr : LineRenderer) (envs : list Environment)
  (selectedIndex : Z) (header : gostring) :
  quiet (RenderMenu w lr envs selectedIndex header).
Proof. unfold RenderMenu, renderSelectionChange. quiet_tac. Qed.

#[local] Hint Resolve quiet_RenderMenu : quiet.

Lemma quiet_renderMenuStatefully (w : World) (envs : list Environment)
  (selectedIndex : Z) (header : gostring) (ansi : bool) :
  quiet (renderMenuStatefully w envs selectedIndex header ansi).
Proof. unfold renderMenuStatefully. quiet_tac. Qed.

Lemma quiet_displayEnvironmentMenu (w : World) (envs : list Environment)
  (selectedIndex : Z) : quiet (displayEnvironmentMenu w envs selectedIndex).
Proof. apply quiet_renderMenuStatefully. Qed.

Lemma quiet_displayBasicEnvironmentMenu (w : World) (envs : list Environment)
  (selectedIndex : Z) : quiet (displayBasicEnvironmentMenu w envs selectedIndex).
Proof. apply quiet_renderMenuStatefully. Qed.

Lemma quiet_cleanupDisplayState : quiet cleanupDisplayState.
Proof. unfold cleanupDisplayState. quiet_tac. Qed.

Lemma quiet_ensureRestore (w : World) (ts : terminalState) :
  quiet (ensureRestore w ts).
Proof. unfold ensureRestore, restore, term_Restore. quiet_tac. Qed.

Lemma quiet_printOptions (formatter : DisplayFormatter) (i : Z)
  (envs : list Environment) : quiet (printOptions formatter i envs).
Proof.
  revert i. induction envs as [| env rest IH]; intros i; cbn [printOptions];
    quiet_tac.
Qed.

(** One read either fails or takes something away from the pending input. *)
Lemma os_Stdin_Read_progress (n : nat) (s : State) :
  (1 <= n)%nat ->
  exists r s1,
    os_Stdin_Read n s = (Val r, s1) /\
    (stdin_weight (stdin s1) <= stdin_weight (stdin s))%nat /\
    forall bs, r = inr bs ->
               (List.length bs <= n)%nat /\
               (stdin_weight (stdin s1) < stdin_weight (stdin s))%nat.
Proof.
  intros Hn. unfold os_Stdin_Read.
  destruct (stdin s) as [| [bs |] rest] eqn:E.
  - eexists; eexists; split; [reflexivity |]. rewrite E. split; [lia | discriminate].
  - destruct (Nat.leb_spec (List.length bs) n) as [L | L].
    + eexists; eexists; split; [reflexivity |]. cbn [stdin set_stdin stdin_weight].
      split; [lia |]. intros bs' [= <-]. split; lia.
    + eexists; eexists; split; [reflexivity |]. cbn [stdin set_stdin stdin_weight].
      rewrite length_skipn. split; [lia |].
      intros bs' [= <-]. rewrite length_firstn. split; lia.
  - eexists; eexists; split; [reflexivity |]. cbn [stdin set_stdin stdin_weight].
    split; [lia | discriminate].
Qed.

Lemma bufio_fill_progress (tries room : nat) (s : State) :
  (1 <= room)%nat ->
  exists r s1,
    bufio_fill tries room s = (Val r, s1) /\
    forall bs, r = inr bs ->
               (List.length bs <= room)%nat /\
               (stdin_weight (stdin s1) < stdin_weight (stdin s))%nat.
Proof.
  intros Hroom. revert s. induction tries as [| tries IH]; intros s.
  - eexists; eexists; split; [reflexivity | discriminate].
  - cbn [bufio_fill]. unfold bind.
    destruct (os_Stdin_Read_progress room s Hroom) as (r & s1 & E & Hle & Hr).
    rewrite E. destruct r as [e | bs].
    + eexists; eexists; split; [reflexivity | discriminate].
    + destruct bs as [| b bs].
      * destruct (IH s1) as (r2 & s2 & E2 & H2). rewrite E2.
        eexists; eexists; split; [reflexivity |].
        intros bs2 Hbs. destruct (H2 bs2 Hbs). split; lia.
      * eexists; eexists; split; [reflexivity |].
        intros bs2 [= <-]. apply Hr. reflexivity.
Qed.

Lemma bufio_ReadString_funded (fuel buffered : nat) (acc : list byte)
  (s : State) :
  (stdin_weight (stdin s) < fuel)%nat -> (buffered <= bufio_size)%nat ->
  fst (bufio_ReadString fuel buffered acc s) <> OutOfFuel.
Proof.
  revert buffered acc s.
  induction fuel as [| fuel IH]; intros buffered acc s Hw Hb; [lia |].
  cbn [bufio_ReadString]. unfold bind.
  set (b := if Nat.eqb buffered bufio_size then O else buffered).
  assert (Hb' : (b < bufio_size)%nat).
  { subst b. unfold bufio_size in *.
    destruct (Nat.eqb_spec buffered 4096); lia. }
  destruct (bufio_fill_progress 100 (bufio_size - b) s ltac:(lia))
    as (r & s1 & E & Hr).
  rewrite E. destruct r as [e | bs]; [discriminate |].
  destruct (Hr bs eq_refl) as [Hlen Hlt].
  destruct (find_sub [x0a] bs); [discriminate |].
  apply IH; lia.
Qed.

Lemma funded_regularInput (prompt : gostring) :
  funded (regularInput prompt).
Proof.
  intros s. unfold regularInput, bind, fmt_Print, modify, get.
  cbn [stdin set_stdout].
  pose proof (bufio_ReadString_funded (S (stdin_weight (stdin s))) O []
                (set_stdout (stdout s ++ prompt) s)
                ltac:(cbn [stdin set_stdout]; lia)
                ltac:(unfold bufio_size; lia)) as H.
  destruct (bufio_ReadString (S (stdin_weight (stdin s))) 0 []
              (set_stdout (stdout s ++ prompt) s)) as [r s1].
  cbn [fst] in H. destruct r as [[input err] | |];
    [destruct err; discriminate | discriminate | contradiction].
Qed.

Lemma funded_selectEnvironmentOriginal (w : World) (config : Config) :
  funded (selectEnvironmentOriginal w config).
Proof.
  unfold selectEnvironmentOriginal.
  destruct (Z.of_nat (List.length (Environments config)) =? 0);
    [apply quiet_funded; quiet_tac |].
  destruct (Z.of_nat (List.length (Environments config)) =? 1);
    [apply quiet_funded; quiet_tac |].
  apply funded_bind; [apply quiet_funded; quiet_tac | intros _].
  apply funded_bind; [apply quiet_funded; apply quiet_printOptions | intros _].
  apply funded_bind; [apply funded_regularInput | intros [input err]].
  apply quiet_funded. quiet_tac.
Qed.

Lemma funded_fallbackToNumberedSelection (w : World) (config : Config) :
  funded (fallbackToNumberedSelection w config).
Proof.
  unfold fallbackToNumberedSelection.
  apply funded_bind; [apply quiet_funded; quiet_tac | intros _].
  apply funded_selectEnvironmentOriginal.
Qed.

Lemma selectionLoop_funded (w : World)
  (display : list Environment -> Z -> M unit) (config : Config)
  (fuel : nat) (selectedIndex : Z) (s : State) :
  (forall envs i, quiet (display envs i)) ->
  (stdin_weight (stdin s) < fuel)%nat ->
  fst (selectionLoop w display config fuel selectedIndex s) <> OutOfFuel.
Proof.
  intros Hd. revert selectedIndex s.
  induction fuel as [| fuel IH]; intros selectedIndex s Hw; [lia |].
  cbn [selectionLoop]. unfold bind at 1.
  destruct (Hd (Environments config) selectedIndex s) as [Hf Hs].
  destruct (display (Environments config) selectedIndex s) as [r0 s0].
  cbn [fst snd] in Hf, Hs.
  destruct r0 as [[] | |]; [| discriminate | contradiction].
  unfold bind at 1.
  destruct (os_Stdin_Read_progress 10 s0 ltac:(lia)) as (r & s1 & E & Hle & Hr).
  rewrite E. destruct r as [e | input].
  - apply funded_fallbackToNumberedSelection.
  - destruct (Hr input eq_refl) as [_ Hlt].
    unfold bind, liftP.
    destruct (handleKey (Environments config) selectedIndex input) as [[i | env err] |];
      [| discriminate | discriminate].
    apply IH. rewrite Hs in Hlt. lia.
Qed.

Lemma funded_guardedLoop (w : World)
  (display : list Environment -> Z -> M unit) (config : Config) (st : termState) :
  (forall envs i, quiet (display envs i)) ->
  funded (guardedLoop w display config st).
Proof.
  intros Hd. unfold guardedLoop.
  apply funded_with_defer; [apply funded_with_defer |].
  - intros s. unfold bind, get. apply selectionLoop_funded; [exact Hd | lia].
  - apply quiet_funded. apply quiet_cleanupDisplayState.
  - apply quiet_funded. apply quiet_bind; [apply quiet_ensureRestore | intros ?; quiet_tac].
Qed.

Lemma quiet_term_MakeRaw (w : World) : quiet (term_MakeRaw w).
Proof. unfold term_MakeRaw. quiet_tac. Qed.

Lemma funded_basicInteractiveSelection (w : World) (config : Config)
  (caps : terminalCapabilities) : funded (basicInteractiveSelection w config caps).
Proof.
  unfold basicInteractiveSelection.
  apply funded_bind; [apply quiet_funded; apply quiet_term_MakeRaw | intros [st |]].
  - apply funded_guardedLoop. intros; apply quiet_displayBasicEnvironmentMenu.
  - apply funded_fallbackToNumberedSelection.
Qed.

Lemma funded_fullInteractiveSelection (w : World) (config : Config)
  (caps : terminalCapabilities) : funded (fullInteractiveSelection w config caps).
Proof.
  unfold fullInteractiveSelection.
  apply funded_bind; [apply quiet_funded; apply quiet_term_MakeRaw | intros [st |]].
  - apply funded_guardedLoop. intros; apply quiet_displayEnvironmentMenu.
  - apply funded_basicInteractiveSelection.
Qed.

(** The selection always comes to an end: whatever the terminal and the
    pending input, the budget given to the two reading loops (one more than
    the weight of the pending input) is never exhausted. *)
Theorem selectEnvironmentWithArrows_funded (w : World) (config : Config) :
  funded (selectEnvironmentWithArrows w config).
Proof.
  unfold selectEnvironmentWithArrows.
  destruct (Z.of_nat (List.length (Environments config)) =? 0);
    [apply quiet_funded; quiet_tac |].
  destruct (Z.of_nat (List.length (Environments config)) =? 1);
    [apply quiet_funded; quiet_tac |].
  destruct (negb (IsTerminal (detectTerminalCapabilities w))).
  - destruct (isHeadlessMode w); [| apply funded_fallbackToNumberedSelection].
    destruct (Z.of_nat (List.length (Environments config)) >? 0);
      apply quiet_funded; quiet_tac.
  - destruct (SupportsRaw (detectTerminalCapabilities w)
              && SupportsANSI (detectTerminalCapabilities w)
              && SupportsCursor (detectTerminalCapabilities w));
      [apply funded_fullInteractiveSelection |].
    destruct (SupportsRaw (detectTerminalCapabilities w));
      [apply funded_basicInteractiveSelection
      | apply funded_fallbackToNumberedSelection].
Qed.

(* ================================================================== *)
(** * Part III: further properties of the code                         *)
(* ================================================================== *)

(** ** Slices and searches *)

Lemma slice_to_eq (s : gostring) (k : Z) :
  0 <= k <= len s -> slice_to s k = Some (firstn (Z.to_nat k) s).
Proof.
  intros H. unfold slice_to.
  replace ((0 <=? k) && (k <=? len s)) with true
    by (symmetry; apply andb_true_iff; split; apply Z.leb_le; lia).
  reflexivity.
Qed.

Lemma slice_from_eq (s : gostring) (k : Z) :
  0 <= k <= len s -> slice_from s k = Some (skipn (Z.to_nat k) s).
Proof.
  intros H. unfold slice_from.
  replace ((0 <=? k) && (k <=? len s)) with true
    by (symmetry; apply andb_true_iff; split; apply Z.leb_le; lia).
  reflexivity.
Qed.

Lemma len_firstn (s : gostring) (k : Z) :
  0 <= k <= len s -> len (firstn (Z.to_nat k) s) = k.
Proof. intros H. unfold len in *. rewrite length_firstn. lia. Qed.

Lemma len_skipn (s : gostring) (k : Z) :
  0 <= k <= len s -> len (skipn (Z.to_nat k) s) = len s - k.
Proof. intros H. unfold len in *. rewrite length_skipn. lia. Qed.

Lemma skipn_split (s : gostring) (a b : nat) :
  (a <= b)%nat ->
  skipn a s = firstn (b - a) (skipn a s) ++ skipn b s.
Proof.
  intros H. rewrite <- (firstn_skipn (b - a) (skipn a s)) at 1.
  f_equal. rewrite skipn_skipn. f_equal. lia.
Qed.

Lemma has_prefix_split (p s : gostring) :
  has_prefix p s = true -> s = p ++ skipn (List.length p) s.
Proof.
  revert s. induction p as [| x p IH]; intros [| y s]; simpl;
    try reflexivity; try discriminate.
  intros H. apply andb_true_iff in H. destruct H as [H1 H2].
  apply byte_eqb_eq in H1. subst y. f_equal. apply IH. exact H2.
Qed.

Lemma has_prefix_app (p rest : gostring) : has_prefix p (p ++ rest) = true.
Proof.
  induction p as [| x p IH]; simpl; [reflexivity |].
  apply andb_true_iff. split; [apply byte_eqb_eq; reflexivity | exact IH].
Qed.

Lemma find_sub_split (sep s : gostring) (i : nat) :
  find_sub sep s = Some i ->
  s = firstn i s ++ sep ++ skipn (i + List.length sep) s.
Proof.
  revert i. induction s as [| y s IH]; intros i; simpl.
  - destruct (has_prefix sep []) eqn:E; [| discriminate].
    intros [= <-]. simpl. apply has_prefix_split in E. exact E.
  - destruct (has_prefix sep (y :: s)) eqn:E.
    + intros [= <-]. simpl. apply has_prefix_split in E. exact E.
    + destruct (find_sub sep s) as [j |] eqn:F; simpl; [| discriminate].
      intros [= <-]. simpl. f_equal. apply IH. reflexivity.
Qed.

Lemma find_sub_none_no_occurrence (sep s : gostring) :
  find_sub sep s = None -> forall a b, s <> a ++ sep ++ b.
Proof.
  revert s. intros s H a. revert s H.
  induction a as [| x a IH]; intros s H b E; subst s.
  - simpl in H. destruct (sep ++ b) as [| y t] eqn:S.
    + simpl in H. destruct sep; [discriminate H | discriminate S].
    + simpl in H. rewrite <- S in H. rewrite has_prefix_app in H. discriminate H.
  - simpl in H.
    destruct (has_prefix sep (x :: a ++ sep ++ b)); [discriminate |].
    destruct (find_sub sep (a ++ sep ++ b)) eqn:F; [discriminate |].
    exact (IH _ F b eq_refl).
Qed.

(** [find_sub] returns the FIRST occurrence. *)
Lemma find_sub_min (sep s : gostring) (i : nat) :
  find_sub sep s = Some i ->
  forall a b, s = a ++ sep ++ b -> (i <= List.length a)%nat.
Proof.
  intros F a. revert s i F.
  induction a as [| x a IH]; intros s i F b E; subst s.
  - cbn [app] in F. destruct (sep ++ b) as [| y t] eqn:S.
    + simpl in F. destruct sep; [injection F as <-; lia | discriminate S].
    + simpl in F. rewrite <- S in F. rewrite has_prefix_app in F.
      injection F as <-. lia.
  - simpl in F.
    destruct (has_prefix sep (x :: a ++ sep ++ b)); [injection F as <-; lia |].
    destruct (find_sub sep (a ++ sep ++ b)) as [j |] eqn:G; [| discriminate].
    injection F as <-. specialize (IH _ _ G b eq_refl). cbn [List.length]. lia.
Qed.

Lemma find_sub_first (sep s a b : gostring) :
  s = a ++ sep ++ b ->
  (forall a' b', s = a' ++ sep ++ b' -> (List.length a <= List.length a')%nat) ->
  find_sub sep s = Some (List.length a).
Proof.
  intros E Hmin. destruct (find_sub sep s) as [i |] eqn:F.
  - pose proof (find_sub_min _ _ _ F a b E) as H1.
    pose proof (find_sub_split _ _ _ F) as Hs.
    pose proof (find_sub_bound _ _ _ F) as Hb.
    specialize (Hmin _ _ Hs). rewrite length_firstn in Hmin.
    f_equal. lia.
  - exfalso. exact (find_sub_none_no_occurrence _ _ F a b E).
Qed.

Lemma find_sub_absent (sep s : gostring) :
  (forall a b, s <> a ++ sep ++ b) -> find_sub sep s = None.
Proof.
  intros H. destruct (find_sub sep s) as [i |] eqn:F; [| reflexivity].
  exfalso. exact (H _ _ (find_sub_split _ _ _ F)).
Qed.

Lemma find_sub_byte_miss (c : byte) (l : list byte) :
  ~ In c l -> find_sub [c] l = None.
Proof.
  induction l as [| b t IH]; intros H; [reflexivity |].
  cbn [find_sub has_prefix].
  destruct (byte_eqb c b) eqn:E.
  - apply byte_eqb_eq in E. subst b. exfalso. apply H. left. reflexivity.
  - cbn [andb]. rewrite IH; [reflexivity |]. intros Hin. apply H. right. exact Hin.
Qed.

Lemma find_sub_byte_hit (c : byte) (l t : list byte) :
  ~ In c l -> find_sub [c] (l ++ c :: t) = Some (List.length l).
Proof.
  induction l as [| b l IH]; intros H.
  - cbn [app find_sub has_prefix]. replace (byte_eqb c c) with true
      by (symmetry; apply byte_eqb_eq; reflexivity).
    reflexivity.
  - cbn [app find_sub has_prefix].
    destruct (byte_eqb c b) eqn:E.
    + apply byte_eqb_eq in E. subst b. exfalso. apply H. left. reflexivity.
    + cbn [andb]. rewrite IH; [reflexivity |].
      intros Hin. apply H. right. exact Hin.
Qed.

(** ** Shapes of the truncated fields *)

Lemma smartTruncateName_cases (df : DisplayFormatter) (name : gostring) :
  floored df -> len name <= GoInt.max_int ->
  let nw := nameWidth df in
  let a := (nw - 3) / 2 in
  let b := len name - (nw - 3 - a) in
  smartTruncateName df name
  = if len name <=? nw then Some (name, false)
    else Some (firstn (Z.to_nat a) name ++ dots ++ skipn (Z.to_nat b) name, true).
Proof.
  intros (Hn & _ & _) Hl. cbv zeta. unfold smartTruncateName.
  unfold GoInt.max_int in *.
  destruct (len name <=? nameWidth df) eqn:E; [reflexivity |].
  apply Z.leb_gt in E.
  destruct (nameWidth df <? 8) eqn:E8; [apply Z.ltb_lt in E8; lia |].
  set (nw := nameWidth df) in *.
  assert (Hq : Z.quot (nw - 3) 2 = (nw - 3) / 2)
    by (apply Z.quot_div_nonneg; lia).
  assert (Hb : 0 <= (nw - 3) / 2 <= nw - 3).
  { split; [apply Z.div_pos; lia |]. apply Z.div_le_upper_bound; lia. }
  unwrap. rewrite Hq. unwrap.
  rewrite slice_to_eq by lia. cbn [obind].
  rewrite slice_from_eq by lia. reflexivity.
Qed.

(** X1: for a formatter with floored widths, a name that fits its column is
    returned unchanged and unflagged; a longer name becomes a prefix of the
    name, "..." and a suffix of the name, flagged as truncated, and the result
    is exactly nameWidth bytes long with the two kept parts of lengths
    (nameWidth-3)/2 and nameWidth-3-(nameWidth-3)/2. *)
Theorem smartTruncateName_keeps_both_ends (df : DisplayFormatter) (name : gostring) :
  floored df -> len name <= GoInt.max_int ->
  (len name <= nameWidth df -> smartTruncateName df name = Some (name, false)) /\
  (nameWidth df < len name ->
   exists p mid q,
     name = p ++ mid ++ q /\
     smartTruncateName df name = Some (p ++ dots ++ q, true) /\
     len p = (nameWidth df - 3) / 2 /\
     len q = nameWidth df - 3 - (nameWidth df - 3) / 2 /\
     len (p ++ dots ++ q) = nameWidth df).
Proof.
  intros Hf Hl. pose proof (smartTruncateName_cases df name Hf Hl) as C.
  cbv zeta in C. destruct Hf as (Hn & _ & _). unfold GoInt.max_int in *.
  split; intros H.
  - rewrite C. replace (len name <=? nameWidth df) with true
      by (symmetry; apply Z.leb_le; lia). reflexivity.
  - set (nw := nameWidth df) in *.
    assert (Hb : 0 <= (nw - 3) / 2 <= nw - 3).
    { split; [apply Z.div_pos; lia |]. apply Z.div_le_upper_bound; lia. }
    set (a := (nw - 3) / 2) in *.
    set (b := len name - (nw - 3 - a)) in *.
    exists (firstn (Z.to_nat a) name),
           (firstn (Z.to_nat b - Z.to_nat a) (skipn (Z.to_nat a) name)),
           (skipn (Z.to_nat b) name).
    split.
    { rewrite <- skipn_split by (subst b; lia).
      symmetry. apply firstn_skipn. }
    split.
    { rewrite C. replace (len name <=? nw) with false
        by (symmetry; apply Z.leb_gt; lia). reflexivity. }
    rewrite !len_app, len_dots.
    rewrite len_firstn by lia. rewrite len_skipn by (subst b; lia).
    subst b. repeat split; lia.
Qed.

Lemma smartTruncateName_keeps_both_ends_witness :
  let df := newDisplayFormatter (sample_layout 80 72) in
  let name := str "very-long-production-environment-name" in
  nameWidth df < len name /\
  exists p mid q,
    name = p ++ mid ++ q /\
    smartTruncateName df name = Some (p ++ dots ++ q, true) /\
    len p = (nameWidth df - 3) / 2 /\
    len q = nameWidth df - 3 - (nameWidth df - 3) / 2 /\
    len (p ++ dots ++ q) = nameWidth df.
Proof.
  cbv zeta.
  assert (L : nameWidth (newDisplayFormatter (sample_layout 80 72))
              < len (str "very-long-production-environment-name"))
    by (vm_compute; reflexivity).
  split; [exact L |].
  exact (proj2 (smartTruncateName_keeps_both_ends
                  (newDisplayFormatter (sample_layout 80 72))
                  (str "very-long-production-environment-name")
                  (newDisplayFormatter_floored _)
                  ltac:(vm_compute; discriminate)) L).
Defined.

Lemma smartTruncateURL_cases (df : DisplayFormatter) (url : gostring) :
  floored df -> len url <= GoInt.max_int -> urlWidth df < len url ->
  exists p rest,
    url = p ++ rest /\
    smartTruncateURL df url = Some (p ++ dots, true) /\
    len p <= urlWidth df - 3 /\
    (p = firstn (Z.to_nat (urlWidth df - 3)) url \/
     exists scheme host,
       p = scheme ++ str "://" ++ host).
Proof.
  intros (_ & Hu & _) Hl E. unfold smartTruncateURL.
  unfold GoInt.max_int in *.
  replace (len url <=? urlWidth df) with false by (symmetry; apply Z.leb_gt; lia).
  set (uw := urlWidth df) in *.
  assert (Hw3 : GoInt.sub uw 3 = uw - 3) by (unwrap; reflexivity).
  rewrite Hw3.
  assert (Hfb : exists p rest,
             url = p ++ rest /\
             obind (slice_to url (uw - 3)) (fun p => Some (p ++ dots, true))
             = Some (p ++ dots, true) /\
             len p <= uw - 3 /\
             (p = firstn (Z.to_nat (uw - 3)) url \/
              exists scheme host, p = scheme ++ str "://" ++ host)).
  { exists (firstn (Z.to_nat (uw - 3)) url), (skipn (Z.to_nat (uw - 3)) url).
    split; [symmetry; apply firstn_skipn |].
    rewrite slice_to_eq by lia. cbn [obind].
    split; [reflexivity |]. rewrite len_firstn by lia.
    split; [lia | left; reflexivity]. }
  destruct (strings_Contains url (str "://")); [| exact Hfb].
  unfold strings_SplitN2.
  destruct (find_sub (str "://") url) as [i |] eqn:F; [| exact Hfb].
  pose proof (find_sub_split _ _ _ F) as Hsplit.
  apply find_sub_bound in F. change (List.length (str "://")) with 3%nat in *.
  cbv beta iota.
  set (remaining := skipn (i + 3) url) in *.
  set (scheme := firstn i url) in *.
  assert (Lr : len remaining = len url - Z.of_nat i - 3).
  { subst remaining. unfold len. rewrite length_skipn. lia. }
  assert (Lpr : len (scheme ++ str "://") = Z.of_nat i + 3).
  { subst scheme. rewrite len_app. unfold len at 1. rewrite length_firstn.
    change (len (str "://")) with 3. lia. }
  set (idx := strings_Index remaining (str "/")).
  assert (Hidx : idx = -1 \/ 0 <= idx <= len remaining).
  { subst idx. unfold strings_Index.
    destruct (find_sub (str "/") remaining) as [j |] eqn:G; [| left; reflexivity].
    apply find_sub_bound in G. right. unfold len. lia. }
  set (dend := if idx =? -1 then len remaining else idx).
  assert (Hd : 0 <= dend <= len remaining).
  { subst dend. pose proof (len_nonneg remaining).
    destruct (idx =? -1) eqn:E1; [lia |]. apply Z.eqb_neq in E1. lia. }
  rewrite slice_to_eq by exact Hd. cbn [obind].
  set (host := firstn (Z.to_nat dend) remaining).
  assert (Lh : len host = dend) by (subst host; apply len_firstn; exact Hd).
  assert (Hsum : GoInt.add (len (scheme ++ str "://")) (len host)
                 = len (scheme ++ str "://") + len host).
  { unwrap. reflexivity. }
  rewrite Hsum.
  destruct (len (scheme ++ str "://") + len host <=? uw - 3) eqn:E2; [| exact Hfb].
  apply Z.leb_le in E2.
  exists (scheme ++ str "://" ++ host), (skipn (Z.to_nat dend) remaining).
  split.
  { rewrite Hsplit at 1. rewrite <- !app_assoc. do 2 f_equal.
    subst host. symmetry. apply firstn_skipn. }
  split; [rewrite <- !app_assoc; reflexivity |].
  split.
  { rewrite len_app in *. rewrite len_app. lia. }
  right. exists scheme, host. reflexivity.
Qed.

(** A long URL without "://" is cut to its first urlWidth-3 bytes. *)
Lemma smartTruncateURL_plain (df : DisplayFormatter) (url : gostring) :
  floored df -> len url <= GoInt.max_int -> urlWidth df < len url ->
  (forall a b, url <> a ++ str "://" ++ b) ->
  smartTruncateURL df url
  = Some (firstn (Z.to_nat (urlWidth df - 3)) url ++ dots, true).
Proof.
  intros (_ & Hu & _) Hl E Hno. unfold smartTruncateURL.
  unfold GoInt.max_int in *.
  replace (len url <=? urlWidth df) with false by (symmetry; apply Z.leb_gt; lia).
  set (uw := urlWidth df) in *.
  assert (Hw3 : GoInt.sub uw 3 = uw - 3) by (unwrap; reflexivity).
  rewrite Hw3. unfold strings_Contains. rewrite (find_sub_absent _ _ Hno).
  rewrite slice_to_eq by lia. reflexivity.
Qed.

(** A long URL with "://": the scheme is what precedes the first "://", the
    host is what follows up to the first '/' (or to the end); scheme, "://"
    and host are kept when they fit in urlWidth-3 bytes. *)
Lemma smartTruncateURL_host (df : DisplayFormatter)
  (url scheme host tail : gostring) :
  floored df -> len url <= GoInt.max_int -> urlWidth df < len url ->
  url = scheme ++ str "://" ++ host ++ tail ->
  (forall a b, url = a ++ str "://" ++ b ->
               (List.length scheme <= List.length a)%nat) ->
  ~ In "/"%byte host ->
  (tail = [] \/ exists t, tail = "/"%byte :: t) ->
  smartTruncateURL df url
  = Some ((if len scheme + 3 + len host <=? urlWidth df - 3
           then scheme ++ str "://" ++ host
           else firstn (Z.to_nat (urlWidth df - 3)) url) ++ dots, true).
Proof.
  intros (_ & Hu & _) Hl E Hurl Hfirst Hhost Htail. unfold smartTruncateURL.
  unfold GoInt.max_int in *.
  replace (len url <=? urlWidth df) with false by (symmetry; apply Z.leb_gt; lia).
  set (uw := urlWidth df) in *.
  assert (Hw3 : GoInt.sub uw 3 = uw - 3) by (unwrap; reflexivity).
  rewrite Hw3.
  pose proof (find_sub_first (str "://") url scheme (host ++ tail) Hurl Hfirst) as F.
  unfold strings_Contains, strings_SplitN2. rewrite F.
  change (List.length (str "://")) with 3%nat.
  assert (S1 : firstn (List.length scheme) url = scheme).
  { rewrite Hurl, firstn_app, Nat.sub_diag, firstn_all. cbn [firstn].
    apply app_nil_r. }
  assert (S2 : skipn (List.length scheme + 3) url = host ++ tail).
  { rewrite Hurl, Nat.add_comm, <- skipn_skipn, skipn_app, Nat.sub_diag, skipn_all.
    reflexivity. }
  rewrite S1, S2. cbv beta iota.
  assert (Ltot : len url = len scheme + 3 + len host + len tail).
  { rewrite Hurl, !len_app. change (len (str "://")) with 3. lia. }
  pose proof (len_nonneg scheme) as N1. pose proof (len_nonneg host) as N2.
  pose proof (len_nonneg tail) as N3.
  assert (D : slice_to (host ++ tail)
                (if strings_Index (host ++ tail) (str "/") =? -1
                 then len (host ++ tail)
                 else strings_Index (host ++ tail) (str "/"))
              = Some host).
  { unfold strings_Index. change (str "/") with ["/"%byte].
    destruct Htail as [-> | (t & ->)].
    - rewrite app_nil_r, (find_sub_byte_miss _ _ Hhost).
      change (-1 =? -1) with true. cbv iota.
      rewrite slice_to_eq by lia. unfold len. rewrite Nat2Z.id, firstn_all.
      reflexivity.
    - rewrite (find_sub_byte_hit _ _ t Hhost).
      replace (Z.of_nat (List.length host) =? -1) with false
        by (symmetry; apply Z.eqb_neq; lia).
      rewrite slice_to_eq by (rewrite len_app; unfold len; lia).
      rewrite Nat2Z.id, firstn_app, Nat.sub_diag, firstn_all.
      cbn [firstn]. rewrite app_nil_r. reflexivity. }
  rewrite D. cbn [obind].
  assert (Hsum : GoInt.add (len (scheme ++ str "://")) (len host)
                 = len scheme + 3 + len host).
  { rewrite len_app. change (len (str "://")) with 3. unwrap. reflexivity. }
  rewrite Hsum.
  destruct (len scheme + 3 + len host <=? uw - 3).
  - rewrite <- !app_assoc. reflexivity.
  - rewrite slice_to_eq by lia. reflexivity.
Qed.

(** X2: for a formatter with floored widths, a URL that fits its column is
    returned unchanged and unflagged; a longer URL never panics and becomes a
    prefix of the URL followed by "...", flagged as truncated and at most
    urlWidth bytes long.  Which prefix is determined: for a URL with no "://"
    it is the first urlWidth-3 bytes; for a URL with "://" it is the scheme
    (the bytes before the first "://"), "://" and the host (the bytes that
    follow, up to the first '/' or to the end) when these fit in urlWidth-3
    bytes, and the first urlWidth-3 bytes otherwise. *)
Theorem smartTruncateURL_keeps_prefix (df : DisplayFormatter) (url : gostring) :
  floored df -> len url <= GoInt.max_int ->
  (len url <= urlWidth df -> smartTruncateURL df url = Some (url, false)) /\
  (urlWidth df < len url ->
   (exists p rest,
      url = p ++ rest /\
      smartTruncateURL df url = Some (p ++ dots, true) /\
      len (p ++ dots) <= urlWidth df /\
      (p = firstn (Z.to_nat (urlWidth df - 3)) url \/
       exists scheme host, p = scheme ++ str "://" ++ host)) /\
   ((forall a b, url <> a ++ str "://" ++ b) ->
    smartTruncateURL df url
    = Some (firstn (Z.to_nat (urlWidth df - 3)) url ++ dots, true)) /\
   (forall scheme host tail,
       url = scheme ++ str "://" ++ host ++ tail ->
       (forall a b, url = a ++ str "://" ++ b ->
                    (List.length scheme <= List.length a)%nat) ->
       ~ In "/"%byte host ->
       (tail = [] \/ exists t, tail = "/"%byte :: t) ->
       smartTruncateURL df url
       = Some ((if len scheme + 3 + len host <=? urlWidth df - 3
                then scheme ++ str "://" ++ host
                else firstn (Z.to_nat (urlWidth df - 3)) url) ++ dots, true))).
Proof.
  intros Hf Hl. split; intros H.
  - unfold smartTruncateURL.
    replace (len url <=? urlWidth df) with true by (symmetry; apply Z.leb_le; lia).
    reflexivity.
  - split; [| split].
    + destruct (smartTruncateURL_cases df url Hf Hl H)
        as (p & rest & E1 & E2 & L & S).
      exists p, rest. rewrite len_app, len_dots.
      repeat split; try assumption. lia.
    + apply smartTruncateURL_plain; assumption.
    + intros scheme host tail. apply smartTruncateURL_host; assumption.
Qed.

Lemma smartTruncateURL_keeps_prefix_witness :
  smartTruncateURL (newDisplayFormatter (sample_layout 80 72))
    (str "https://api.example.com/v1/organizations/acme/projects")
  = Some (str "https://api.example.com...", true).
Proof.
  exact (proj2 (proj2 (proj2 (smartTruncateURL_keeps_prefix
                  (newDisplayFormatter (sample_layout 80 72))
                  (str "https://api.example.com/v1/organizations/acme/projects")
                  (newDisplayFormatter_floored _)
                  ltac:(vm_compute; discriminate))
                  ltac:(vm_compute; reflexivity)))
           (str "https") (str "api.example.com")
           (str "/v1/organizations/acme/projects")
           eq_refl
           (find_sub_min (str "://")
              (str "https://api.example.com/v1/organizations/acme/projects")
              5%nat eq_refl)
           ltac:(cbn; intuition discriminate)
           (or_intror (ex_intro _ (str "v1/organizations/acme/projects") eq_refl))).
Defined.

Lemma smartTruncateModel_cases (df : DisplayFormatter) (model : gostring) :
  floored df ->
  smartTruncateModel df model
  = if gostring_eqb model (str "") then Some (str "default", false)
    else if len model <=? modelWidth df then Some (model, false)
    else Some (firstn (Z.to_nat (modelWidth df - 3)) model ++ dots, true).
Proof.
  intros (_ & _ & Hm). unfold smartTruncateModel. unfold GoInt.max_int in *.
  destruct (gostring_eqb model (str "")); [reflexivity |].
  destruct (len model <=? modelWidth df) eqn:E; [reflexivity |].
  apply Z.leb_gt in E. unwrap. rewrite slice_to_eq by lia. reflexivity.
Qed.

(** X3: for a formatter with floored widths, a non-empty model that fits its
    column is returned unchanged and unflagged, and a longer one becomes its
    first modelWidth-3 bytes followed by "...", flagged as truncated and
    exactly modelWidth bytes long. *)
Theorem smartTruncateModel_nonempty_shape (df : DisplayFormatter) (model : gostring) :
  floored df -> model <> [] ->
  (len model <= modelWidth df -> smartTruncateModel df model = Some (model, false)) /\
  (modelWidth df < len model ->
   smartTruncateModel df model
   = Some (firstn (Z.to_nat (modelWidth df - 3)) model ++ dots, true) /\
   len (firstn (Z.to_nat (modelWidth df - 3)) model ++ dots) = modelWidth df).
Proof.
  intros Hf Hne. rewrite (smartTruncateModel_cases df model Hf).
  destruct Hf as (_ & _ & Hm).
  destruct (gostring_eqb model (str "")) eqn:E0;
    [apply gostring_eqb_eq in E0; contradiction |].
  split; intros H.
  - replace (len model <=? modelWidth df) with true
      by (symmetry; apply Z.leb_le; lia). reflexivity.
  - replace (len model <=? modelWidth df) with false
      by (symmetry; apply Z.leb_gt; lia).
    split; [reflexivity |].
    rewrite len_app, len_dots, len_firstn by lia. lia.
Qed.

Lemma smartTruncateModel_nonempty_shape_witness :
  let df := newDisplayFormatter (sample_layout 80 72) in
  let model := str "claude-3-5-sonnet-20241022" in
  smartTruncateModel df model
  = Some (firstn (Z.to_nat (modelWidth df - 3)) model ++ dots, true) /\
  len (firstn (Z.to_nat (modelWidth df - 3)) model ++ dots) = modelWidth df.
Proof.
  cbv zeta.
  exact (proj2 (smartTruncateModel_nonempty_shape
                  (newDisplayFormatter (sample_layout 80 72))
                  (str "claude-3-5-sonnet-20241022")
                  (newDisplayFormatter_floored _)
                  ltac:(discriminate))
               ltac:(vm_compute; reflexivity)).
Defined.

(** X4: for a formatter with floored widths, [formatEnvironmentForDisplay]
    never panics, keeps the environment, and lists as truncated exactly the
    fields longer than their columns, in the order name, url, model; a field
    that is not listed is displayed unchanged, except that the empty model is
    displayed as "default" and never listed. *)
Theorem formatEnvironmentForDisplay_flags (df : DisplayFormatter) (env : Environment) :
  floored df ->
  len (Name env) <= GoInt.max_int -> len (URL env) <= GoInt.max_int ->
  exists d,
    formatEnvironmentForDisplay df env = Some d /\
    displayEnvironment d = env /\
    TruncatedFields d
    = (if nameWidth df <? len (Name env) then [str "name"] else [])
      ++ (if urlWidth df <? len (URL env) then [str "url"] else [])
      ++ (if modelWidth df <? len (Model env) then [str "model"] else []) /\
    (len (Name env) <= nameWidth df -> DisplayName d = Name env) /\
    (len (URL env) <= urlWidth df -> DisplayURL d = URL env) /\
    (Model env <> [] -> len (Model env) <= modelWidth df ->
     DisplayModel d = Model env) /\
    (Model env = [] -> DisplayModel d = str "default").
Proof.
  intros Hf Hln Hlu. unfold formatEnvironmentForDisplay.
  rewrite (smartTruncateName_cases df (Name env) Hf Hln).
  rewrite (smartTruncateModel_cases df (Model env) Hf).
  pose proof Hf as (Hn & Hu & Hm).
  assert (Hurl : exists du fu,
             smartTruncateURL df (URL env) = Some (du, fu) /\
             fu = (urlWidth df <? len (URL env)) /\
             (len (URL env) <= urlWidth df -> du = URL env)).
  { destruct (Z.ltb_spec (urlWidth df) (len (URL env))) as [L | L].
    - destruct (smartTruncateURL_cases df (URL env) Hf Hlu L)
        as (p & rest & _ & E & _).
      exists (p ++ dots), true. split; [exact E |]. split; [reflexivity | lia].
    - exists (URL env), false. split; [| split; [reflexivity | reflexivity]].
      unfold smartTruncateURL.
      replace (len (URL env) <=? urlWidth df) with true
        by (symmetry; apply Z.leb_le; lia).
      reflexivity. }
  destruct Hurl as (du & fu & Eu & Fu & Du). rewrite Eu.
  assert (Hmodel_empty :
            gostring_eqb (Model env) (str "") = true -> len (Model env) = 0).
  { intros E. apply gostring_eqb_eq in E. rewrite E. reflexivity. }
  destruct (Z.leb_spec (len (Name env)) (nameWidth df)) as [Ln | Ln];
    cbn [obind];
    (replace (nameWidth df <? len (Name env))
       with (negb (len (Name env) <=? nameWidth df))
       by (rewrite Z.leb_antisym, negb_involutive; reflexivity));
    (destruct (len (Name env) <=? nameWidth df) eqn:En;
       [apply Z.leb_le in En | apply Z.leb_gt in En]; try lia);
    cbn [negb];
    (destruct (gostring_eqb (Model env) (str "")) eqn:E0;
     [ pose proof (Hmodel_empty eq_refl) as L0;
       replace (modelWidth df <? len (Model env)) with false
         by (symmetry; apply Z.ltb_ge; lia)
     | destruct (Z.leb_spec (len (Model env)) (modelWidth df)) as [Lm | Lm];
       [ replace (modelWidth df <? len (Model env)) with false
           by (symmetry; apply Z.ltb_ge; lia)
       | replace (modelWidth df <? len (Model env)) with true
           by (symmetry; apply Z.ltb_lt; lia) ] ]);
    subst fu; destruct (urlWidth df <? len (URL env)) eqn:Eurl;
    cbn [obind];
    eexists; (split; [reflexivity |]);
    cbn [displayEnvironment TruncatedFields DisplayName DisplayURL DisplayModel];
    repeat split; try reflexivity; try lia;
    try (intros; apply Du; apply Z.ltb_ge in Eurl; lia);
    try (intros; apply Z.ltb_lt in Eurl; lia);
    try (intros Hne; apply gostring_eqb_eq in E0; contradiction);
    try (intros He; rewrite He in E0; discriminate).
Qed.

Lemma formatEnvironmentForDisplay_flags_witness :
  exists d,
    formatEnvironmentForDisplay (newDisplayFormatter (sample_layout 80 72))
      (sample_env "very-long-production-environment-name"
                  "https://api.example.com" "") = Some d /\
    TruncatedFields d = [str "name"] /\
    DisplayURL d = str "https://api.example.com" /\
    DisplayModel d = str "default".
Proof.
  destruct (formatEnvironmentForDisplay_flags
              (newDisplayFormatter (sample_layout 80 72))
              (sample_env "very-long-production-environment-name"
                          "https://api.example.com" "")
              (newDisplayFormatter_floored _)
              ltac:(vm_compute; discriminate) ltac:(vm_compute; discriminate))
    as (d & E & _ & T & _ & U & _ & M).
  exists d. split; [exact E |]. split; [exact T |].
  split; [apply U; vm_compute; discriminate | apply M; reflexivity].
Defined.

(** ** The composed line keeps its prefix *)

Lemma firstn_app_prefix (p r : gostring) (n : nat) :
  (List.length p <= n)%nat ->
  firstn n (p ++ r) = p ++ firstn (n - List.length p) r.
Proof.
  intros H. rewrite firstn_app. f_equal. apply firstn_all2. exact H.
Qed.

Lemma final_check_prefix (prefix rest : gostring) (width : Z) :
  4 <= width <= GoInt.max_int -> len prefix <= width - 3 ->
  exists rest',
    (if len (prefix ++ rest) >? width then
       let maxLen := GoInt.sub width 3 in
       if maxLen >? 0
       then obind (slice_to (prefix ++ rest) maxLen) (fun p => Some (p ++ dots))
       else slice_to (prefix ++ rest) width
     else Some (prefix ++ rest)) = Some (prefix ++ rest').
Proof.
  intros H Hp. unfold GoInt.max_int in H. cbv zeta.
  destruct (len (prefix ++ rest) >? width) eqn:E.
  - apply Z.gtb_lt in E. unwrap.
    replace (width - 3 >? 0) with true by (symmetry; apply Z.gtb_lt; lia).
    rewrite slice_to_eq by lia. cbn [obind].
    rewrite firstn_app_prefix by (unfold len in Hp; lia).
    rewrite <- app_assoc. eexists. reflexivity.
  - eexists. reflexivity.
Qed.

Lemma formatSingleLine_prefix_aux (df : DisplayFormatter)
  (prefix : gostring) (env : Environment) :
  0 <= layoutWidth (layout df) <= GoInt.max_int ->
  len prefix + 6 <= GoInt.max_int ->
  exists rest, formatSingleLine df prefix env = Some (prefix ++ rest).
Proof.
  intros HW Hp. unfold formatSingleLine.
  set (W := layoutWidth (layout df)) in *.
  pose proof (len_nonneg prefix) as Hp0.
  assert (Hm : GoInt.sub (GoInt.sub W (len prefix)) 6 = W - len prefix - 6).
  { unfold GoInt.max_int in *. unwrap. reflexivity. }
  cbv zeta. rewrite Hm.
  destruct (W - len prefix - 6 <? 20) eqn:E20.
  - destruct (len (Name env) >? 10) eqn:E.
    + apply Z.gtb_lt in E. rewrite slice_to_eq by lia. cbn [obind].
      eexists. reflexivity.
    + cbn [obind]. eexists. reflexivity.
  - apply Z.ltb_ge in E20.
    set (mcl := W - len prefix - 6) in *.
    pose proof (floor_choice (scale mcl share_name) 8 (scale_in_range _ _)
                  ltac:(unfold GoInt.max_int; lia)) as Hn.
    pose proof (floor_choice (scale mcl share_url) 10 (scale_in_range _ _)
                  ltac:(unfold GoInt.max_int; lia)) as Hu.
    pose proof (floor_choice
                  (GoInt.sub (GoInt.sub mcl (scale mcl share_name))
                             (scale mcl share_url))
                  6 (wrap_in_range _) ltac:(unfold GoInt.max_int; lia)) as Hmo.
    destruct (clipField_some (Name env) _ Hn) as (name & En & _).
    destruct (clipField_some (URL env) _ Hu) as (url & Eu & _).
    destruct (clipField_some
                (if gostring_eqb (Model env) (str "") then str "default"
                 else Model env) _ Hmo) as (model & Em & _).
    rewrite En. cbn [obind]. rewrite Eu. cbn [obind]. rewrite Em. cbn [obind].
    apply final_check_prefix; lia.
Qed.

(** X5: for every terminal width from 0 up, [formatSingleLine] never panics
    and the line it returns begins with the prefix it was given (the selection
    marker or the number), whatever the profile and however long its fields. *)
Theorem formatSingleLine_keeps_prefix (df : DisplayFormatter)
  (prefix : gostring) (env : Environment) :
  0 <= layoutWidth (layout df) <= GoInt.max_int ->
  len prefix + 6 <= GoInt.max_int ->
  exists rest, formatSingleLine df prefix env = Some (prefix ++ rest).
Proof. apply formatSingleLine_prefix_aux. Qed.

Lemma formatSingleLine_keeps_prefix_witness :
  exists rest,
    formatSingleLine (newDisplayFormatter (sample_layout 10 20)) prefix_arrow
      (sample_env "production" "https://api.example.com" "")
    = Some (prefix_arrow ++ rest).
Proof.
  exact (formatSingleLine_keeps_prefix
           (newDisplayFormatter (sample_layout 10 20)) prefix_arrow
           (sample_env "production" "https://api.example.com" "")
           ltac:(vm_compute; split; discriminate)
           ltac:(vm_compute; discriminate)).
Defined.

(** X6: when at least 20 bytes are left for content (width - len(prefix) - 6
    >= 20) the composed line never panics and is at most as long as the
    terminal is wide, however long the name, URL and model are. *)
Theorem formatSingleLine_full_path_within_width (df : DisplayFormatter)
  (prefix : gostring) (env : Environment) :
  layoutWidth (layout df) <= GoInt.max_int ->
  20 <= layoutWidth (layout df) - len prefix - 6 ->
  exists line,
    formatSingleLine df prefix env = Some line
    /\ len line <= layoutWidth (layout df).
Proof. apply formatSingleLine_full_path_fits. Qed.

Lemma formatSingleLine_full_path_within_width_witness :
  exists line,
    formatSingleLine (newDisplayFormatter (sample_layout 40 32)) prefix_arrow
      (sample_env "very-long-production-environment-name"
                  "https://api.example.com/v1/organizations" "gpt-5-codex-preview")
    = Some line
    /\ len line <= 40.
Proof.
  exact (formatSingleLine_full_path_within_width
           (newDisplayFormatter (sample_layout 40 32)) prefix_arrow
           (sample_env "very-long-production-environment-name"
                       "https://api.example.com/v1/organizations"
                       "gpt-5-codex-preview")
           ltac:(vm_compute; discriminate)
           ltac:(vm_compute; discriminate)).
Defined.

(** ** Menu lines and the selection marker *)

Lemma menuLines_length (f : DisplayFormatter) (ansi : bool) (sel i : Z)
  (envs : list Environment) (lines : list gostring) :
  menuLines f ansi sel i envs = Some lines ->
  List.length lines = List.length envs.
Proof.
  revert i lines. induction envs as [| env rest IH]; intros i lines; cbn [menuLines].
  - intros [= <-]. reflexivity.
  - destruct (formatSingleLine f _ env) as [line |]; cbn [obind]; [| discriminate].
    destruct (menuLines f ansi sel (i + 1) rest) as [ls |] eqn:E; cbn [obind];
      [| discriminate].
    intros [= <-]. cbn [List.length]. f_equal. apply (IH (i + 1)). exact E.
Qed.

Lemma marker_differs (ansi : bool) (r1 r2 : gostring) :
  (if ansi then prefix_arrow else prefix_star) ++ r1 <> prefix_plain ++ r2.
Proof. destruct ansi; discriminate. Qed.

Lemma menuLines_differ (f : DisplayFormatter) (ansi : bool) (sel1 sel2 i : Z)
  (envs : list Environment) (l1 l2 : list gostring) :
  0 <= layoutWidth (layout f) <= GoInt.max_int ->
  menuLines f ansi sel1 i envs = Some l1 ->
  menuLines f ansi sel2 i envs = Some l2 ->
  i <= sel1 < i + Z.of_nat (List.length envs) ->
  sel1 <> sel2 ->
  l1 <> l2.
Proof.
  intros HW. revert i l1 l2.
  induction envs as [| env rest IH]; intros i l1 l2; cbn [menuLines List.length].
  - intros _ _ H. lia.
  - intros E1 E2 Hr Hne.
    destruct (i =? sel1) eqn:S1.
    + apply Z.eqb_eq in S1. subst i.
      replace (sel1 =? sel2) with false in E2 by (symmetry; apply Z.eqb_neq; lia).
      destruct (formatSingleLine_prefix_aux f
                  (if ansi then prefix_arrow else prefix_star) env HW
                  ltac:(destruct ansi; vm_compute; discriminate)) as (r1 & F1).
      destruct (formatSingleLine_prefix_aux f prefix_plain env HW
                  ltac:(vm_compute; discriminate)) as (r2 & F2).
      rewrite F1 in E1. rewrite F2 in E2. cbn [obind] in E1, E2.
      destruct (menuLines f ansi sel1 (sel1 + 1) rest); [| discriminate].
      destruct (menuLines f ansi sel2 (sel1 + 1) rest); [| discriminate].
      cbn [obind] in E1, E2. injection E1 as <-. injection E2 as <-.
      intros [= H _]. exact (marker_differs ansi r1 r2 H).
    + apply Z.eqb_neq in S1.
      destruct (formatSingleLine f prefix_plain env) as [a |];
        [| discriminate].
      destruct (formatSingleLine f _ env) as [b |]; [| discriminate].
      cbn [obind] in E1, E2.
      destruct (menuLines f ansi sel1 (i + 1) rest) as [t1 |] eqn:T1; [| discriminate].
      destruct (menuLines f ansi sel2 (i + 1) rest) as [t2 |] eqn:T2; [| discriminate].
      cbn [obind] in E1, E2. injection E1 as <-. injection E2 as <-.
      intros [= _ H]. revert H.
      apply (IH (i + 1) t1 t2 T1 T2); lia.
Qed.

Lemma menuLines_total (f : DisplayFormatter) (ansi : bool) (sel i : Z)
  (envs : list Environment) :
  0 <= layoutWidth (layout f) <= GoInt.max_int ->
  exists lines, menuLines f ansi sel i envs = Some lines.
Proof.
  intros HW. revert i. induction envs as [| env rest IH]; intros i; cbn [menuLines].
  - eexists. reflexivity.
  - destruct (formatSingleLine_prefix_aux f
                (if i =? sel then if ansi then prefix_arrow else prefix_star
                 else prefix_plain) env HW
                ltac:(destruct (i =? sel); [destruct ansi |]; vm_compute; discriminate))
      as (r & F).
    rewrite F. cbn [obind]. destruct (IH (i + 1)) as (ls & E). rewrite E.
    cbn [obind]. eexists. reflexivity.
Qed.

Lemma UpdateContent_changed_iff (ds : DisplayState) (lines : list gostring)
  (selection : Z) :
  initialized ds = true ->
  (contentChanged (UpdateContent ds lines selection) = true
   <-> lines <> currentLines ds).
Proof.
  intros Hi. unfold UpdateContent. rewrite Hi. cbn [negb contentChanged].
  unfold len_lines_eqb.
  destruct (Nat.eqb_spec (List.length lines) (List.length (currentLines ds)))
    as [E | N]; cbn [negb].
  - pose proof (linesDiffer_false_iff lines (currentLines ds) E) as D.
    destruct (linesDiffer lines (currentLines ds)).
    + split; [| reflexivity]. intros _ Heq. apply D in Heq. discriminate.
    + split; [discriminate |]. intros Hne. exfalso. apply Hne. apply D. reflexivity.
  - split; [| reflexivity]. intros _ Heq. apply N. rewrite Heq. reflexivity.
Qed.

Lemma UpdateContent_selection_flag (ds : DisplayState) (lines : list gostring)
  (selection : Z) :
  initialized ds = true ->
  selectionChanged (UpdateContent ds lines selection)
  = negb (selection =? currentSelection ds)
    && negb (contentChanged (UpdateContent ds lines selection)).
Proof.
  intros Hi. unfold UpdateContent. rewrite Hi. reflexivity.
Qed.

(** X7: the menu lines always mark the selection, so moving the selection
    from one profile to another changes the lines: for every terminal width
    from 0 up the two menus are built without panic and differ, and an update
    from the first to the second reports a content change (full repaint) and
    never a selection-only change. *)
Theorem moving_selection_changes_content (f : DisplayFormatter) (ansi : bool)
  (envs : list Environment) (sel1 sel2 : Z) (header : list gostring)
  (ds : DisplayState) :
  0 <= layoutWidth (layout f) <= GoInt.max_int ->
  0 <= sel1 < Z.of_nat (List.length envs) ->
  sel1 <> sel2 ->
  initialized ds = true ->
  exists l1 l2,
    menuLines f ansi sel1 0 envs = Some l1 /\
    menuLines f ansi sel2 0 envs = Some l2 /\
    l1 <> l2 /\
    (currentLines ds = header ++ l1 ->
     contentChanged (UpdateContent ds (header ++ l2) sel2) = true /\
     selectionChanged (UpdateContent ds (header ++ l2) sel2) = false).
Proof.
  intros HW Hr Hne Hi.
  destruct (menuLines_total f ansi sel1 0 envs HW) as (l1 & E1).
  destruct (menuLines_total f ansi sel2 0 envs HW) as (l2 & E2).
  exists l1, l2. split; [exact E1 |]. split; [exact E2 |].
  assert (D : l1 <> l2)
    by (apply (menuLines_differ f ansi sel1 sel2 0 envs l1 l2 HW E1 E2); lia).
  split; [exact D |]. intros Hc.
  assert (C : contentChanged (UpdateContent ds (header ++ l2) sel2) = true).
  { apply UpdateContent_changed_iff; [exact Hi |].
    rewrite Hc. intros H. apply app_inv_head in H. apply D. symmetry. exact H. }
  split; [exact C |].
  rewrite UpdateContent_selection_flag by exact Hi. rewrite C.
  apply andb_false_r.
Qed.

Lemma moving_selection_changes_content_witness :
  exists l1 l2,
    menuLines (newDisplayFormatter (sample_layout 80 72)) true 0 0
      (Environments sample_config) = Some l1 /\
    menuLines (newDisplayFormatter (sample_layout 80 72)) true 1 0
      (Environments sample_config) = Some l2 /\
    l1 <> l2 /\
    (currentLines sample_display_state = [] ++ l1 ->
     contentChanged (UpdateContent sample_display_state ([] ++ l2) 1) = true /\
     selectionChanged (UpdateContent sample_display_state ([] ++ l2) 1) = false).
Proof.
  exact (moving_selection_changes_content
           (newDisplayFormatter (sample_layout 80 72)) true
           (Environments sample_config) 0 1 [] sample_display_state
           ltac:(vm_compute; split; discriminate)
           ltac:(vm_compute; split; [discriminate | reflexivity])
           ltac:(discriminate) eq_refl).
Defined.

(** X8: showing the same lines with the same selection a second time changes
    nothing that needs painting: after any update of an initialized state, a
    repeated update with the same arguments clears both flags; and an update
    with the same lines but another selection sets selectionChanged alone and
    records the previous selection in lastSelection. *)
Theorem UpdateContent_repeat (ds : DisplayState) (lines : list gostring)
  (selection selection' : Z) :
  initialized ds = true ->
  let ds1 := UpdateContent ds lines selection in
  let ds2 := UpdateContent ds1 lines selection in
  let ds3 := UpdateContent ds1 lines selection' in
  contentChanged ds2 = false /\ selectionChanged ds2 = false /\
  currentLines ds2 = lines /\ currentSelection ds2 = selection /\
  contentChanged ds3 = false /\
  selectionChanged ds3 = negb (selection' =? selection) /\
  lastSelection ds3 = selection.
Proof.
  intros Hi. cbv zeta.
  set (ds1 := UpdateContent ds lines selection).
  assert (I1 : initialized ds1 = true)
    by (subst ds1; unfold UpdateContent; rewrite Hi; reflexivity).
  assert (L1 : currentLines ds1 = lines)
    by (subst ds1; unfold UpdateContent; rewrite Hi; reflexivity).
  assert (S1 : currentSelection ds1 = selection)
    by (subst ds1; unfold UpdateContent; rewrite Hi; reflexivity).
  assert (C : forall sel, contentChanged (UpdateContent ds1 lines sel) = false).
  { intros sel.
    destruct (contentChanged (UpdateContent ds1 lines sel)) eqn:E; [| reflexivity].
    apply (UpdateContent_changed_iff ds1 lines sel I1) in E.
    exfalso. apply E. symmetry. exact L1. }
  repeat split.
  - apply C.
  - rewrite UpdateContent_selection_flag by exact I1.
    rewrite S1, Z.eqb_refl. reflexivity.
  - unfold UpdateContent. rewrite I1. reflexivity.
  - unfold UpdateContent. rewrite I1. reflexivity.
  - apply C.
  - rewrite UpdateContent_selection_flag by exact I1.
    rewrite C, S1. apply andb_true_r.
  - unfold UpdateContent. rewrite I1. cbn [negb lastSelection]. exact S1.
Qed.

Lemma UpdateContent_repeat_witness :
  let ds1 := UpdateContent sample_display_state [str "* alpha"; str "  beta"] 0 in
  let ds2 := UpdateContent ds1 [str "* alpha"; str "  beta"] 0 in
  let ds3 := UpdateContent ds1 [str "* alpha"; str "  beta"] 1 in
  contentChanged ds2 = false /\ selectionChanged ds2 = false /\
  currentLines ds2 = [str "* alpha"; str "  beta"] /\ currentSelection ds2 = 0 /\
  contentChanged ds3 = false /\
  selectionChanged ds3 = negb (1 =? 0) /\
  lastSelection ds3 = 0.
Proof.
  exact (UpdateContent_repeat sample_display_state
           [str "* alpha"; str "  beta"] 0 1 eq_refl).
Defined.

(** X9: after [ClearDisplay] the next menu is always painted in full: on an
    initialized state, clearing and then updating with at least one line
    reports a content change and no selection-only change; clearing twice is
    the same as clearing once, and the terminal dimensions survive. *)
Theorem ClearDisplay_forces_repaint (ds : DisplayState) (lines : list gostring)
  (selection : Z) :
  initialized ds = true -> lines <> [] ->
  let ds' := UpdateContent (ClearDisplay ds) lines selection in
  contentChanged ds' = true /\ selectionChanged ds' = false /\
  currentLines ds' = lines /\ lastSelection ds' = 0 /\
  ClearDisplay (ClearDisplay ds) = ClearDisplay ds /\
  terminalWidth (ClearDisplay ds) = terminalWidth ds /\
  terminalHeight (ClearDisplay ds) = terminalHeight ds.
Proof.
  intros Hi Hne. cbv zeta.
  assert (Ic : initialized (ClearDisplay ds) = true)
    by (unfold ClearDisplay; rewrite Hi; reflexivity).
  assert (Lc : currentLines (ClearDisplay ds) = [])
    by (unfold ClearDisplay; rewrite Hi; reflexivity).
  assert (C : contentChanged (UpdateContent (ClearDisplay ds) lines selection) = true).
  { apply UpdateContent_changed_iff; [exact Ic |]. rewrite Lc. exact Hne. }
  split; [exact C |]. split.
  { rewrite UpdateContent_selection_flag by exact Ic. rewrite C. apply andb_false_r. }
  repeat split; unfold UpdateContent, ClearDisplay; rewrite ?Hi;
    cbn [negb initialized currentLines lastSelection currentSelection
         terminalWidth terminalHeight];
    rewrite ?Hi; reflexivity.
Qed.

Lemma ClearDisplay_forces_repaint_witness :
  let ds' := UpdateContent (ClearDisplay sample_display_state) [str "* alpha"] 0 in
  contentChanged ds' = true /\ selectionChanged ds' = false /\
  currentLines ds' = [str "* alpha"] /\ lastSelection ds' = 0 /\
  ClearDisplay (ClearDisplay sample_display_state) = ClearDisplay sample_display_state /\
  terminalWidth (ClearDisplay sample_display_state) = terminalWidth sample_display_state /\
  terminalHeight (ClearDisplay sample_display_state)
  = terminalHeight sample_display_state.
Proof.
  exact (ClearDisplay_forces_repaint sample_display_state [str "* alpha"] 0
           eq_refl ltac:(discriminate)).
Defined.

(** ** Overwriting a terminal line *)

Lemma strings_Repeat_byte (b : byte) (n : Z) :
  0 <= n -> strings_Repeat [b] n = Some (repeat b (Z.to_nat n)).
Proof.
  intros H. unfold strings_Repeat.
  replace (n <? 0) with false by (symmetry; apply Z.ltb_ge; lia).
  f_equal. induction (Z.to_nat n) as [| k IH]; simpl; [reflexivity |].
  f_equal. exact IH.
Qed.

Lemma len_repeat (b : byte) (n : Z) : 0 <= n -> len (repeat b (Z.to_nat n)) = n.
Proof. intros H. unfold len. rewrite repeat_length. lia. Qed.

Lemma OverwriteLine_wide (tp : TextPositioner) (content : gostring) :
  3 <= tpWidth tp <= GoInt.max_int ->
  exists body,
    OverwriteLine tp content = Some ([x0d] ++ body ++ [x0d]) /\
    len body = tpWidth tp /\
    (len content <= tpWidth tp ->
     body = content ++ repeat " "%byte (Z.to_nat (tpWidth tp - len content))) /\
    (tpWidth tp < len content ->
     body = firstn (Z.to_nat (tpWidth tp - 3)) content ++ dots).
Proof.
  intros HW. unfold OverwriteLine, MoveToStartOfLine. unfold GoInt.max_int in HW.
  set (wd := tpWidth tp) in *. pose proof (len_nonneg content) as H0.
  destruct (len content >? wd) eqn:E.
  - apply Z.gtb_lt in E. unwrap. rewrite slice_to_eq by lia. cbn [obind].
    assert (L : len (firstn (Z.to_nat (wd - 3)) content ++ dots) = wd).
    { rewrite len_app, len_dots, len_firstn by lia. lia. }
    rewrite L. unwrap. replace (wd - wd) with 0 by lia.
    change (str " ") with [" "%byte]. rewrite strings_Repeat_byte by lia.
    cbn [obind Z.to_nat repeat]. rewrite app_nil_r.
    eexists. split; [reflexivity |]. split; [exact L |].
    split; [lia | reflexivity].
  - assert (Hle : len content <= wd).
    { destruct (Z.gtb_spec (len content) wd); [discriminate | assumption]. }
    cbn [obind]. unwrap.
    change (str " ") with [" "%byte]. rewrite strings_Repeat_byte by lia.
    cbn [obind]. eexists. split; [reflexivity |].
    split; [rewrite len_app, len_repeat by lia; lia |].
    split; [reflexivity | lia].
Qed.

(** X10: in a terminal at least 3 columns wide, [OverwriteLine] never panics
    and produces a carriage return, exactly width bytes, and a carriage
    return: content that fits is followed by spaces up to the width, longer
    content is cut to its first width-3 bytes and "...". *)
Theorem OverwriteLine_fills_width (tp : TextPositioner) (content : gostring) :
  3 <= tpWidth tp <= GoInt.max_int ->
  exists body,
    OverwriteLine tp content = Some ([x0d] ++ body ++ [x0d]) /\
    len body = tpWidth tp /\
    (len content <= tpWidth tp ->
     body = content ++ repeat " "%byte (Z.to_nat (tpWidth tp - len content))) /\
    (tpWidth tp < len content ->
     body = firstn (Z.to_nat (tpWidth tp - 3)) content ++ dots).
Proof. apply OverwriteLine_wide. Qed.

Lemma OverwriteLine_fills_width_witness :
  exists body,
    OverwriteLine (newTextPositioner 12) (str "Select environment:")
    = Some ([x0d] ++ body ++ [x0d]) /\
    len body = 12 /\
    body = firstn (Z.to_nat (12 - 3)) (str "Select environment:") ++ dots.
Proof.
  destruct (OverwriteLine_fills_width (newTextPositioner 12)
              (str "Select environment:")
              ltac:(vm_compute; split; discriminate))
    as (body & E & L & _ & T).
  exists body. split; [exact E |]. split; [exact L |].
  apply T. vm_compute. reflexivity.
Defined.

Lemma OverwriteLine_narrow (tp : TextPositioner) (content : gostring) :
  0 <= tpWidth tp < 3 -> tpWidth tp < len content ->
  OverwriteLine tp content = None.
Proof.
  intros HW Hl. unfold OverwriteLine.
  replace (len content >? tpWidth tp) with true by (symmetry; apply Z.gtb_lt; lia).
  unwrap. unfold slice_to.
  replace (0 <=? tpWidth tp - 3) with false by (symmetry; apply Z.leb_gt; lia).
  reflexivity.
Qed.

(** X11: in a terminal reported as 0, 1 or 2 columns wide, [OverwriteLine]
    panics (slice bound width-3 below zero) on every content longer than the
    width, instead of cutting it. *)
Theorem OverwriteLine_narrow_panics (tp : TextPositioner) (content : gostring) :
  0 <= tpWidth tp < 3 -> tpWidth tp < len content ->
  OverwriteLine tp content = None.
Proof. apply OverwriteLine_narrow. Qed.

Lemma OverwriteLine_narrow_panics_witness :
  OverwriteLine (newTextPositioner 2) (str "Select environment:") = None.
Proof.
  exact (OverwriteLine_narrow_panics (newTextPositioner 2)
           (str "Select environment:")
           ltac:(vm_compute; split; [discriminate | reflexivity])
           ltac:(vm_compute; reflexivity)).
Defined.

(** ** Masking an API key *)

(** X12: [maskAPIKey] never panics and keeps the length of the key; a key of
    at most 8 bytes is replaced by asterisks entirely, and of a longer key only
    the first four and the last four bytes are shown, every byte between them
    being an asterisk. *)
Theorem maskAPIKey_hides_middle (apiKey : gostring) :
  len apiKey <= GoInt.max_int ->
  exists masked,
    maskAPIKey apiKey = Some masked /\
    len masked = len apiKey /\
    (len apiKey <= 8 -> masked = repeat "*"%byte (List.length apiKey)) /\
    (8 < len apiKey ->
     masked = firstn 4 apiKey
              ++ repeat "*"%byte (List.length apiKey - 8)
              ++ skipn (List.length apiKey - 4) apiKey).
Proof.
  intros Hl. unfold maskAPIKey. unfold GoInt.max_int in Hl.
  pose proof (len_nonneg apiKey) as H0.
  change (str "*") with ["*"%byte].
  destruct (len apiKey <=? 8) eqn:E.
  - apply Z.leb_le in E. rewrite strings_Repeat_byte by lia.
    eexists. split; [reflexivity |].
    split; [rewrite len_repeat by lia; reflexivity |].
    split; [| lia]. intros _. unfold len. rewrite Nat2Z.id. reflexivity.
  - apply Z.leb_gt in E. rewrite slice_to_eq by lia. cbn [obind]. unwrap.
    rewrite strings_Repeat_byte by lia. cbn [obind].
    rewrite slice_from_eq by lia.
    eexists. split; [reflexivity |]. split.
    { rewrite !len_app, len_repeat by lia.
      rewrite (len_firstn apiKey 4) by lia. rewrite len_skipn by lia. lia. }
    split; [lia |]. intros _.
    replace (Z.to_nat 4) with 4%nat by reflexivity.
    replace (Z.to_nat (len apiKey - 8)) with (List.length apiKey - 8)%nat
      by (unfold len; lia).
    replace (Z.to_nat (len apiKey - 4)) with (List.length apiKey - 4)%nat
      by (unfold len; lia).
    reflexivity.
Qed.

Lemma maskAPIKey_hides_middle_witness :
  exists masked,
    maskAPIKey (str "sk-proj-0123456789") = Some masked /\
    len masked = len (str "sk-proj-0123456789") /\
    masked = firstn 4 (str "sk-proj-0123456789")
             ++ repeat "*"%byte (List.length (str "sk-proj-0123456789") - 8)
             ++ skipn (List.length (str "sk-proj-0123456789") - 4)
                      (str "sk-proj-0123456789").
Proof.
  destruct (maskAPIKey_hides_middle (str "sk-proj-0123456789")
              ltac:(vm_compute; discriminate)) as (m & E & L & _ & T).
  exists m. split; [exact E |]. split; [exact L |].
  apply T. vm_compute. reflexivity.
Defined.

(** ** Names: environment variables, profiles, models *)

Lemma envVarNameRest_forall (s : list byte) :
  envVarNameRest s = true <->
  Forall (fun c => is_upper c || is_lower c || is_digit c
                   || byte_eqb c "_"%byte = true) s.
Proof.
  induction s as [| c s IH]; simpl.
  - split; [constructor | reflexivity].
  - destruct (is_upper c || is_lower c || is_digit c || byte_eqb c "_"%byte) eqn:E;
      cbn [negb].
    + rewrite IH. split; [intros H; constructor; assumption |].
      intros H. inversion H. assumption.
    + split; [discriminate |]. intros H. inversion H. congruence.
Qed.

(** X13: [isValidEnvVarName] accepts exactly the non-empty names whose first
    byte is an ASCII letter or '_' and whose other bytes are ASCII letters,
    digits or '_'; in particular an accepted name contains no '=' and no
    NUL byte, so it cannot split or end a NAME=value entry. *)
Theorem isValidEnvVarName_accepts (name : gostring) :
  (isValidEnvVarName name = true <->
   exists first rest,
     name = first :: rest /\
     is_upper first || is_lower first || byte_eqb first "_"%byte = true /\
     Forall (fun c => is_upper c || is_lower c || is_digit c
                      || byte_eqb c "_"%byte = true) rest) /\
  (isValidEnvVarName name = true ->
   ~ In "="%byte name /\ ~ In x00 name).
Proof.
  assert (Iff : isValidEnvVarName name = true <->
                exists first rest,
                  name = first :: rest /\
                  is_upper first || is_lower first || byte_eqb first "_"%byte = true /\
                  Forall (fun c => is_upper c || is_lower c || is_digit c
                                   || byte_eqb c "_"%byte = true) rest).
  { unfold isValidEnvVarName. destruct name as [| first rest].
    - split; [discriminate |]. intros (f & r & E & _). discriminate E.
    - destruct (is_upper first || is_lower first || byte_eqb first "_"%byte) eqn:E;
        cbn [negb].
      + rewrite envVarNameRest_forall. split.
        * intros H. exists first, rest. auto.
        * intros (f & r & [= <- <-] & _ & H). exact H.
      + split; [discriminate |].
        intros (f & r & [= <- <-] & H & _). congruence. }
  split; [exact Iff |].
  intros H. apply Iff in H. destruct H as (first & rest & -> & Hf & Hr).
  assert (Ok : forall c, In c (first :: rest) ->
                 is_upper c || is_lower c || is_digit c || byte_eqb c "_"%byte = true).
  { intros c [<- | Hin].
    - destruct (is_upper first), (is_lower first), (byte_eqb first "_"%byte);
        try discriminate; rewrite ?orb_true_r; reflexivity.
    - rewrite Forall_forall in Hr. apply Hr. exact Hin. }
  split; intros Hin; apply Ok in Hin; discriminate Hin.
Qed.

(** X14: [validateName] accepts exactly the names of 1 to 50 bytes made of
    ASCII letters, digits, '_' and '-'; every other name is rejected with an
    error. *)
Theorem validateName_accepts (name : gostring) :
  validateName name = None <->
  1 <= len name <= 50 /\ Forall (fun c => name_char c = true) name.
Proof.
  unfold validateName.
  destruct (gostring_eqb name (str "")) eqn:E0.
  - apply gostring_eqb_eq in E0. subst name.
    split; [discriminate |]. intros [H _]. vm_compute in H. destruct H as [H _].
    exfalso. apply H. reflexivity.
  - assert (Hne : name <> []).
    { intros ->. discriminate E0. }
    assert (Hpos : 1 <= len name).
    { destruct name; [contradiction |]. unfold len. simpl List.length. lia. }
    destruct (len name >? 50) eqn:E50.
    + apply Z.gtb_lt in E50. split; [discriminate | lia].
    + assert (len name <= 50).
      { destruct (Z.gtb_spec (len name) 50); [discriminate | assumption]. }
      unfold matches_name_pattern. destruct name as [| c r]; [contradiction |].
      destruct (forallb name_char (c :: r)) eqn:F; cbn [negb].
      * rewrite forallb_forall in F. rewrite Forall_forall.
        split; [intros _; split; [lia | exact F] | reflexivity].
      * split; [discriminate |]. intros [_ Hall].
        rewrite Forall_forall in Hall.
        assert (forallb name_char (c :: r) = true)
          by (apply forallb_forall; exact Hall).
        congruence.
Qed.

Lemma strings_Contains_false (s sep : gostring) :
  strings_Contains s sep = false -> forall a b, s <> a ++ sep ++ b.
Proof.
  unfold strings_Contains. destruct (find_sub sep s) eqn:F; [discriminate |].
  intros _. apply find_sub_none_no_occurrence. exact F.
Qed.

(** X15: a non-empty model that [validateModel] accepts is at most 200 bytes
    long, has no control byte (below 32, or 127), and contains none of the
    sequences "$(", "`", ";", "../" and backslash-x anywhere; the empty model is
    accepted. *)
Theorem validateModel_accepted_is_safe (model : gostring) :
  validateModel (str "") = None /\
  (validateModel model = None -> model <> [] ->
   len model <= 200 /\
   Forall (fun c => 32 <= rune_of_byte c /\ rune_of_byte c <> 127) model /\
   forall a b,
     model <> a ++ str "$(" ++ b /\ model <> a ++ str "`" ++ b /\
     model <> a ++ str ";" ++ b /\ model <> a ++ str "../" ++ b /\
     model <> a ++ backslash_x ++ b).
Proof.
  split; [reflexivity |]. unfold validateModel. intros H Hne.
  destruct (gostring_eqb model (str "")) eqn:E0;
    [apply gostring_eqb_eq in E0; contradiction |].
  destruct (strings_Contains model (str "$(")) eqn:C1; [discriminate |].
  destruct (strings_Contains model (str "`")) eqn:C2; [discriminate |].
  destruct (strings_Contains model (str ";")) eqn:C3; [discriminate |].
  destruct (strings_Contains model (str "../")) eqn:C4; [discriminate |].
  destruct (strings_Contains model backslash_x) eqn:C5; [discriminate |].
  cbn [orb] in H.
  destruct (existsb is_control model) eqn:Ec; [discriminate |].
  destruct (len model >? 200) eqn:El; [discriminate |].
  split.
  { destruct (Z.gtb_spec (len model) 200); [discriminate | assumption]. }
  split.
  { rewrite Forall_forall. intros c Hin.
    destruct (is_control c) eqn:Ic.
    - assert (existsb is_control model = true)
        by (apply existsb_exists; exists c; auto).
      congruence.
    - unfold is_control in Ic. apply orb_false_iff in Ic. destruct Ic as [I1 I2].
      apply Z.ltb_ge in I1. apply Z.eqb_neq in I2. auto. }
  intros a b. repeat split; apply strings_Contains_false; assumption.
Qed.

Lemma validateModel_accepted_is_safe_witness :
  len (str "gpt-5-codex") <= 200 /\
  Forall (fun c => 32 <= rune_of_byte c /\ rune_of_byte c <> 127) (str "gpt-5-codex") /\
  forall a b,
    str "gpt-5-codex" <> a ++ str "$(" ++ b /\ str "gpt-5-codex" <> a ++ str "`" ++ b /\
    str "gpt-5-codex" <> a ++ str ";" ++ b /\ str "gpt-5-codex" <> a ++ str "../" ++ b /\
    str "gpt-5-codex" <> a ++ backslash_x ++ b.
Proof.
  exact (proj2 (validateModel_accepted_is_safe (str "gpt-5-codex"))
               eq_refl ltac:(discriminate)).
Defined.

(** ** Looking up, adding and removing profiles *)

Lemma findFrom_found (envs : list Environment) (name : gostring) (i j : Z) :
  findFrom envs name i = (j, true) ->
  exists before env after,
    envs = before ++ env :: after /\
    j = i + Z.of_nat (List.length before) /\
    Name env = name /\
    Forall (fun e => Name e <> name) before.
Proof.
  revert i. induction envs as [| e rest IH]; intros i; cbn [findFrom].
  - discriminate.
  - destruct (gostring_eqb (Name e) name) eqn:E.
    + intros [= <-]. apply gostring_eqb_eq in E.
      exists [], e, rest. cbn [List.length app]. repeat split; [lia | exact E | constructor].
    + intros H. destruct (IH (i + 1) H) as (before & env & after & -> & -> & Hn & Hb).
      exists (e :: before), env, after. cbn [List.length app].
      repeat split; [lia | exact Hn |].
      constructor; [| exact Hb].
      intros Heq. rewrite Heq, gostring_eqb_refl in E. discriminate.
Qed.

Lemma findFrom_missing (envs : list Environment) (name : gostring) (i j : Z) :
  findFrom envs name i = (j, false) ->
  j = -1 /\ Forall (fun e => Name e <> name) envs.
Proof.
  revert i. induction envs as [| e rest IH]; intros i; cbn [findFrom].
  - intros [= <-]. split; [reflexivity | constructor].
  - destruct (gostring_eqb (Name e) name) eqn:E; [discriminate |].
    intros H. destruct (IH (i + 1) H) as (-> & Hr).
    split; [reflexivity |]. constructor; [| exact Hr].
    intros Heq. rewrite Heq, gostring_eqb_refl in E. discriminate.
Qed.

Lemma findFrom_app_hit (before after : list Environment) (env : Environment)
  (name : gostring) (i : Z) :
  Forall (fun e => Name e <> name) before -> Name env = name ->
  findFrom (before ++ env :: after) name i
  = (i + Z.of_nat (List.length before), true).
Proof.
  intros Hb Hn. revert i. induction before as [| e before IH]; intros i;
    cbn [app findFrom List.length].
  - rewrite Hn, gostring_eqb_refl. f_equal. lia.
  - apply Forall_cons_iff in Hb. destruct Hb as [He Hb'].
    destruct (gostring_eqb (Name e) name) eqn:E;
      [apply gostring_eqb_eq in E; contradiction |].
    rewrite (IH Hb' (i + 1)). f_equal. lia.
Qed.

Lemma findFrom_all_miss (envs : list Environment) (name : gostring) (i : Z) :
  Forall (fun e => Name e <> name) envs -> findFrom envs name i = (-1, false).
Proof.
  intros H. revert i. induction envs as [| e rest IH]; intros i; cbn [findFrom].
  - reflexivity.
  - apply Forall_cons_iff in H. destruct H as [He Hr].
    destruct (gostring_eqb (Name e) name) eqn:E;
      [apply gostring_eqb_eq in E; contradiction |].
    apply IH. exact Hr.
Qed.

(** X16: [findEnvironmentByName] returns the index of the FIRST profile with
    the given name, with the flag true, when there is one, and (-1, false)
    exactly when no profile has that name. *)
Theorem findEnvironmentByName_first_match (config : Config) (name : gostring) :
  let '(index, found) := findEnvironmentByName config name in
  (found = true ->
   exists before env after,
     Environments config = before ++ env :: after /\
     index = Z.of_nat (List.length before) /\
     Name env = name /\
     Forall (fun e => Name e <> name) before) /\
  (found = false ->
   index = -1 /\ Forall (fun e => Name e <> name) (Environments config)).
Proof.
  unfold findEnvironmentByName.
  destruct (findFrom (Environments config) name 0) as [index found] eqn:E.
  split; intros ->.
  - destruct (findFrom_found _ _ _ _ E) as (b & e & a & H1 & H2 & H3 & H4).
    exists b, e, a. repeat split; try assumption; lia.
  - exact (findFrom_missing _ _ _ _ E).
Qed.

(** X17: [removeEnvironmentFromConfig] removes exactly the first profile with
    the given name and keeps all others in order, returning no error; when no
    profile has that name it returns an error and leaves the configuration as
    it was. *)
Theorem removeEnvironmentFromConfig_removes_first (config : Config)
  (name : gostring) :
  (forall before env after,
      Environments config = before ++ env :: after ->
      Name env = name -> Forall (fun e => Name e <> name) before ->
      removeEnvironmentFromConfig config name
      = ({| Environments := before ++ after |}, None)) /\
  (Forall (fun e => Name e <> name) (Environments config) ->
   removeEnvironmentFromConfig config name
   = (config,
      Some (Errorf (str "environment '" ++ name ++ str "' not found")))).
Proof.
  unfold removeEnvironmentFromConfig, findEnvironmentByName. split.
  - intros before env after E Hn Hb. rewrite E.
    rewrite (findFrom_app_hit before after env name 0 Hb Hn). cbn [negb].
    replace (Z.to_nat (0 + Z.of_nat (List.length before)))
      with (List.length before) by lia.
    replace (Z.to_nat (0 + Z.of_nat (List.length before) + 1))
      with (S (List.length before)) by lia.
    f_equal. f_equal.
    rewrite firstn_app, firstn_all, Nat.sub_diag. cbn [firstn].
    rewrite app_nil_r. f_equal.
    replace (S (List.length before)) with (1 + List.length before)%nat by lia.
    rewrite <- skipn_skipn. rewrite skipn_app, skipn_all, Nat.sub_diag.
    reflexivity.
  - intros H. rewrite (findFrom_all_miss _ _ 0 H). reflexivity.
Qed.

Lemma removeEnvironmentFromConfig_removes_first_witness :
  removeEnvironmentFromConfig sample_config (str "beta")
  = ({| Environments := [sample_env "alpha" "https://alpha.example.com/v1" ""] ++ [] |},
     None).
Proof.
  exact (proj1 (removeEnvironmentFromConfig_removes_first sample_config (str "beta"))
               [sample_env "alpha" "https://alpha.example.com/v1" ""]
               (sample_env "beta" "https://beta.example.com/v1" "gpt-5") []
               eq_refl eq_refl
               ltac:(constructor; [discriminate | constructor])).
Defined.

(** X18: whatever [validateURL] answers, [addEnvironmentToConfig] either
    fails and leaves the configuration as it was, or appends the profile at the
    end; it succeeds only for a profile whose name is not yet used (so names
    that were pairwise distinct stay so), the added profile is then found at
    the last index, and removing it by name gives the old profile list back. *)
Theorem addEnvironmentToConfig_appends_fresh
  (validateURL : gostring -> option error) (config : Config) (env : Environment) :
  let '(config', err) := addEnvironmentToConfig validateURL config env in
  (err <> None -> config' = config) /\
  (err = None ->
   Environments config' = Environments config ++ [env] /\
   Forall (fun e => Name e <> Name env) (Environments config) /\
   validateName (Name env) = None /\
   (NoDup (map Name (Environments config)) ->
    NoDup (map Name (Environments config'))) /\
   findEnvironmentByName config' (Name env)
   = (Z.of_nat (List.length (Environments config)), true) /\
   removeEnvironmentFromConfig config' (Name env)
   = ({| Environments := Environments config |}, None)).
Proof.
  unfold addEnvironmentToConfig.
  destruct (validateEnvironment validateURL env) as [e |] eqn:V.
  - split; [reflexivity | discriminate].
  - unfold findEnvironmentByName at 1.
    destruct (findFrom (Environments config) (Name env) 0) as [idx found] eqn:F.
    destruct found.
    + split; [reflexivity | discriminate].
    + split; [intros H; contradiction |]. intros _.
      destruct (findFrom_missing _ _ _ _ F) as (_ & Hfresh).
      cbn [Environments].
      split; [reflexivity |]. split; [exact Hfresh |]. split.
      { unfold validateEnvironment in V.
        destruct (validateName (Name env)); [discriminate | reflexivity]. }
      split.
      { intros Hnd. rewrite map_app. cbn [map].
        apply NoDup_app; [exact Hnd | constructor; [intros [] | constructor] |].
        intros n Hin [<- | []].
        apply in_map_iff in Hin. destruct Hin as (e & He & Hin).
        rewrite Forall_forall in Hfresh. exact (Hfresh e Hin He). }
      split.
      { unfold findEnvironmentByName. cbn [Environments].
        rewrite (findFrom_app_hit (Environments config) [] env (Name env) 0
                   Hfresh eq_refl).
        reflexivity. }
      { unfold removeEnvironmentFromConfig, findEnvironmentByName.
        cbn [Environments].
        rewrite (findFrom_app_hit (Environments config) [] env (Name env) 0
                   Hfresh eq_refl).
        cbn [negb].
        replace (Z.to_nat (0 + Z.of_nat (List.length (Environments config))))
          with (List.length (Environments config)) by lia.
        replace (Z.to_nat (0 + Z.of_nat (List.length (Environments config)) + 1))
          with (S (List.length (Environments config))) by lia.
        f_equal. f_equal.
        rewrite firstn_app, firstn_all, Nat.sub_diag. cbn [firstn].
        rewrite app_nil_r.
        rewrite skipn_all2 by (rewrite length_app; cbn [List.length]; lia).
        apply app_nil_r. }
Qed.

(** ** Hidden input *)

Lemma os_Stdin_Read_only_stdin (n : nat) (s : State) :
  (1 <= n)%nat ->
  exists r evs,
    os_Stdin_Read n s = (Val r, set_stdin evs s) /\
    (stdin_weight evs <= stdin_weight (stdin s))%nat /\
    forall bs, r = inr bs ->
               (List.length bs <= n)%nat /\
               (stdin_weight evs < stdin_weight (stdin s))%nat.
Proof.
  intros Hn. unfold os_Stdin_Read.
  destruct (stdin s) as [| [bs |] rest] eqn:E.
  - exists (inl ErrEOF), []. split.
    + f_equal. destruct s. cbn in E. subst. reflexivity.
    + split; [cbn; lia | discriminate].
  - destruct (Nat.leb_spec (List.length bs) n) as [L | L].
    + eexists; eexists; split; [reflexivity |]. cbn [stdin_weight].
      split; [lia |]. intros bs' [= <-]. split; lia.
    + eexists; eexists; split; [reflexivity |]. cbn [stdin_weight].
      rewrite length_skipn. split; [lia |].
      intros bs' [= <-]. rewrite length_firstn. split; lia.
  - eexists; eexists; split; [reflexivity |]. cbn [stdin_weight].
    split; [lia | discriminate].
Qed.

Lemma secure_post_frame (s s1 : State)
  (out : Res (gostring * option error) * State) :
  stdout s1 = stdout s -> stderr s1 = stderr s -> ttyRaw s1 = ttyRaw s ->
  secure_post s1 out -> secure_post s out.
Proof.
  unfold secure_post. intros H1 H2 H3 (P1 & P2 & P3).
  rewrite <- H1, <- H2, <- H3. auto.
Qed.

Lemma printable_butlast (input : list byte) :
  Forall printable input ->
  Forall printable (firstn (List.length input - 1) input).
Proof.
  intros H. rewrite <- (firstn_skipn (List.length input - 1) input) in H.
  apply Forall_app in H. apply H.
Qed.

Lemma secureLoop_post (fuel : nat) (input : list byte) (s : State) :
  Forall printable input -> secure_post s (secureLoop fuel input s).
Proof.
  revert input s. induction fuel as [| fuel IH]; intros input s Hin.
  - cbn [secureLoop]. unfold secure_post. cbn. auto.
  - cbn [secureLoop]. unfold bind at 1.
    destruct (os_Stdin_Read_only_stdin 1 s ltac:(lia)) as (r & evs & E & _ & _).
    rewrite E.
    assert (Rec : forall inp, Forall printable inp ->
                    secure_post s (secureLoop fuel inp (set_stdin evs s))).
    { intros inp Hinp. apply (secure_post_frame s (set_stdin evs s));
        try reflexivity. apply IH. exact Hinp. }
    destruct r as [err | [| char rest]].
    + unfold secure_post, ret. cbn. auto.
    + apply Rec. exact Hin.
    + assert (Hdel : secure_post s
                ((if len input >? 0
                  then secureLoop fuel (firstn (List.length input - 1) input)
                  else secureLoop fuel input) (set_stdin evs s))).
      { destruct (len input >? 0); apply Rec;
          [apply printable_butlast |]; exact Hin. }
      assert (Heof : secure_post s
                ((if len input =? 0
                  then ret (str "", Some (Errorf (str "EOF received")))
                  else secureLoop fuel input) (set_stdin evs s))).
      { destruct (len input =? 0); [| apply Rec; exact Hin].
        unfold secure_post, ret. cbn. auto. }
      assert (Hdef : secure_post s
                ((if (32 <=? rune_of_byte char) && (rune_of_byte char <=? 126)
                  then secureLoop fuel (input ++ [char])
                  else secureLoop fuel input) (set_stdin evs s))).
      { destruct ((32 <=? rune_of_byte char) && (rune_of_byte char <=? 126)) eqn:P;
          apply Rec; [| exact Hin].
        apply Forall_app. split; [exact Hin |]. constructor; [| constructor].
        apply andb_true_iff in P. destruct P as [P1 P2].
        apply Z.leb_le in P1. apply Z.leb_le in P2. split; assumption. }
      assert (Hok : secure_post s
                (bind (fmt_Println (str "")) (fun _ => ret (input, None))
                      (set_stdin evs s))).
      { unfold secure_post, bind, fmt_Println, fmt_Print, modify, ret. cbn.
        auto. }
      assert (Hcancel : secure_post s
                (ret (str "", Some (Errorf (str "input cancelled by user")))
                     (set_stdin evs s))).
      { unfold secure_post, ret. cbn. auto. }
      destruct char;
        first [exact Hok | exact Hdel | exact Hcancel | exact Heof | exact Hdef].
Qed.

Lemma secureLoop_funded (fuel : nat) (input : list byte) (s : State) :
  (stdin_weight (stdin s) < fuel)%nat ->
  fst (secureLoop fuel input s) <> OutOfFuel.
Proof.
  revert input s. induction fuel as [| fuel IH]; intros input s Hw; [lia |].
  cbn [secureLoop]. unfold bind at 1.
  destruct (os_Stdin_Read_only_stdin 1 s ltac:(lia)) as (r & evs & E & _ & Hr).
  rewrite E. destruct r as [err | bs]; [discriminate |].
  destruct (Hr bs eq_refl) as [_ Hlt].
  assert (Rec : forall inp, fst (secureLoop fuel inp (set_stdin evs s)) <> OutOfFuel).
  { intros inp. apply IH. cbn [stdin set_stdin]. lia. }
  destruct bs as [| char rest]; [apply Rec |].
  assert (Hdel : fst ((if len input >? 0
                       then secureLoop fuel (firstn (List.length input - 1) input)
                       else secureLoop fuel input) (set_stdin evs s)) <> OutOfFuel)
    by (destruct (len input >? 0); apply Rec).
  assert (Heof : fst ((if len input =? 0
                       then ret (str "", Some (Errorf (str "EOF received")))
                       else secureLoop fuel input) (set_stdin evs s)) <> OutOfFuel)
    by (destruct (len input =? 0); [discriminate | apply Rec]).
  assert (Hdef : fst ((if (32 <=? rune_of_byte char) && (rune_of_byte char <=? 126)
                       then secureLoop fuel (input ++ [char])
                       else secureLoop fuel input) (set_stdin evs s)) <> OutOfFuel)
    by (destruct ((32 <=? rune_of_byte char) && (rune_of_byte char <=? 126));
        apply Rec).
  destruct char;
    first [exact Hdel | exact Heof | exact Hdef | discriminate].
Qed.

Lemma printable_not_control (res : gostring) :
  Forall printable res -> existsb is_control res = false.
Proof.
  intros H. induction H as [| c r Hc _ IH]; [reflexivity |].
  cbn [existsb]. rewrite IH. unfold is_control, printable in *.
  replace (rune_of_byte c <? 32) with false by (symmetry; apply Z.ltb_ge; lia).
  replace (rune_of_byte c =? 127) with false by (symmetry; apply Z.eqb_neq; lia).
  reflexivity.
Qed.

(** Everything [secureInput] can do, in one statement. *)
Lemma secureInput_outcome (w : World) (makeRawErr : error) (prompt : gostring)
  (s : State) :
  exists res err s',
    secureInput w makeRawErr prompt s = (Val (res, err), s') /\
    stdout s' = stdout s ++ prompt
                ++ match err with None => newline | Some _ => [] end /\
    match err with
    | None => Forall printable res
    | Some _ => res = []
    end /\
    (stdinIsTerminal w = false \/ makeRawOk w = false ->
     err <> None /\ s' = set_stdout (stdout s ++ prompt) s) /\
    (restoreErr w = None -> ttyRaw s = false -> ttyRaw s' = false) /\
    (restoreErr w = None -> stderr s' = stderr s).
Proof.
  unfold secureInput, bind at 1, fmt_Print, modify.
  set (s0 := set_stdout (stdout s ++ prompt) s).
  destruct (stdinIsTerminal w) eqn:T; cbn [negb].
  2:{ eexists; eexists; eexists. split; [reflexivity |].
      subst s0. cbn. rewrite app_nil_r.
      repeat split; auto; discriminate. }
  unfold bind at 1, term_MakeRaw. destruct (makeRawOk w) eqn:R.
  2:{ eexists; eexists; eexists. split; [reflexivity |].
      subst s0. cbn. rewrite app_nil_r.
      repeat split; auto; discriminate. }
  unfold bind at 1, modify, ret.
  set (s1 := set_ttyRaw true s0).
  unfold with_defer, bind at 1, get.
  pose proof (secureLoop_post (S (stdin_weight (stdin s1))) [] s1 ltac:(constructor))
    as P.
  pose proof (secureLoop_funded (S (stdin_weight (stdin s1))) [] s1 ltac:(lia))
    as F.
  destruct (secureLoop (S (stdin_weight (stdin s1))) [] s1) as [r s2].
  unfold secure_post in P. cbn [fst snd] in P, F.
  destruct P as (Perr & Praw & P).
  destruct r as [[res err] | |]; [| contradiction | contradiction].
  unfold secureRestore, bind, term_Restore.
  destruct (restoreErr w) as [e |] eqn:Re.
  - unfold ret, fmt_Fprint_stderr, modify.
    eexists; eexists; eexists. split; [reflexivity |].
    cbn [stdout set_stderr].
    split.
    { destruct err; destruct P as (_ & P2); rewrite P2; subst s1 s0; cbn;
        rewrite ?app_nil_r, <- ?app_assoc; reflexivity. }
    split; [destruct err; apply P |].
    split; [intros [H | H]; congruence |].
    split; intros H; congruence.
  - unfold modify, ret.
    eexists; eexists; eexists. split; [reflexivity |].
    cbn [stdout set_ttyRaw ttyRaw stderr].
    split.
    { destruct err; destruct P as (_ & P2); rewrite P2; subst s1 s0; cbn;
        rewrite ?app_nil_r, <- ?app_assoc; reflexivity. }
    split; [destruct err; apply P |].
    split; [intros [H | H]; congruence |].
    split; [intros _ _; reflexivity |].
    intros _. rewrite Perr. reflexivity.
Qed.

(** X19: [secureInput] never echoes what is typed and never panics: whatever
    arrives on standard input, it returns normally, and standard output gains
    only the prompt, followed by one newline when a line was accepted; without
    a terminal (or when raw mode cannot be entered) it fails after printing
    the prompt, without reading anything; and when [term.Restore] works the
    terminal is not left in raw mode and nothing is written to standard
    error. *)
Theorem secureInput_never_echoes (w : World) (makeRawErr : error)
  (prompt : gostring) (s : State) :
  exists res err s',
    secureInput w makeRawErr prompt s = (Val (res, err), s') /\
    stdout s' = stdout s ++ prompt
                ++ match err with None => newline | Some _ => [] end /\
    (stdinIsTerminal w = false \/ makeRawOk w = false ->
     err <> None /\ s' = set_stdout (stdout s ++ prompt) s) /\
    (restoreErr w = None -> ttyRaw s = false -> ttyRaw s' = false) /\
    (restoreErr w = None -> stderr s' = stderr s).
Proof.
  destruct (secureInput_outcome w makeRawErr prompt s)
    as (res & err & s' & E & O & _ & N & R & D).
  exists res, err, s'. auto.
Qed.

(** X20: a key that [secureInput] returns consists of printable ASCII bytes
    only (32 to 126), so [validateAPIKey] accepts it; and whenever
    [secureInput] reports an error the returned string is empty. *)
Theorem secureInput_result_is_valid_key (w : World) (makeRawErr : error)
  (prompt : gostring) (s : State) :
  exists res err s',
    secureInput w makeRawErr prompt s = (Val (res, err), s') /\
    (err = None -> Forall printable res /\ validateAPIKey res = None) /\
    (err <> None -> res = []).
Proof.
  destruct (secureInput_outcome w makeRawErr prompt s)
    as (res & err & s' & E & _ & P & _).
  exists res, err, s'. split; [exact E |].
  destruct err as [e |].
  - split; [discriminate | intros _; exact P].
  - split; [| intros H; contradiction].
    intros _. split; [exact P |].
    unfold validateAPIKey. rewrite (printable_not_control res P). reflexivity.
Qed.

(** ** The selection index never leaves the list *)

(** X21: whatever bytes a read delivers, one round of the interactive loop
    never panics when the current index is inside the list, and it either goes
    on with an index that is again inside the list, or returns the profile at
    the current index without error, or returns the cancellation error with
    the empty profile. *)
Theorem handleKey_keeps_index_valid (envs : list Environment) (index : Z)
  (input : list byte) :
  let count := Z.of_nat (List.length envs) in
  2 * count <= GoInt.max_int ->
  0 <= index < count ->
  exists step,
    handleKey envs index input = Some step /\
    match step with
    | Continue index' => 0 <= index' < count
    | Return env None => nth_error envs (Z.to_nat index) = Some env
    | Return env (Some err) => env = emptyEnvironment /\ err = err_cancelled
    end.
Proof.
  cbv zeta. set (count := Z.of_nat (List.length envs)).
  intros Hmax Hi. unfold GoInt.max_int in Hmax. unfold handleKey. fold count.
  assert (Hidx : index_env envs index = nth_error envs (Z.to_nat index)).
  { unfold index_env. fold count.
    replace ((0 <=? index) && (index <? count)) with true
      by (symmetry; apply andb_true_iff; split;
          [apply Z.leb_le | apply Z.ltb_lt]; lia).
    reflexivity. }
  assert (Hsome : exists env, nth_error envs (Z.to_nat index) = Some env).
  { destruct (nth_error envs (Z.to_nat index)) as [env |] eqn:E; [eauto |].
    apply nth_error_None in E. subst count. lia. }
  assert (Hup : exists i, GoInt.rem (GoInt.add (GoInt.sub index 1) count) count = Some i
                          /\ 0 <= i < count).
  { unfold GoInt.rem.
    replace (count =? 0) with false by (symmetry; apply Z.eqb_neq; lia).
    unwrap. rewrite Z.rem_mod_nonneg by lia.
    pose proof (Z.mod_pos_bound (index - 1 + count) count ltac:(lia)).
    unwrap. eauto. }
  assert (Hdown : exists i, GoInt.rem (GoInt.add index 1) count = Some i
                            /\ 0 <= i < count).
  { unfold GoInt.rem.
    replace (count =? 0) with false by (symmetry; apply Z.eqb_neq; lia).
    unwrap. rewrite Z.rem_mod_nonneg by lia.
    pose proof (Z.mod_pos_bound (index + 1) count ltac:(lia)).
    unwrap. eauto. }
  destruct (parseKeyInput input) as [[arrow char] err].
  destruct err as [e |];
    [destruct arrow; eexists; (split; [reflexivity | exact Hi]) |].
  destruct arrow.
  - destruct ((char =? key_enter) || (char =? key_cr)).
    + rewrite Hidx. destruct Hsome as (env & E). rewrite E. cbn [obind].
      eexists; split; [reflexivity | first [exact E | reflexivity]].
    + destruct ((char =? key_escape) || (char =? key_ctrl_c)).
      * eexists; split; [reflexivity | split; reflexivity].
      * eexists; split; [reflexivity | exact Hi].
  - destruct Hup as (i & E & Hr). rewrite E. cbn [obind].
    eexists; split; [reflexivity | exact Hr].
  - destruct Hdown as (i & E & Hr). rewrite E. cbn [obind].
    eexists; split; [reflexivity | exact Hr].
  - eexists; split; [reflexivity | exact Hi].
  - eexists; split; [reflexivity | exact Hi].
Qed.

Lemma handleKey_keeps_index_valid_witness :
  exists step,
    handleKey (Environments sample_config) 1 (str "q") = Some step /\
    match step with
    | Continue index' => 0 <= index' < Z.of_nat (List.length (Environments sample_config))
    | Return env None => nth_error (Environments sample_config) (Z.to_nat 1) = Some env
    | Return env (Some err) => env = emptyEnvironment /\ err = err_cancelled
    end.
Proof.
  exact (handleKey_keeps_index_valid (Environments sample_config) 1 (str "q")
           ltac:(vm_compute; discriminate)
           ltac:(vm_compute; split; [discriminate | reflexivity])).
Defined.

(** ** Frames: what a computation leaves alone *)

Section Frames.

Variable R : State -> State -> Prop.
Hypothesis R_refl : forall s, R s s.
Hypothesis R_trans : forall a b c, R a b -> R b c -> R a c.

Lemma frames_ret {A : Type} (a : A) : frames R (ret a).
Proof. intros s. apply R_refl. Qed.

Lemma frames_liftP {A : Type} (o : option A) : frames R (liftP o).
Proof. intros s. unfold liftP. destruct o; apply R_refl. Qed.

Lemma frames_get {A : Type} (f : State -> A) : frames R (get f).
Proof. intros s. apply R_refl. Qed.

Lemma frames_modify (f : State -> State) :
  (forall s, R s (f s)) -> frames R (modify f).
Proof. intros H s. apply H. Qed.

Lemma frames_bind {A B : Type} (m : M A) (k : A -> M B) :
  frames R m -> (forall a, frames R (k a)) -> frames R (bind m k).
Proof.
  intros Hm Hk s. unfold bind. specialize (Hm s).
  destruct (m s) as [r s1]. cbn [snd] in Hm.
  destruct r as [a | |]; cbn [snd]; [| exact Hm | exact Hm].
  eapply R_trans; [exact Hm | apply Hk].
Qed.

Lemma frames_with_defer {A : Type} (body : M A) (d : M unit) :
  frames R body -> frames R d -> frames R (with_defer body d).
Proof.
  intros Hb Hd s. unfold with_defer. specialize (Hb s).
  destruct (body s) as [r s1]. cbn [snd] in Hb. specialize (Hd s1).
  destruct (d s1) as [r2 s2]. cbn [snd] in Hd.
  destruct r2; cbn [snd]; eapply R_trans; eassumption.
Qed.

Lemma frames_out_of_fuel {A : Type} :
  frames R (fun s : State => (@OutOfFuel A, s)).
Proof. intros s. apply R_refl. Qed.

End Frames.

Lemma R_calm_refl (s : State) : R_calm s s.
Proof. unfold R_calm. auto. Qed.

Lemma R_calm_trans (a b c : State) : R_calm a b -> R_calm b c -> R_calm a c.
Proof.
  unfold R_calm. intros (A1 & A2 & A3 & A4) (B1 & B2 & B3 & B4).
  repeat split; congruence.
Qed.

Lemma R_mild_refl (s : State) : R_mild s s.
Proof. unfold R_mild. auto. Qed.

Lemma R_mild_trans (a b c : State) : R_mild a b -> R_mild b c -> R_mild a c.
Proof. unfold R_mild. intros (A1 & A2) (B1 & B2). split; congruence. Qed.

Lemma R_kept_refl (s : State) : R_kept s s.
Proof. unfold R_kept. auto. Qed.

Lemma R_kept_trans (a b c : State) : R_kept a b -> R_kept b c -> R_kept a c.
Proof. unfold R_kept. auto. Qed.

Lemma R_calm_mild (s s' : State) : R_calm s s' -> R_mild s s'.
Proof. unfold R_calm, R_mild. tauto. Qed.

Lemma calm_is_mild {A : Type} (m : M A) : frames R_calm m -> frames R_mild m.
Proof. intros H s. apply R_calm_mild. apply H. Qed.

Lemma calm_is_kept {A : Type} (m : M A) : frames R_calm m -> frames R_kept m.
Proof. intros H s. destruct (H s) as (_ & _ & E & _). unfold R_kept. congruence. Qed.

(** Decomposes a goal [frames R m] along the binds and case distinctions of
    [m]; [refl] and [trans] are the two laws of [R]. *)
Ltac frames_tac refl trans :=
  repeat match goal with
    | |- frames _ (ret _) => apply (frames_ret _ refl)
    | |- frames _ (liftP _) => apply (frames_liftP _ refl)
    | |- frames _ (get _) => apply (frames_get _ refl)
    | |- frames _ (fun s => (OutOfFuel, s)) => apply (frames_out_of_fuel _ refl)
    | |- frames _ (modify _) => apply frames_modify; intros ?; cbv; tauto
    | |- frames _ (bind _ _) => apply (frames_bind _ trans); [| intros ?]
    | |- frames _ (match ?x with _ => _ end) => destruct x
    | H : forall x, frames ?R (?f x) |- frames ?R (?f _) => apply H
    | |- frames _ _ => assumption
    end.

Ltac calm_tac := frames_tac R_calm_refl R_calm_trans.
Ltac mild_tac := frames_tac R_mild_refl R_mild_trans.
Ltac kept_tac := frames_tac R_kept_refl R_kept_trans.

Lemma calm_fmt_Print (text : gostring) : frames R_calm (fmt_Print text).
Proof. apply frames_modify. intros s. cbv. tauto. Qed.

Lemma calm_os_Stdin_Read (n : nat) : frames R_calm (os_Stdin_Read n).
Proof.
  intros s. unfold os_Stdin_Read.
  destruct (stdin s) as [| [bs |] rest]; [apply R_calm_refl | |].
  - destruct (Nat.leb (List.length bs) n); cbv; tauto.
  - cbv; tauto.
Qed.

Lemma calm_bufio_fill (tries room : nat) : frames R_calm (bufio_fill tries room).
Proof.
  induction tries as [| tries IH]; cbn [bufio_fill].
  - calm_tac.
  - apply (frames_bind _ R_calm_trans); [apply calm_os_Stdin_Read |].
    intros [e | [| b bs]]; [calm_tac | exact IH | calm_tac].
Qed.

Lemma calm_bufio_ReadString (fuel buffered : nat) (acc : list byte) :
  frames R_calm (bufio_ReadString fuel buffered acc).
Proof.
  revert buffered acc. induction fuel as [| fuel IH]; intros buffered acc;
    cbn [bufio_ReadString].
  - calm_tac.
  - apply (frames_bind _ R_calm_trans); [apply calm_bufio_fill |].
    intros [e | bs]; [calm_tac |].
    destruct (find_sub [x0a] bs); [calm_tac | apply IH].
Qed.

Lemma calm_regularInput (prompt : gostring) : frames R_calm (regularInput prompt).
Proof.
  unfold regularInput.
  apply (frames_bind _ R_calm_trans); [apply calm_fmt_Print | intros _].
  apply (frames_bind _ R_calm_trans); [calm_tac | intros fuel].
  apply (frames_bind _ R_calm_trans);
    [apply calm_bufio_ReadString | intros [input err]].
  calm_tac.
Qed.

Lemma calm_printOptions (formatter : DisplayFormatter) (i : Z)
  (envs : list Environment) : frames R_calm (printOptions formatter i envs).
Proof.
  revert i. induction envs as [| env rest IH]; intros i; cbn [printOptions].
  - calm_tac.
  - apply (frames_bind _ R_calm_trans); [calm_tac | intros line].
    apply (frames_bind _ R_calm_trans);
      [apply calm_fmt_Print | intros _; apply IH].
Qed.

Lemma calm_selectEnvironmentOriginal (w : World) (config : Config) :
  frames R_calm (selectEnvironmentOriginal w config).
Proof.
  unfold selectEnvironmentOriginal.
  destruct (Z.of_nat (List.length (Environments config)) =? 0); [calm_tac |].
  destruct (Z.of_nat (List.length (Environments config)) =? 1); [calm_tac |].
  apply (frames_bind _ R_calm_trans); [apply calm_fmt_Print | intros _].
  apply (frames_bind _ R_calm_trans); [apply calm_printOptions | intros _].
  apply (frames_bind _ R_calm_trans);
    [apply calm_regularInput | intros [input err]].
  calm_tac.
Qed.

Lemma calm_fallbackToNumberedSelection (w : World) (config : Config) :
  frames R_calm (fallbackToNumberedSelection w config).
Proof.
  unfold fallbackToNumberedSelection.
  apply (frames_bind _ R_calm_trans); [apply calm_fmt_Print | intros _].
  apply calm_selectEnvironmentOriginal.
Qed.

(** ** The terminal is always given back *)

Lemma calm_clearLoop (tp : TextPositioner) (n : Z) (count : nat) (i : Z) :
  frames R_calm (clearLoop tp n count i).
Proof.
  revert i. induction count as [| count IH]; intros i; cbn [clearLoop].
  - calm_tac.
  - apply (frames_bind _ R_calm_trans); [calm_tac | intros line].
    apply (frames_bind _ R_calm_trans); [apply calm_fmt_Print | intros _].
    apply (frames_bind _ R_calm_trans); [| intros _; apply IH].
    destruct (i <? GoInt.sub n 1); [apply calm_fmt_Print | calm_tac].
Qed.

Lemma calm_clearScreen (w : World) : frames R_calm (clearScreen w).
Proof.
  unfold clearScreen.
  apply (frames_bind _ R_calm_trans); [apply calm_clearLoop | intros _].
  apply (frames_bind _ R_calm_trans); [calm_tac | intros cr; apply calm_fmt_Print].
Qed.

Lemma calm_printLines (tp : TextPositioner) (first : bool) (lines : list gostring) :
  frames R_calm (printLines tp first lines).
Proof.
  revert first. induction lines as [| line rest IH]; intros first; cbn [printLines].
  - calm_tac.
  - apply (frames_bind _ R_calm_trans).
    + destruct first; [calm_tac | apply calm_fmt_Print].
    + intros _. apply (frames_bind _ R_calm_trans); [calm_tac | intros text].
      apply (frames_bind _ R_calm_trans); [apply calm_fmt_Print | intros _; apply IH].
Qed.

Lemma calm_renderFullContent (w : World) (lr : LineRenderer) :
  frames R_calm (renderFullContent w lr).
Proof.
  unfold renderFullContent.
  apply (frames_bind _ R_calm_trans); [apply calm_clearScreen | intros _].
  apply (frames_bind _ R_calm_trans); [calm_tac | intros [ds |]].
  - apply calm_printLines.
  - calm_tac.
Qed.

Lemma mild_RenderMenu (w : World) (lr : LineRenderer) (envs : list Environment)
  (selectedIndex : Z) (header : gostring) :
  frames R_mild (RenderMenu w lr envs selectedIndex header).
Proof.
  unfold RenderMenu, renderSelectionChange.
  apply (frames_bind _ R_mild_trans); [mild_tac | intros [ds |]]; [| mild_tac].
  destruct (negb (initialized ds)); [mild_tac |].
  apply (frames_bind _ R_mild_trans); [mild_tac | intros lines].
  apply (frames_bind _ R_mild_trans).
  { apply frames_modify. intros s. unfold R_mild. split; reflexivity. }
  intros _.
  destruct (contentChanged _);
    [apply calm_is_mild, calm_renderFullContent |].
  destruct (selectionChanged _);
    [apply calm_is_mild, calm_renderFullContent | mild_tac].
Qed.

Lemma kept_RenderMenu (w : World) (lr : LineRenderer) (envs : list Environment)
  (selectedIndex : Z) (header : gostring) :
  frames R_kept (RenderMenu w lr envs selectedIndex header).
Proof.
  unfold RenderMenu, renderSelectionChange.
  apply (frames_bind _ R_kept_trans); [kept_tac | intros [ds |]]; [| kept_tac].
  destruct (negb (initialized ds)); [kept_tac |].
  apply (frames_bind _ R_kept_trans); [kept_tac | intros lines].
  apply (frames_bind _ R_kept_trans).
  { apply frames_modify. intros s _. discriminate. }
  intros _.
  destruct (contentChanged _);
    [apply calm_is_kept, calm_renderFullContent |].
  destruct (selectionChanged _);
    [apply calm_is_kept, calm_renderFullContent | kept_tac].
Qed.

Lemma mild_renderTail (w : World) (envs : list Environment) (selectedIndex : Z)
  (header : gostring) : frames R_mild (renderTail w envs selectedIndex header).
Proof.
  unfold renderTail. cbv zeta.
  apply (frames_bind _ R_mild_trans); [mild_tac | intros ods].
  apply (frames_bind _ R_mild_trans); [mild_tac | intros ds].
  apply (frames_bind _ R_mild_trans).
  { apply frames_modify. intros s. unfold R_mild. split; reflexivity. }
  intros _.
  apply (frames_bind _ R_mild_trans); [mild_tac | intros olr].
  apply (frames_bind _ R_mild_trans); [mild_tac | intros lr].
  apply (frames_bind _ R_mild_trans).
  { apply frames_modify. intros s. unfold R_mild. split; reflexivity. }
  intros _. apply mild_RenderMenu.
Qed.

Lemma kept_renderTail (w : World) (envs : list Environment) (selectedIndex : Z)
  (header : gostring) : frames R_kept (renderTail w envs selectedIndex header).
Proof.
  unfold renderTail. cbv zeta.
  apply (frames_bind _ R_kept_trans); [kept_tac | intros ods].
  apply (frames_bind _ R_kept_trans); [kept_tac | intros ds].
  apply (frames_bind _ R_kept_trans).
  { apply frames_modify. intros s _. discriminate. }
  intros _.
  apply (frames_bind _ R_kept_trans); [kept_tac | intros olr].
  apply (frames_bind _ R_kept_trans); [kept_tac | intros lr].
  apply (frames_bind _ R_kept_trans).
  { apply frames_modify. intros s H. exact H. }
  intros _. apply kept_RenderMenu.
Qed.

Lemma renderMenuStatefully_run (w : World) (envs : list Environment)
  (selectedIndex : Z) (header : gostring) (ansi : bool) (s : State) :
  renderMenuStatefully w envs selectedIndex header ansi s
  = match globalDisplayState s with
    | Some _ => renderTail w envs selectedIndex header s
    | None =>
        let ds := initializeDisplayState w in
        bind (clearScreen w) (fun _ => renderTail w envs selectedIndex header)
          (set_globalLineRenderer (Some (newLineRenderer ds ansi))
             (set_globalDisplayState (Some ds) s))
    end.
Proof.
  change (renderMenuStatefully w envs selectedIndex header ansi)
    with (bind (get globalDisplayState) (fun ods =>
          bind (match ods with
                | None =>
                    let ds := initializeDisplayState w in
                    bind (modify (set_globalDisplayState (Some ds))) (fun _ =>
                    bind (modify (set_globalLineRenderer
                                    (Some (newLineRenderer ds ansi))))
                         (fun _ => clearScreen w))
                | Some _ => ret tt
                end) (fun _ => renderTail w envs selectedIndex header))).
  unfold bind at 1, get.
  destruct (globalDisplayState s); reflexivity.
Qed.

(** After a render the display state exists, and terminal mode and standard
    error are as before. *)
Lemma renderMenuStatefully_effect (w : World) (envs : list Environment)
  (selectedIndex : Z) (header : gostring) (ansi : bool) (s : State) :
  let s' := snd (renderMenuStatefully w envs selectedIndex header ansi s) in
  globalDisplayState s' <> None /\ R_mild s s'.
Proof.
  cbv zeta. rewrite renderMenuStatefully_run.
  destruct (globalDisplayState s) as [ds0 |] eqn:G.
  - split; [apply (kept_renderTail w envs selectedIndex header s); congruence
           | apply mild_renderTail].
  - cbv zeta.
    set (s1 := set_globalLineRenderer _ (set_globalDisplayState _ s)).
    unfold bind.
    pose proof (calm_clearScreen w s1) as C.
    destruct (clearScreen w s1) as [r s2]. cbn [snd] in C.
    destruct C as (C1 & C2 & C3 & C4).
    assert (K : globalDisplayState s2 <> None)
      by (rewrite C3; subst s1; cbn; discriminate).
    assert (Mi : R_mild s s2)
      by (unfold R_mild; rewrite C1, C2; subst s1; split; reflexivity).
    destruct r as [[] | |]; cbn [snd]; [| split; assumption | split; assumption].
    split.
    + apply (kept_renderTail w envs selectedIndex header s2). exact K.
    + eapply R_mild_trans; [exact Mi | apply mild_renderTail].
Qed.

Lemma paired_calm (s s' : State) : paired s -> R_calm s s' -> paired s'.
Proof.
  unfold paired, R_calm. intros P (_ & _ & G & L). rewrite G, L. exact P.
Qed.

Lemma selectionLoop_effect (w : World)
  (display : list Environment -> Z -> M unit) (config : Config)
  (fuel : nat) (selectedIndex : Z) (s : State) :
  (forall envs i s0,
      globalDisplayState (snd (display envs i s0)) <> None
      /\ R_mild s0 (snd (display envs i s0))) ->
  paired s ->
  tidy s (snd (selectionLoop w display config fuel selectedIndex s)).
Proof.
  intros Hd. revert selectedIndex s.
  induction fuel as [| fuel IH]; intros selectedIndex s P.
  - cbn. split; [exact P | apply R_mild_refl].
  - cbn [selectionLoop]. unfold bind at 1.
    destruct (Hd (Environments config) selectedIndex s) as [K0 M0].
    destruct (display (Environments config) selectedIndex s) as [r0 s0].
    cbn [snd] in K0, M0.
    assert (P0 : paired s0) by (intros H; contradiction).
    destruct r0 as [[] | |]; cbn [snd]; [| split; assumption | split; assumption].
    unfold bind at 1.
    pose proof (calm_os_Stdin_Read 10 s0) as C.
    destruct (os_Stdin_Read 10 s0) as [r1 s1]. cbn [snd] in C.
    assert (P1 : paired s1) by (exact (paired_calm s0 s1 P0 C)).
    assert (M1 : R_mild s s1)
      by (eapply R_mild_trans; [exact M0 | apply R_calm_mild; exact C]).
    destruct r1 as [[e | input] | |]; cbn [snd];
      [| | split; assumption | split; assumption].
    + pose proof (calm_fallbackToNumberedSelection w config s1) as F.
      split; [exact (paired_calm s1 _ P1 F) |].
      eapply R_mild_trans; [exact M1 | apply R_calm_mild; exact F].
    + unfold bind at 1, liftP.
      destruct (handleKey (Environments config) selectedIndex input)
        as [[i | env err] |]; cbn [snd]; [| split; assumption | split; assumption].
      destruct (IH i s1 P1) as [P2 M2].
      split; [exact P2 | eapply R_mild_trans; eassumption].
Qed.

Lemma guardedLoop_settles (w : World)
  (display : list Environment -> Z -> M unit) (config : Config)
  (st : termState) (s : State) :
  (forall envs i s0,
      globalDisplayState (snd (display envs i s0)) <> None
      /\ R_mild s0 (snd (display envs i s0))) ->
  restoreErr w = None -> paired s ->
  settled s (snd (guardedLoop w display config st s)).
Proof.
  intros Hd Hr P. unfold guardedLoop, with_defer.
  unfold bind at 1, get.
  pose proof (selectionLoop_effect w display config
                (S (stdin_weight (stdin s))) 0 s Hd P) as E.
  destruct (selectionLoop w display config (S (stdin_weight (stdin s))) 0 s)
    as [r s1].
  cbn [snd] in E. destruct E as [P1 (M1 & M2)].
  assert (C : exists s2,
             cleanupDisplayState s1 = (Val tt, s2) /\
             globalDisplayState s2 = None /\ globalLineRenderer s2 = None /\
             stderr s2 = stderr s1).
  { unfold cleanupDisplayState, bind, get.
    destruct (globalDisplayState s1) as [ds |] eqn:G.
    - eexists. split; [reflexivity |]. cbn. auto.
    - eexists. split; [reflexivity |]. split; [exact G |].
      split; [exact (P1 G) | reflexivity]. }
  destruct C as (s2 & C & G2 & L2 & E2). rewrite C.
  unfold bind, ensureRestore, restore, bind, term_Restore. cbn [restored oldState].
  rewrite Hr. unfold bind, modify, ret. cbn [snd].
  destruct r; cbn [snd]; unfold settled; cbn;
    (repeat split; [exact G2 | exact L2 | congruence]).
Qed.

Lemma settled_calm (s s' : State) :
  ttyRaw s = false -> globalDisplayState s = None ->
  globalLineRenderer s = None -> R_calm s s' -> settled s s'.
Proof.
  unfold settled, R_calm. intros T G L (A1 & A2 & A3 & A4).
  repeat split; congruence.
Qed.

Lemma settled_after_raw (s s' : State) :
  settled (set_ttyRaw true s) s' -> settled s s'.
Proof. unfold settled. cbn. tauto. Qed.

Lemma basicInteractiveSelection_settles (w : World) (config : Config)
  (caps : terminalCapabilities) (s : State) :
  restoreErr w = None -> ttyRaw s = false ->
  globalDisplayState s = None -> globalLineRenderer s = None ->
  settled s (snd (basicInteractiveSelection w config caps s)).
Proof.
  intros Hr T G L. unfold basicInteractiveSelection, bind at 1, term_MakeRaw.
  destruct (makeRawOk w).
  - unfold bind at 1, modify, ret. apply settled_after_raw.
    apply guardedLoop_settles; [| exact Hr | intros _; exact L].
    intros envs i s0. apply renderMenuStatefully_effect.
  - unfold ret.
    apply settled_calm; try assumption. apply calm_fallbackToNumberedSelection.
Qed.

Lemma fullInteractiveSelection_settles (w : World) (config : Config)
  (caps : terminalCapabilities) (s : State) :
  restoreErr w = None -> ttyRaw s = false ->
  globalDisplayState s = None -> globalLineRenderer s = None ->
  settled s (snd (fullInteractiveSelection w config caps s)).
Proof.
  intros Hr T G L. unfold fullInteractiveSelection, bind at 1, term_MakeRaw.
  destruct (makeRawOk w) eqn:Mk.
  - unfold bind at 1, modify, ret. apply settled_after_raw.
    apply guardedLoop_settles; [| exact Hr | intros _; exact L].
    intros envs i s0. apply renderMenuStatefully_effect.
  - unfold ret.
    apply basicInteractiveSelection_settles; assumption.
Qed.

(** X22: when [term.Restore] works, the selection always gives the terminal
    back: started with the terminal in cooked mode and no display state,
    [selectEnvironmentWithArrows] ends, on every path (a selection, a
    cancellation, a failed read with fallback to the numbered menu, even a
    panic while rendering), with the terminal out of raw mode, both display
    globals nil again, and nothing written to standard error. *)
Theorem selection_gives_terminal_back (w : World) (config : Config) (s : State) :
  restoreErr w = None -> ttyRaw s = false ->
  globalDisplayState s = None -> globalLineRenderer s = None ->
  let s' := snd (selectEnvironmentWithArrows w config s) in
  ttyRaw s' = false /\ globalDisplayState s' = None /\
  globalLineRenderer s' = None /\ stderr s' = stderr s.
Proof.
  intros Hr T G L. cbv zeta. change (settled s (snd (selectEnvironmentWithArrows w config s))).
  assert (Calm : forall m : M (Environment * option error),
             frames R_calm m -> settled s (snd (m s))).
  { intros m Hm. apply settled_calm; try assumption. apply Hm. }
  unfold selectEnvironmentWithArrows.
  destruct (Z.of_nat (List.length (Environments config)) =? 0);
    [apply Calm; calm_tac |].
  destruct (Z.of_nat (List.length (Environments config)) =? 1);
    [apply Calm; calm_tac |].
  destruct (negb (IsTerminal (detectTerminalCapabilities w))).
  - destruct (isHeadlessMode w);
      [| apply Calm; apply calm_fallbackToNumberedSelection].
    destruct (Z.of_nat (List.length (Environments config)) >? 0);
      apply Calm; [| calm_tac].
    apply (frames_bind _ R_calm_trans); [calm_tac | intros env].
    apply (frames_bind _ R_calm_trans); [apply calm_fmt_Print | intros _; calm_tac].
  - destruct (SupportsRaw (detectTerminalCapabilities w)
              && SupportsANSI (detectTerminalCapabilities w)
              && SupportsCursor (detectTerminalCapabilities w));
      [apply fullInteractiveSelection_settles; assumption |].
    destruct (SupportsRaw (detectTerminalCapabilities w));
      [apply basicInteractiveSelection_settles; assumption
      | apply Calm; apply calm_fallbackToNumberedSelection].
Qed.

Lemma selection_gives_terminal_back_witness :
  let s' := snd (selectEnvironmentWithArrows (sample_world (Some (2, 24)))
                   sample_config (initial_state [RData key_down; RData [x0d]])) in
  ttyRaw s' = false /\ globalDisplayState s' = None /\
  globalLineRenderer s' = None /\ stderr s' = stderr (initial_state [RData key_down; RData [x0d]]).
Proof.
  exact (selection_gives_terminal_back (sample_world (Some (2, 24)))
           sample_config (initial_state [RData key_down; RData [x0d]])
           eq_refl eq_refl eq_refl eq_refl).
Defined.

(** ** The interactive loop replays the keys *)

Section Hoare.

Context {A B : Type}.

Lemma hoare_ret (P : State -> Prop) (a : A) (Q : A -> State -> Prop) :
  (forall s, P s -> Q a s) -> hoare P (ret a) Q.
Proof. intros H s Hs. exists a, s. split; [reflexivity | apply H, Hs]. Qed.

Lemma hoare_bind (P : State -> Prop) (m : M A) (Q : A -> State -> Prop)
  (k : A -> M B) (R : B -> State -> Prop) :
  hoare P m Q -> (forall a, hoare (Q a) (k a) R) -> hoare P (bind m k) R.
Proof.
  intros Hm Hk s Hs. destruct (Hm s Hs) as (a & s' & E & Hq).
  unfold bind. rewrite E. apply (Hk a s' Hq).
Qed.

Lemma hoare_pre (P P' : State -> Prop) (m : M A) (Q : A -> State -> Prop) :
  (forall s, P s -> P' s) -> hoare P' m Q -> hoare P m Q.
Proof. intros H Hm s Hs. apply Hm, H, Hs. Qed.

Lemma hoare_post (P : State -> Prop) (m : M A) (Q Q' : A -> State -> Prop) :
  (forall a s, Q' a s -> Q a s) -> hoare P m Q' -> hoare P m Q.
Proof.
  intros H Hm s Hs. destruct (Hm s Hs) as (a & s' & E & Hq).
  exists a, s'. split; [exact E | apply H, Hq].
Qed.

Lemma hoare_liftP_bind (P : State -> Prop) (o : option A) (a : A)
  (k : A -> M B) (R : B -> State -> Prop) :
  o = Some a -> hoare P (k a) R -> hoare P (bind (liftP o) k) R.
Proof. intros E H s Hs. unfold bind, liftP. rewrite E. apply H, Hs. Qed.

End Hoare.

Lemma hoare_modify_bind {B : Type} (P P' : State -> Prop) (f : State -> State)
  (k : unit -> M B) (R : B -> State -> Prop) :
  (forall s, P s -> P' (f s)) -> hoare P' (k tt) R ->
  hoare P (bind (modify f) k) R.
Proof. intros Hf H s Hs. unfold bind, modify. apply H, Hf, Hs. Qed.

Lemma hoare_get_display {B : Type} (evs : list ReadEvent)
  (d : option DisplayState) (l : option LineRenderer)
  (k : option DisplayState -> M B) (R : B -> State -> Prop) :
  hoare (pinned evs d l) (k d) R ->
  hoare (pinned evs d l) (bind (get globalDisplayState) k) R.
Proof.
  intros H s Hs. unfold bind, get.
  replace (globalDisplayState s) with d by (symmetry; apply Hs). apply H, Hs.
Qed.

Lemma hoare_get_renderer {B : Type} (evs : list ReadEvent)
  (d : option DisplayState) (l : option LineRenderer)
  (k : option LineRenderer -> M B) (R : B -> State -> Prop) :
  hoare (pinned evs d l) (k l) R ->
  hoare (pinned evs d l) (bind (get globalLineRenderer) k) R.
Proof.
  intros H s Hs. unfold bind, get.
  replace (globalLineRenderer s) with l by (symmetry; apply Hs). apply H, Hs.
Qed.

Lemma hoare_fmt_Print (evs : list ReadEvent) (d : option DisplayState)
  (l : option LineRenderer) (text : gostring) :
  hoare (pinned evs d l) (fmt_Print text) (fun _ => pinned evs d l).
Proof.
  intros s Hs. eexists tt, _. split; [reflexivity |]. exact Hs.
Qed.

Lemma hoare_clearLoop (evs : list ReadEvent) (d : option DisplayState)
  (l : option LineRenderer) (tp : TextPositioner) (n : Z) (count : nat) (i : Z) :
  0 <= tpWidth tp ->
  hoare (pinned evs d l) (clearLoop tp n count i) (fun _ => pinned evs d l).
Proof.
  intros HW. revert i. induction count as [| count IH]; intros i; cbn [clearLoop].
  - apply hoare_ret. auto.
  - eapply hoare_liftP_bind.
    { unfold ClearLine, ClearToEndOfLine. change (str " ") with [" "%byte].
      rewrite strings_Repeat_byte by exact HW. reflexivity. }
    eapply hoare_bind; [apply hoare_fmt_Print | intros []].
    eapply hoare_bind with (Q := fun _ => pinned evs d l); [| intros []; apply IH].
    destruct (i <? GoInt.sub n 1); [apply hoare_fmt_Print | apply hoare_ret; auto].
Qed.

Lemma hoare_clearScreen (w : World) (evs : list ReadEvent)
  (d : option DisplayState) (l : option LineRenderer) :
  0 <= Width (detectTerminalCapabilities w) ->
  hoare (pinned evs d l) (clearScreen w) (fun _ => pinned evs d l).
Proof.
  intros HW. unfold clearScreen. cbv zeta.
  eapply hoare_bind; [apply hoare_clearLoop; exact HW | intros []].
  eapply hoare_liftP_bind; [| apply hoare_fmt_Print].
  apply strings_Repeat_byte.
  destruct (Z.gtb_spec (Height (detectTerminalCapabilities w)) 0); lia.
Qed.

Lemma hoare_printLines (evs : list ReadEvent) (d : option DisplayState)
  (l : option LineRenderer) (tp : TextPositioner) (first : bool)
  (lines : list gostring) :
  3 <= tpWidth tp <= GoInt.max_int ->
  hoare (pinned evs d l) (printLines tp first lines) (fun _ => pinned evs d l).
Proof.
  intros HW. revert first.
  induction lines as [| line rest IH]; intros first; cbn [printLines].
  - apply hoare_ret. auto.
  - eapply hoare_bind with (Q := fun _ => pinned evs d l).
    { destruct first; [apply hoare_ret; auto | apply hoare_fmt_Print]. }
    intros []. destruct (OverwriteLine_wide tp line HW) as (body & E & _).
    eapply hoare_liftP_bind; [exact E |].
    eapply hoare_bind; [apply hoare_fmt_Print | intros []; apply IH].
Qed.

Lemma hoare_renderFullContent (w : World) (evs : list ReadEvent)
  (ds : DisplayState) (l : option LineRenderer) (lr : LineRenderer) :
  0 <= Width (detectTerminalCapabilities w) ->
  3 <= tpWidth (positioner lr) <= GoInt.max_int ->
  hoare (pinned evs (Some ds) l) (renderFullContent w lr)
        (fun _ => pinned evs (Some ds) l).
Proof.
  intros HW HP. unfold renderFullContent.
  eapply hoare_bind; [apply hoare_clearScreen; exact HW | intros []].
  apply hoare_get_display. apply hoare_printLines. exact HP.
Qed.

Lemma hoare_RenderMenu (w : World) (evs : list ReadEvent) (ds : DisplayState)
  (l : option LineRenderer) (lr : LineRenderer) (envs : list Environment)
  (selectedIndex : Z) (header : gostring) :
  3 <= Width (detectTerminalCapabilities w) <= GoInt.max_int ->
  tpWidth (positioner lr) = Width (detectTerminalCapabilities w) ->
  hoare (pinned evs (Some ds) l) (RenderMenu w lr envs selectedIndex header)
        (fun _ s => exists ds', pinned evs (Some ds') l s).
Proof.
  intros HW HP. unfold RenderMenu, renderSelectionChange.
  apply hoare_get_display.
  destruct (negb (initialized ds)); [apply hoare_ret; eauto |].
  cbv zeta.
  destruct (menuLines_total (newDisplayFormatter (detectTerminalLayout w))
              (useANSI lr) selectedIndex 0 envs
              ltac:(cbn [newDisplayFormatter layout detectTerminalLayout layoutWidth]; lia))
    as (lines & E).
  eapply hoare_liftP_bind; [exact E |].
  set (ds' := UpdateContent ds _ selectedIndex).
  apply hoare_modify_bind with (P' := pinned evs (Some ds') l).
  { intros s (H1 & H2 & H3). repeat split; assumption. }
  assert (F : hoare (pinned evs (Some ds') l) (renderFullContent w lr)
                (fun _ s => exists ds'0, pinned evs (Some ds'0) l s)).
  { eapply hoare_post; [| apply hoare_renderFullContent; lia].
    cbv beta. eauto. }
  destruct (contentChanged ds'); [exact F |].
  destruct (selectionChanged ds'); [exact F | apply hoare_ret; eauto].
Qed.

Lemma hoare_renderTail (w : World) (evs : list ReadEvent) (ds : DisplayState)
  (lr : LineRenderer) (envs : list Environment) (selectedIndex : Z)
  (header : gostring) :
  3 <= Width (detectTerminalCapabilities w) <= GoInt.max_int ->
  hoare (pinned evs (Some ds) (Some lr)) (renderTail w envs selectedIndex header)
        (fun _ s => ready evs s).
Proof.
  intros HW. unfold renderTail. cbv zeta.
  apply hoare_get_display.
  eapply hoare_liftP_bind; [reflexivity |].
  eapply hoare_modify_bind.
  { intros s (H1 & H2 & H3).
    instantiate (1 := pinned evs (Some _) (Some lr)).
    repeat split; first [eassumption | reflexivity]. }
  apply hoare_get_renderer.
  eapply hoare_liftP_bind; [reflexivity |].
  eapply hoare_modify_bind.
  { intros s (H1 & H2 & H3).
    instantiate (1 := pinned evs (Some _) (Some _)).
    repeat split; first [eassumption | reflexivity]. }
  eapply hoare_post; [| apply hoare_RenderMenu; [exact HW | reflexivity]].
  cbv beta. intros _ s (ds' & H1 & H2 & H3). split; [exact H1 |].
  rewrite H3. discriminate.
Qed.

Lemma hoare_renderMenuStatefully (w : World) (evs : list ReadEvent)
  (envs : list Environment) (selectedIndex : Z) (header : gostring)
  (ansi : bool) :
  3 <= Width (detectTerminalCapabilities w) <= GoInt.max_int ->
  hoare (ready evs) (renderMenuStatefully w envs selectedIndex header ansi)
        (fun _ s => ready evs s).
Proof.
  intros HW s [Hin Hp]. rewrite renderMenuStatefully_run.
  destruct (globalDisplayState s) as [ds |] eqn:G.
  - destruct (globalLineRenderer s) as [lr |] eqn:L;
      [| specialize (Hp eq_refl); discriminate].
    apply (hoare_renderTail w evs ds lr envs selectedIndex header HW).
    repeat split; assumption.
  - cbv zeta.
    refine (hoare_bind _ _ _ _ _
              (hoare_clearScreen w evs _ _ ltac:(lia))
              (fun _ => hoare_renderTail w evs _ _ envs selectedIndex header HW) _ _).
    repeat split. exact Hin.
Qed.

Lemma stdin_weight_keys (keys : list (list byte)) (rest : list ReadEvent) :
  (List.length keys <= stdin_weight (map RData keys ++ rest))%nat.
Proof.
  induction keys as [| k ks IH]; cbn [map app stdin_weight List.length]; lia.
Qed.

Lemma selectionLoop_replays (w : World)
  (display : list Environment -> Z -> M unit) (config : Config)
  (env : Environment) (err : option error) (rest : list ReadEvent)
  (keys : list (list byte)) :
  (forall envs i evs,
      hoare (ready evs) (display envs i) (fun _ s => ready evs s)) ->
  Forall (fun key => (List.length key <= 10)%nat) keys ->
  forall (fuel : nat) (selectedIndex : Z) (s : State),
    (List.length keys <= fuel)%nat ->
    ready (map RData keys ++ rest) s ->
    run_keys (Environments config) selectedIndex keys = Some (Return env err) ->
    fst (selectionLoop w display config fuel selectedIndex s) = Val (env, err).
Proof.
  intros Hd Hk. induction Hk as [| key keys Hlen Hk IH];
    intros fuel selectedIndex s Hf Hr Hrun; [discriminate |].
  destruct fuel as [| fuel]; [cbn [List.length] in Hf; lia |].
  cbn [selectionLoop]. unfold bind at 1.
  destruct (Hd (Environments config) selectedIndex _ s Hr) as ([] & s0 & E & [Hin Hp]).
  rewrite E. unfold bind at 1, os_Stdin_Read. rewrite Hin. cbn [map app].
  apply Nat.leb_le in Hlen. rewrite Hlen. cbn [run_keys] in Hrun.
  unfold bind at 1, liftP.
  destruct (handleKey (Environments config) selectedIndex key) as [[i | e r] |];
    [| injection Hrun as -> ->; reflexivity | discriminate].
  apply IH; [cbn [List.length] in Hf; lia | | exact Hrun].
  split; [reflexivity | exact Hp].
Qed.

Lemma cleanupDisplayState_returns (s : State) :
  exists s', cleanupDisplayState s = (Val tt, s').
Proof.
  unfold cleanupDisplayState, bind, get.
  destruct (globalDisplayState s); eexists; reflexivity.
Qed.

Lemma ensureRestore_returns (w : World) (ts : terminalState) (s : State) :
  exists ts' s', ensureRestore w ts s = (Val ts', s').
Proof.
  unfold ensureRestore, restore, term_Restore.
  destruct (restored ts); [eexists _, _; reflexivity |].
  destruct (oldState ts); [| eexists _, _; reflexivity].
  destruct (restoreErr w); eexists _, _; reflexivity.
Qed.

(** A deferred call that returns does not change the outcome. *)
Lemma with_defer_result {A : Type} (body : M A) (d : M unit) (s : State) :
  (forall s1, exists u s2, d s1 = (Val u, s2)) ->
  fst (with_defer body d s) = fst (body s).
Proof.
  intros Hd. unfold with_defer. destruct (body s) as [r s1].
  destruct (Hd s1) as (u & s2 & ->). reflexivity.
Qed.

(** The two deferred calls do not change what the loop returned. *)
Lemma guardedLoop_result (w : World)
  (display : list Environment -> Z -> M unit) (config : Config)
  (st : termState) (s : State) :
  fst (guardedLoop w display config st s)
  = fst (selectionLoop w display config (S (stdin_weight (stdin s))) 0 s).
Proof.
  unfold guardedLoop.
  rewrite with_defer_result.
  - rewrite with_defer_result; [reflexivity |].
    intros s1. destruct (cleanupDisplayState_returns s1) as (s2 & E).
    exists tt, s2. exact E.
  - intros s1.
    destruct (ensureRestore_returns w
                {| fd := 0; oldState := Some st; restored := false |} s1)
      as (ts' & s2 & E).
    exists tt, s2. unfold bind. rewrite E. reflexivity.
Qed.

Lemma caps_IsTerminal (w : World) :
  IsTerminal (detectTerminalCapabilities w) = stdinIsTerminal w.
Proof.
  unfold detectTerminalCapabilities.
  destruct (stdinIsTerminal w); [destruct (termSize w) as [[? ?] |] |]; reflexivity.
Qed.

Lemma caps_SupportsRaw (w : World) :
  stdinIsTerminal w = true -> makeRawOk w = true -> restoreErr w = None ->
  SupportsRaw (detectTerminalCapabilities w) = true.
Proof.
  intros H1 H2 H3. unfold detectTerminalCapabilities. rewrite H1, H2, H3.
  destruct (termSize w) as [[? ?] |]; reflexivity.
Qed.

(** With a working raw mode and at least two profiles, the selection is one
    of the two interactive loops, whichever the tier. *)
Lemma interactive_tier (w : World) (config : Config) (s : State) :
  stdinIsTerminal w = true -> makeRawOk w = true -> restoreErr w = None ->
  (2 <= List.length (Environments config))%nat ->
  exists display,
    (display = displayEnvironmentMenu w \/ display = displayBasicEnvironmentMenu w)
    /\ selectEnvironmentWithArrows w config s
       = guardedLoop w display config SavedState (set_ttyRaw true s).
Proof.
  intros H1 H2 H3 Hn. unfold selectEnvironmentWithArrows.
  replace (Z.of_nat (List.length (Environments config)) =? 0) with false
    by (symmetry; apply Z.eqb_neq; lia).
  replace (Z.of_nat (List.length (Environments config)) =? 1) with false
    by (symmetry; apply Z.eqb_neq; lia).
  rewrite caps_IsTerminal, H1, (caps_SupportsRaw w H1 H2 H3). cbn [negb andb].
  destruct (SupportsANSI (detectTerminalCapabilities w)
            && SupportsCursor (detectTerminalCapabilities w)).
  - exists (displayEnvironmentMenu w). split; [left; reflexivity |].
    unfold fullInteractiveSelection, term_MakeRaw. rewrite H2. reflexivity.
  - exists (displayBasicEnvironmentMenu w). split; [right; reflexivity |].
    unfold basicInteractiveSelection, term_MakeRaw. rewrite H2. reflexivity.
Qed.

(** X23: in a terminal with a working raw mode and at least 3 columns, and
    with at least two profiles, the interactive selection never panics while
    it renders and its outcome is that of [handleKey] folded over the
    successive reads: if the reads [keys] (of at most 10 bytes each, the size
    of the read buffer) lead [handleKey] from index 0 to a confirmation or a
    cancellation, that is what [selectEnvironmentWithArrows] returns, whatever
    is pending after them. *)
Theorem interactive_selection_replays_keys (w : World) (config : Config)
  (keys : list (list byte)) (rest : list ReadEvent) (env : Environment)
  (err : option error) (s : State) :
  stdinIsTerminal w = true -> makeRawOk w = true -> restoreErr w = None ->
  3 <= Width (detectTerminalCapabilities w) <= GoInt.max_int ->
  (2 <= List.length (Environments config))%nat ->
  globalDisplayState s = None ->
  stdin s = map RData keys ++ rest ->
  Forall (fun key => (List.length key <= 10)%nat) keys ->
  run_keys (Environments config) 0 keys = Some (Return env err) ->
  fst (selectEnvironmentWithArrows w config s) = Val (env, err).
Proof.
  intros H1 H2 H3 HW Hn G Hin Hk Hrun.
  destruct (interactive_tier w config s H1 H2 H3 Hn) as (display & Hd & ->).
  rewrite guardedLoop_result.
  apply (selectionLoop_replays w display config env err rest keys).
  - intros envs i evs.
    destruct Hd as [-> | ->]; apply hoare_renderMenuStatefully; exact HW.
  - exact Hk.
  - cbn [stdin set_ttyRaw]. rewrite Hin.
    pose proof (stdin_weight_keys keys rest). lia.
  - split; [exact Hin | intros []; exact G].
  - exact Hrun.
Qed.

Lemma interactive_selection_replays_keys_witness :
  fst (selectEnvironmentWithArrows (sample_world (Some (40, 24))) sample_config
         (initial_state (map RData [key_down; key_down; key_down; [x0d]] ++ [RErr])))
  = Val (sample_env "beta" "https://beta.example.com/v1" "gpt-5", None).
Proof.
  exact (interactive_selection_replays_keys (sample_world (Some (40, 24)))
           sample_config [key_down; key_down; key_down; [x0d]] [RErr]
           (sample_env "beta" "https://beta.example.com/v1" "gpt-5") None
           (initial_state (map RData [key_down; key_down; key_down; [x0d]] ++ [RErr]))
           eq_refl eq_refl eq_refl
           ltac:(vm_compute; split; discriminate)
           ltac:(vm_compute; lia)
           eq_refl eq_refl
           ltac:(repeat constructor)
           ltac:(vm_compute; reflexivity)).
Defined.

(** ** Cyclic navigation in the two tiers (C7) *)

Lemma index_env_nth_error (envs : list Environment) (i : Z) :
  0 <= i < Z.of_nat (List.length envs) ->
  exists env, index_env envs i = Some env /\ nth_error envs (Z.to_nat i) = Some env.
Proof.
  intros H. unfold index_env.
  replace ((0 <=? i) && (i <? Z.of_nat (List.length envs))) with true
    by (symmetry; apply andb_true_iff; split; [apply Z.leb_le | apply Z.ltb_lt]; lia).
  destruct (nth_error envs (Z.to_nat i)) as [env |] eqn:E; [eauto |].
  apply nth_error_None in E. lia.
Qed.

(** One round of the loop that reads an arrow: the menu is drawn, the key is
    consumed, and the loop goes on with the index [handleKey] computed. *)
Lemma selectionLoop_arrow_round (w : World)
  (display : list Environment -> Z -> M unit) (config : Config)
  (index index' : Z) (key : list byte) (fuel : nat) (rest : list ReadEvent)
  (s : State) :
  (forall envs i evs,
      hoare (ready evs) (display envs i) (fun _ s0 => ready evs s0)) ->
  (List.length key <= 10)%nat ->
  handleKey (Environments config) index key = Some (Continue index') ->
  (globalLineRenderer s = None -> globalDisplayState s = None) ->
  stdin s = RData key :: rest ->
  exists s1,
    stdin s1 = rest /\
    selectionLoop w display config (S fuel) index s
    = selectionLoop w display config fuel index' s1.
Proof.
  intros Hd Hlen Hk Hp Hin.
  destruct (Hd (Environments config) index (stdin s) s (conj eq_refl Hp))
    as ([] & s0 & E & (Hin0 & _)).
  exists (set_stdin rest s0). split; [reflexivity |].
  apply (selectionLoop_round w display config fuel index index' s s0 key rest);
    [exact E | rewrite Hin0; exact Hin | exact Hlen | exact Hk].
Qed.

(** C7: in the interactive tiers, for every profile count >= 2 (a slice
    length, hence far below 2^62) and every current index in [0, count), an
    up-arrow updates the selected index to (index - 1 + count) mod count and a
    down-arrow to (index + 1) mod count; up from 0 lands on count - 1 and down
    from count - 1 lands on 0.  This is shown on the loop of the two tiers
    itself, with the menu function of either tier (in a terminal at least 3
    columns wide, where rendering does not panic): [handleKey] computes the
    new index; the round that reads the arrow draws the menu, consumes the
    key and goes on with the new index; and Enter pressed next returns the
    profile at the new index. *)
Theorem interactive_tiers_cyclic (w : World)
  (display : list Environment -> Z -> M unit) (config : Config) (index : Z)
  (fuel : nat) (rest : list ReadEvent) (s : State) :
  let envs := Environments config in
  let count := Z.of_nat (List.length envs) in
  let up := (index - 1 + count) mod count in
  let down := (index + 1) mod count in
  display = displayEnvironmentMenu w \/ display = displayBasicEnvironmentMenu w ->
  3 <= Width (detectTerminalCapabilities w) <= GoInt.max_int ->
  2 <= count -> 2 * count <= GoInt.max_int ->
  0 <= index < count ->
  (globalLineRenderer s = None -> globalDisplayState s = None) ->
  handleKey envs index key_up = Some (Continue up) /\
  handleKey envs index key_down = Some (Continue down) /\
  (stdin s = RData key_up :: rest ->
   exists s1,
     stdin s1 = rest /\
     selectionLoop w display config (S fuel) index s
     = selectionLoop w display config fuel up s1) /\
  (stdin s = RData key_down :: rest ->
   exists s1,
     stdin s1 = rest /\
     selectionLoop w display config (S fuel) index s
     = selectionLoop w display config fuel down s1) /\
  (stdin s = RData key_up :: RData [x0d] :: rest ->
   exists env,
     nth_error envs (Z.to_nat up) = Some env /\
     fst (selectionLoop w display config (S (S fuel)) index s) = Val (env, None)) /\
  (stdin s = RData key_down :: RData [x0d] :: rest ->
   exists env,
     nth_error envs (Z.to_nat down) = Some env /\
     fst (selectionLoop w display config (S (S fuel)) index s) = Val (env, None)) /\
  (index = 0 -> up = count - 1) /\
  (index = count - 1 -> down = 0).
Proof.
  cbv zeta. set (count := Z.of_nat (List.length (Environments config))).
  intros Hdisp HW H2 Hmax Hi Hp.
  destruct (handleKey_arrows (Environments config) index H2 Hmax Hi)
    as (Hup & Hdown & Hzero & Hlast).
  fold count in Hup, Hdown, Hzero, Hlast.
  assert (Hd : forall envs i evs,
             hoare (ready evs) (display envs i) (fun _ s0 => ready evs s0))
    by (intros envs i evs;
        destruct Hdisp as [-> | ->]; apply hoare_renderMenuStatefully; exact HW).
  assert (Hrange_up : 0 <= (index - 1 + count) mod count < count)
    by (apply Z.mod_pos_bound; lia).
  assert (Hrange_down : 0 <= (index + 1) mod count < count)
    by (apply Z.mod_pos_bound; lia).
  assert (Enter : forall key index',
             (List.length key <= 10)%nat ->
             handleKey (Environments config) index key = Some (Continue index') ->
             0 <= index' < count ->
             stdin s = RData key :: RData [x0d] :: rest ->
             exists env,
               nth_error (Environments config) (Z.to_nat index') = Some env /\
               fst (selectionLoop w display config (S (S fuel)) index s)
               = Val (env, None)).
  { intros key index' Hlen Hk Hr Hin.
    destruct (index_env_nth_error (Environments config) index' Hr)
      as (env & Hie & Hnth).
    exists env. split; [exact Hnth |].
    apply (selectionLoop_replays w display config env None rest [key; [x0d]] Hd).
    - constructor; [exact Hlen | constructor; [cbn; lia | constructor]].
    - cbn [List.length]. lia.
    - split; [exact Hin | exact Hp].
    - cbn [run_keys]. rewrite Hk.
      destruct (handleKey_confirm_cancel (Environments config) index' env Hie)
        as (_ & Hcr & _).
      rewrite Hcr. reflexivity. }
  split; [exact Hup |]. split; [exact Hdown |].
  split; [intros Hin;
          exact (selectionLoop_arrow_round w display config index _ key_up fuel
                   rest s Hd ltac:(cbn; lia) Hup Hp Hin) |].
  split; [intros Hin;
          exact (selectionLoop_arrow_round w display config index _ key_down fuel
                   rest s Hd ltac:(cbn; lia) Hdown Hp Hin) |].
  split; [intros Hin; exact (Enter key_up _ ltac:(cbn; lia) Hup Hrange_up Hin) |].
  split; [intros Hin; exact (Enter key_down _ ltac:(cbn; lia) Hdown Hrange_down Hin) |].
  split.
  - intros H0. specialize (Hzero H0). rewrite Hup in Hzero.
    injection Hzero as E. exact E.
  - intros H0. specialize (Hlast H0). rewrite Hdown in Hlast.
    injection Hlast as E. exact E.
Qed.

Lemma interactive_tiers_cyclic_witness :
  exists env,
    nth_error (Environments sample_config) (Z.to_nat ((0 - 1 + 2) mod 2)) = Some env /\
    fst (selectionLoop (sample_world (Some (40, 24)))
           (displayEnvironmentMenu (sample_world (Some (40, 24))))
           sample_config 2 0 (initial_state [RData key_up; RData [x0d]]))
    = Val (env, None).
Proof.
  destruct (interactive_tiers_cyclic (sample_world (Some (40, 24)))
              (displayEnvironmentMenu (sample_world (Some (40, 24))))
              sample_config 0 O [] (initial_state [RData key_up; RData [x0d]])
              (or_introl eq_refl)
              ltac:(vm_compute; split; discriminate)
              ltac:(vm_compute; discriminate)
              ltac:(vm_compute; discriminate)
              ltac:(vm_compute; split; [discriminate | reflexivity])
              ltac:(intros _; reflexivity))
    as (_ & _ & _ & _ & H & _).
  exact (H eq_refl).
Defined.

(** ** A terminal narrower than the ellipsis *)

Lemma panics_bind_right {A B : Type} (P : State -> Prop) (m : M A)
  (Q : A -> State -> Prop) (k : A -> M B) :
  hoare P m Q -> (forall a, panics (Q a) (k a)) -> panics P (bind m k).
Proof.
  intros Hm Hk s Hs. destruct (Hm s Hs) as (a & s' & E & Hq).
  unfold bind. rewrite E. apply (Hk a s' Hq).
Qed.

Lemma panics_bind_left {A B : Type} (P : State -> Prop) (m : M A)
  (k : A -> M B) : panics P m -> panics P (bind m k).
Proof.
  intros Hm s Hs. specialize (Hm s Hs). unfold bind.
  destruct (m s) as [[a | |] s']; cbn in Hm; [discriminate | reflexivity | discriminate].
Qed.

Lemma panics_liftP_bind {A B : Type} (P : State -> Prop) (o : option A) (a : A)
  (k : A -> M B) : o = Some a -> panics P (k a) -> panics P (bind (liftP o) k).
Proof. intros E H s Hs. unfold bind, liftP. rewrite E. apply H, Hs. Qed.

Lemma panics_modify_bind {B : Type} (P P' : State -> Prop) (f : State -> State)
  (k : unit -> M B) :
  (forall s, P s -> P' (f s)) -> panics P' (k tt) -> panics P (bind (modify f) k).
Proof. intros Hf H s Hs. unfold bind, modify. apply H, Hf, Hs. Qed.

Lemma panics_get_display {B : Type} (evs : list ReadEvent)
  (d : option DisplayState) (l : option LineRenderer)
  (k : option DisplayState -> M B) :
  panics (pinned evs d l) (k d) ->
  panics (pinned evs d l) (bind (get globalDisplayState) k).
Proof.
  intros H s Hs. unfold bind, get.
  replace (globalDisplayState s) with d by (symmetry; apply Hs). apply H, Hs.
Qed.

Lemma panics_get_renderer {B : Type} (evs : list ReadEvent)
  (d : option DisplayState) (l : option LineRenderer)
  (k : option LineRenderer -> M B) :
  panics (pinned evs d l) (k l) ->
  panics (pinned evs d l) (bind (get globalLineRenderer) k).
Proof.
  intros H s Hs. unfold bind, get.
  replace (globalLineRenderer s) with l by (symmetry; apply Hs). apply H, Hs.
Qed.

(** The first render of a menu with a header longer than a terminal of fewer
    than 3 columns panics in [OverwriteLine]. *)
Lemma panics_RenderMenu (w : World) (evs : list ReadEvent) (ds : DisplayState)
  (l : option LineRenderer) (lr : LineRenderer) (envs : list Environment)
  (selectedIndex : Z) (header : gostring) :
  0 <= Width (detectTerminalCapabilities w) < 3 ->
  Width (detectTerminalCapabilities w) < len header ->
  tpWidth (positioner lr) = Width (detectTerminalCapabilities w) ->
  initialized ds = true -> currentLines ds = [] ->
  panics (pinned evs (Some ds) l) (RenderMenu w lr envs selectedIndex header).
Proof.
  intros HW HH HP Hi Hc. unfold RenderMenu, renderSelectionChange.
  apply panics_get_display. rewrite Hi. cbn [negb]. cbv zeta.
  destruct (menuLines_total (newDisplayFormatter (detectTerminalLayout w))
              (useANSI lr) selectedIndex 0 envs
              ltac:(cbn [newDisplayFormatter layout detectTerminalLayout layoutWidth];
                    unfold GoInt.max_int; lia))
    as (lines & E).
  eapply panics_liftP_bind; [exact E |].
  assert (Hh : gostring_eqb header (str "") = false).
  { destruct header; [cbn in HH; lia | reflexivity]. }
  rewrite Hh. cbn [app].
  set (ds' := UpdateContent ds (header :: lines) selectedIndex).
  assert (Hd : contentChanged ds' = true /\ currentLines ds' = header :: lines).
  { subst ds'. unfold UpdateContent. rewrite Hi, Hc. split; reflexivity. }
  destruct Hd as [Hch Hl].
  apply panics_modify_bind with (P' := pinned evs (Some ds') l).
  { intros s (H1 & H2 & H3). repeat split; assumption. }
  rewrite Hch. unfold renderFullContent.
  eapply panics_bind_right;
    [apply hoare_clearScreen; lia | intros []].
  apply panics_get_display. rewrite Hl. cbn [printLines].
  eapply panics_bind_right with (Q := fun _ => pinned evs (Some ds') l);
    [apply hoare_ret; auto | intros []].
  intros s _. unfold bind, liftP.
  rewrite OverwriteLine_narrow by (rewrite ?HP; lia). reflexivity.
Qed.

Lemma panics_renderMenuStatefully (w : World) (envs : list Environment)
  (selectedIndex : Z) (header : gostring) (ansi : bool) :
  0 <= Width (detectTerminalCapabilities w) < 3 ->
  Width (detectTerminalCapabilities w) < len header ->
  panics (fun s => globalDisplayState s = None)
         (renderMenuStatefully w envs selectedIndex header ansi).
Proof.
  intros HW HH s G. rewrite renderMenuStatefully_run, G. cbv zeta.
  set (ds := initializeDisplayState w).
  apply (panics_bind_right
           (pinned (stdin s) (Some ds) (Some (newLineRenderer ds ansi)))
           (clearScreen w)
           (fun _ => pinned (stdin s) (Some ds) (Some (newLineRenderer ds ansi))));
    [apply hoare_clearScreen; lia | | repeat split].
  intros []. unfold renderTail. cbv zeta.
  apply panics_get_display.
  eapply panics_liftP_bind; [reflexivity |].
  eapply panics_modify_bind.
  { intros s0 (H1 & H2 & H3).
    instantiate (1 := pinned (stdin s) (Some _) (Some _)).
    repeat split; first [eassumption | reflexivity]. }
  apply panics_get_renderer.
  eapply panics_liftP_bind; [reflexivity |].
  eapply panics_modify_bind.
  { intros s0 (H1 & H2 & H3).
    instantiate (1 := pinned (stdin s) (Some _) (Some _)).
    repeat split; first [eassumption | reflexivity]. }
  apply panics_RenderMenu; try assumption; reflexivity.
Qed.

(** X24: a terminal that reports fewer than 3 columns makes the interactive
    selection panic.  With a working raw mode and at least two profiles, the
    first render cuts the header (longer than the terminal is wide) to
    width-3 bytes, a negative slice bound, before any key is read; the
    selection ends in a run-time panic whatever is typed. *)
Theorem narrow_terminal_panics (w : World) (config : Config) (s : State) :
  stdinIsTerminal w = true -> makeRawOk w = true -> restoreErr w = None ->
  0 <= Width (detectTerminalCapabilities w) < 3 ->
  (2 <= List.length (Environments config))%nat ->
  globalDisplayState s = None ->
  fst (selectEnvironmentWithArrows w config s) = Panic.
Proof.
  intros H1 H2 H3 HW Hn G.
  destruct (interactive_tier w config s H1 H2 H3 Hn) as (display & Hd & ->).
  rewrite guardedLoop_result. cbn [selectionLoop].
  apply (panics_bind_left (fun s0 => globalDisplayState s0 = None)); [| exact G].
  destruct Hd as [-> | ->];
    (apply panics_renderMenuStatefully; [exact HW |]);
    apply Z.lt_le_trans with 3; try apply HW; vm_compute; discriminate.
Qed.

Lemma narrow_terminal_panics_witness :
  fst (selectEnvironmentWithArrows (sample_world (Some (0, 0))) sample_config
         (initial_state [RData [x0d]])) = Panic.
Proof.
  exact (narrow_terminal_panics (sample_world (Some (0, 0))) sample_config
           (initial_state [RData [x0d]])
           eq_refl eq_refl eq_refl
           ltac:(vm_compute; split; [discriminate | reflexivity])
           ltac:(vm_compute; lia)
           eq_refl).
Defined.

(** ** The numbered tier *)

(** *** Decimal numbers as [fmt] prints and [strconv.Atoi] reads them *)

Lemma fmt_d_pos (p : positive) : fmt_d (Z.pos p) = digits_of (Pos.to_uint p).
Proof.
  unfold fmt_d, digits_of. cbn [Z.to_int NilZero.string_of_int].
  unfold NilZero.string_of_uint.
  pose proof (DecimalPos.Unsigned.to_uint_nonnil p) as H.
  destruct (Pos.to_uint p); [contradiction | reflexivity ..].
Qed.

Lemma fmt_d_neg (p : positive) :
  fmt_d (Z.neg p) = "-"%byte :: digits_of (Pos.to_uint p).
Proof.
  unfold fmt_d, digits_of. cbn [Z.to_int NilZero.string_of_int].
  unfold NilZero.string_of_uint.
  pose proof (DecimalPos.Unsigned.to_uint_nonnil p) as H.
  destruct (Pos.to_uint p); [contradiction | reflexivity ..].
Qed.

Lemma digits_of_length (d : Decimal.uint) :
  List.length (digits_of d) = Decimal.nb_digits d.
Proof.
  induction d; cbn [Decimal.nb_digits]; [reflexivity | ..];
    (change (List.length (digits_of d) = Decimal.nb_digits d) in IHd);
    unfold digits_of, str, list_byte_of_string in *;
    cbn [NilEmpty.string_of_uint list_ascii_of_string map List.length];
    rewrite IHd; reflexivity.
Qed.

Lemma double_digits (d : Decimal.uint) :
  (Decimal.nb_digits (Decimal.Little.double d) <= S (Decimal.nb_digits d)
   /\ Decimal.nb_digits (Decimal.Little.succ_double d) <= S (Decimal.nb_digits d))%nat.
Proof.
  induction d as [| d [IH1 IH2] | d [IH1 IH2] | d [IH1 IH2] | d [IH1 IH2]
                  | d [IH1 IH2] | d [IH1 IH2] | d [IH1 IH2] | d [IH1 IH2]
                  | d [IH1 IH2] | d [IH1 IH2]];
    cbn [Decimal.Little.double Decimal.Little.succ_double Decimal.nb_digits];
    lia.
Qed.

Lemma to_little_uint_digits (p : positive) :
  (Decimal.nb_digits (Pos.to_little_uint p) <= Pos.size_nat p)%nat.
Proof.
  induction p as [p IH | p IH |]; cbn [Pos.to_little_uint Pos.size_nat].
  - pose proof (proj2 (double_digits (Pos.to_little_uint p))). lia.
  - pose proof (proj1 (double_digits (Pos.to_little_uint p))). lia.
  - cbn. lia.
Qed.

Lemma pos_digits_bound (p : positive) :
  Z.pos p <= 2 ^ 63 -> (List.length (digits_of (Pos.to_uint p)) <= 65)%nat.
Proof.
  intros H. rewrite digits_of_length. unfold Pos.to_uint.
  rewrite DecimalFacts.nb_digits_rev.
  pose proof (to_little_uint_digits p) as H1.
  assert (H2 : (Pos.size_nat p <= Pos.size_nat (2 ^ 64))%nat)
    by (apply Pos.size_nat_monotone; lia).
  change (Pos.size_nat (2 ^ 64)) with 65%nat in H2. lia.
Qed.

(** A number that fits [int] prints in at most 66 bytes. *)
Lemma fmt_d_short (z : Z) : GoInt.in_range z -> len (fmt_d z) <= 66.
Proof.
  unfold GoInt.in_range, GoInt.min_int, GoInt.max_int, len. intros H.
  destruct z as [| p | p].
  - cbn. lia.
  - rewrite fmt_d_pos. pose proof (pos_digits_bound p ltac:(lia)). lia.
  - rewrite fmt_d_neg. cbn [List.length].
    pose proof (pos_digits_bound p ltac:(lia)). lia.
Qed.

Ltac digit_step IH :=
  match goal with
  | |- context [digits_of (?D ?d)] =>
      let b := eval vm_compute in (hd x00 (digits_of (D Decimal.Nil))) in
      change (digits_of (D d)) with (b :: digits_of d)
  end.

Lemma parse_digits_acc (d : Decimal.uint) (acc : positive) :
  parse_digits (Z.pos acc) (digits_of d) = Some (Z.pos (Pos.of_uint_acc d acc)).
Proof.
  revert acc. induction d as [| d IH | d IH | d IH | d IH | d IH | d IH | d IH
                              | d IH | d IH | d IH]; intros acc;
    [reflexivity | ..];
    digit_step IH; cbn [parse_digits Pos.of_uint_acc];
    match goal with
    | |- context [digit_value ?b] =>
        let v := eval vm_compute in (digit_value b) in
        change (digit_value b) with v
    end;
    cbv iota beta;
    match goal with
    | |- parse_digits ?z _ = Some (Z.pos (Pos.of_uint_acc _ ?q)) =>
        replace z with (Z.pos q) by lia
    end;
    apply IH.
Qed.

Lemma parse_digits_zero (d : Decimal.uint) :
  parse_digits 0 (digits_of d) = Some (Z.of_N (Pos.of_uint d)).
Proof.
  induction d as [| d IH | d IH | d IH | d IH | d IH | d IH | d IH
                  | d IH | d IH | d IH];
    [reflexivity | ..];
    digit_step IH; cbn [parse_digits Pos.of_uint];
    match goal with
    | |- context [digit_value ?b] =>
        let v := eval vm_compute in (digit_value b) in
        change (digit_value b) with v
    end;
    cbv iota beta;
    first [ exact IH
          | match goal with
            | |- parse_digits ?z _ = Some (Z.of_N (N.pos (Pos.of_uint_acc _ ?q))) =>
                change z with (Z.pos q)
            end;
            apply parse_digits_acc ].
Qed.

Lemma digits_of_digits (d : Decimal.uint) :
  Forall (fun b => is_digit b = true) (digits_of d).
Proof.
  induction d as [| d IH | d IH | d IH | d IH | d IH | d IH | d IH
                  | d IH | d IH | d IH];
    [constructor | ..];
    digit_step IH; (constructor; [reflexivity | exact IH]).
Qed.

Lemma digits_of_nonempty (p : positive) : digits_of (Pos.to_uint p) <> [].
Proof.
  intros E. apply (f_equal (@List.length byte)) in E.
  rewrite digits_of_length in E. cbn [List.length] in E.
  apply DecimalFacts.nb_digits_0 in E. exact (DecimalPos.Unsigned.to_uint_nonnil p E).
Qed.

(** [strconv.Atoi] reads back what [%d] prints for a positive [int]. *)
Lemma strconv_Atoi_fmt_d (z : Z) :
  0 < z <= GoInt.max_int -> strconv_Atoi (fmt_d z) = inr z.
Proof.
  intros H. destruct z as [| p | p]; try lia. rewrite fmt_d_pos.
  pose proof (digits_of_digits (Pos.to_uint p)) as Hd.
  pose proof (digits_of_nonempty p) as Hn.
  pose proof (parse_digits_zero (Pos.to_uint p)) as Hp.
  rewrite DecimalPos.Unsigned.of_to in Hp. cbn [Z.of_N] in Hp.
  destruct (digits_of (Pos.to_uint p)) as [| b t]; [contradiction |].
  apply Forall_cons_iff in Hd. destruct Hd as [Hb _].
  assert (R : GoInt.in_rangeb (Z.pos p) = true)
    by (apply in_rangeb_spec; unfold GoInt.in_range, GoInt.min_int; lia).
  unfold strconv_Atoi.
  destruct b; try discriminate Hb; cbv beta iota; rewrite Hp, R; reflexivity.
Qed.

Lemma digit_not_space (b : byte) (t : list byte) :
  is_digit b = true -> space_width (b :: t) = O /\ space_width_rev (b :: t) = O.
Proof. destruct b; intros H; try discriminate H; split; reflexivity. Qed.

Lemma trim_with_digit (width : list byte -> nat) (fuel : nat) (s : list byte) :
  width s = O -> trim_with width fuel s = s.
Proof. intros H. destruct fuel; cbn [trim_with]; [| rewrite H]; reflexivity. Qed.

Lemma trim_with_step (width : list byte -> nat) (fuel k : nat) (s : list byte) :
  width s = S k ->
  trim_with width (S fuel) s = trim_with width fuel (skipn (S k) s).
Proof. intros H. cbn [trim_with]. rewrite H. reflexivity. Qed.

(** [strings.TrimSpace] strips the newline that ends a line of digits. *)
Lemma strings_TrimSpace_digits (digits : list byte) :
  digits <> [] -> Forall (fun b => is_digit b = true) digits ->
  strings_TrimSpace (digits ++ newline) = digits.
Proof.
  intros Hn Hd. unfold strings_TrimSpace. cbv zeta.
  destruct digits as [| b t]; [contradiction |].
  rewrite (trim_with_digit space_width)
    by (apply (digit_not_space b), (Forall_inv Hd)).
  change newline with [x0a]. rewrite length_app, rev_app_distr.
  apply Forall_rev in Hd. rewrite <- (rev_involutive (b :: t)) at 3.
  set (r := rev (b :: t)) in *.
  change (rev [x0a] ++ r) with (x0a :: r).
  cbn [List.length]. rewrite Nat.add_comm. cbn [Nat.add].
  rewrite (trim_with_step space_width_rev _ O) by reflexivity. cbn [skipn].
  rewrite trim_with_digit; [reflexivity |].
  destruct r as [| c r']; [reflexivity |].
  apply (digit_not_space c), (Forall_inv Hd).
Qed.

Lemma find_sub_newline (line more : list byte) :
  Forall (fun b => b <> x0a) line ->
  find_sub [x0a] (line ++ x0a :: more) = Some (List.length line).
Proof.
  induction 1 as [| b t Hb Ht IH]; [reflexivity |].
  cbn [app find_sub has_prefix List.length].
  replace (byte_eqb x0a b) with false
    by (destruct b; try reflexivity; contradiction Hb; reflexivity).
  cbn [andb]. rewrite IH. reflexivity.
Qed.

Lemma digit_not_newline (digits : list byte) :
  Forall (fun b => is_digit b = true) digits -> Forall (fun b => b <> x0a) digits.
Proof.
  apply Forall_impl. intros b H E. subst b. discriminate H.
Qed.

(** *** Reading one line *)

Lemma hoare_printOptions (evs : list ReadEvent) (d : option DisplayState)
  (l : option LineRenderer) (formatter : DisplayFormatter) (i : Z)
  (envs : list Environment) :
  0 <= layoutWidth (layout formatter) <= GoInt.max_int ->
  hoare (pinned evs d l) (printOptions formatter i envs) (fun _ => pinned evs d l).
Proof.
  intros HW. revert i. induction envs as [| env rest IH]; intros i;
    cbn [printOptions]; [apply hoare_ret; auto |]. cbv zeta.
  destruct (formatSingleLine_prefix_aux formatter
              (fmt_d (GoInt.add i 1) ++ str ". ") env HW) as (line & E).
  { rewrite len_app. pose proof (fmt_d_short _ (wrap_in_range (i + 1))) as H.
    unfold GoInt.add. change (len (str ". ")) with 2.
    unfold GoInt.max_int. lia. }
  eapply hoare_liftP_bind; [exact E |].
  eapply hoare_bind; [apply hoare_fmt_Print | intros []; apply IH].
Qed.

Lemma firstn_line (line more : list byte) :
  firstn (S (List.length line)) (line ++ x0a :: more) = line ++ [x0a].
Proof.
  induction line as [| b t IH]; [reflexivity |].
  cbn [List.length app]. rewrite firstn_cons, IH. reflexivity.
Qed.

(** The first read brings a whole line: [ReadString] returns it with its
    newline and leaves the other pending reads alone. *)
Lemma bufio_ReadString_line (fuel : nat) (line more : list byte)
  (rest : list ReadEvent) (s : State) :
  stdin s = RData (line ++ x0a :: more) :: rest ->
  (List.length (line ++ x0a :: more) <= bufio_size)%nat ->
  Forall (fun b => b <> x0a) line ->
  bufio_ReadString (S fuel) O [] s
  = (Val (line ++ [x0a], None), set_stdin rest s).
Proof.
  intros Hin Hlen Hline. cbn [bufio_ReadString]. cbv zeta.
  change (Nat.eqb 0 bufio_size) with false. cbv iota.
  rewrite Nat.sub_0_r. unfold bind at 1.
  assert (F : bufio_fill 100 bufio_size s
              = (Val (inr (line ++ x0a :: more)), set_stdin rest s)).
  { change 100%nat with (S 99). cbn [bufio_fill]. unfold bind, os_Stdin_Read.
    rewrite Hin. apply Nat.leb_le in Hlen. rewrite Hlen.
    destruct line; reflexivity. }
  rewrite F. rewrite (find_sub_newline line more Hline).
  rewrite firstn_line. reflexivity.
Qed.

Lemma regularInput_line (prompt line more : list byte)
  (rest : list ReadEvent) (s : State) :
  stdin s = RData (line ++ x0a :: more) :: rest ->
  (List.length (line ++ x0a :: more) <= bufio_size)%nat ->
  Forall (fun b => b <> x0a) line ->
  regularInput prompt s
  = (Val (strings_TrimSpace (line ++ [x0a]), None),
     set_stdin rest (set_stdout (stdout s ++ prompt) s)).
Proof.
  intros Hin Hlen Hline. unfold regularInput.
  unfold bind at 1, fmt_Print, modify. unfold bind at 1, get. unfold bind at 1.
  rewrite (bufio_ReadString_line _ line more rest) by assumption.
  reflexivity.
Qed.

Lemma index_env_nth (envs : list Environment) (k : nat) (env : Environment) :
  nth_error envs k = Some env -> index_env envs (Z.of_nat k) = Some env.
Proof.
  intros H. unfold index_env.
  assert (k < List.length envs)%nat by (apply nth_error_Some; congruence).
  replace ((0 <=? Z.of_nat k) && (Z.of_nat k <? Z.of_nat (List.length envs)))
    with true
    by (symmetry; apply andb_true_iff; split; [apply Z.leb_le | apply Z.ltb_lt]; lia).
  rewrite Nat2Z.id. exact H.
Qed.

(** Whatever the number of profiles, the typed label selects its profile. *)
Lemma typed_number_result (w : World) (config : Config) (k : nat)
  (env : Environment) (rest : list ReadEvent) (s : State) :
  0 <= Width (detectTerminalCapabilities w) <= GoInt.max_int ->
  Z.of_nat (List.length (Environments config)) <= GoInt.max_int ->
  nth_error (Environments config) k = Some env ->
  stdin s = RData (fmt_d (Z.of_nat k + 1) ++ newline) :: rest ->
  fst (selectEnvironmentOriginal w config s) = Val (env, None).
Proof.
  intros HW Hc Hk Hin. unfold selectEnvironmentOriginal. cbv zeta.
  assert (Hlt : (k < List.length (Environments config))%nat)
    by (apply nth_error_Some; congruence).
  replace (Z.of_nat (List.length (Environments config)) =? 0) with false
    by (symmetry; apply Z.eqb_neq; lia).
  destruct (Z.of_nat (List.length (Environments config)) =? 1) eqn:E1.
  - apply Z.eqb_eq in E1. assert (k = O) by lia. subst k.
    pose proof (index_env_nth _ O env Hk) as Hi. cbn [Z.of_nat] in Hi.
    unfold bind, liftP. rewrite Hi. reflexivity.
  - unfold bind at 1, fmt_Println, fmt_Print, modify.
    set (s1 := set_stdout _ s).
    destruct (hoare_printOptions (stdin s) (globalDisplayState s)
                (globalLineRenderer s)
                (newDisplayFormatter (detectTerminalLayout w)) 0
                (Environments config)
                ltac:(cbn [newDisplayFormatter layout detectTerminalLayout layoutWidth];
                      exact HW)
                s1 ltac:(repeat split))
      as ([] & s2 & E2 & (H2 & _)).
    unfold bind at 1. rewrite E2.
    assert (Hz : 0 < Z.of_nat k + 1 <= GoInt.max_int) by lia.
    destruct (Z.of_nat k + 1) as [| p | p] eqn:Ep; try lia.
    rewrite fmt_d_pos in Hin.
    pose proof (digits_of_digits (Pos.to_uint p)) as Hd.
    unfold bind at 1.
    rewrite (regularInput_line _ (digits_of (Pos.to_uint p)) [] rest s2).
    + rewrite strings_TrimSpace_digits
        by (try apply digits_of_nonempty; exact Hd).
      rewrite <- fmt_d_pos, strconv_Atoi_fmt_d by lia.
      replace ((Z.pos p <? 1)
               || (Z.pos p >? Z.of_nat (List.length (Environments config))))
        with false
        by (symmetry; apply orb_false_iff; split;
            [apply Z.ltb_ge | rewrite Z.gtb_ltb; apply Z.ltb_ge]; lia).
      unfold bind, liftP.
      replace (GoInt.sub (Z.pos p) 1) with (Z.of_nat k)
        by (unfold GoInt.sub; rewrite wrap_id;
            [lia | unfold GoInt.in_range, GoInt.min_int; lia]).
      rewrite (index_env_nth _ k env Hk). reflexivity.
    + rewrite H2. exact Hin.
    + pose proof (pos_digits_bound p ltac:(unfold GoInt.max_int in Hz; lia)).
      rewrite length_app. cbn [List.length]. unfold bufio_size. lia.
    + apply digit_not_newline, Hd.
Qed.

(** What the loop of the numbered menu writes: one line per profile, in
    order, each the profile formatted behind its label (position + 1, a
    point and a space) and followed by a newline. *)
Lemma printOptions_output (formatter : DisplayFormatter)
  (envs : list Environment) :
  0 <= layoutWidth (layout formatter) <= GoInt.max_int ->
  forall (i : Z) (s : State),
    0 <= i -> i + Z.of_nat (List.length envs) <= GoInt.max_int ->
    exists lines,
      printOptions formatter i envs s
      = (Val tt,
         set_stdout (stdout s ++ List.concat (map (fun l => l ++ newline) lines)) s) /\
      List.length lines = List.length envs /\
      forall j env_j,
        nth_error envs j = Some env_j ->
        exists tail,
          nth_error lines j
          = Some ((fmt_d (i + Z.of_nat j + 1) ++ str ". ") ++ tail) /\
          formatSingleLine formatter (fmt_d (i + Z.of_nat j + 1) ++ str ". ") env_j
          = Some ((fmt_d (i + Z.of_nat j + 1) ++ str ". ") ++ tail).
Proof.
  intros HW. induction envs as [| env rest IH]; intros i s Hi Hmax.
  - exists []. cbn [printOptions map List.concat List.length].
    rewrite app_nil_r. split; [destruct s; reflexivity |].
    split; [reflexivity |]. intros [| j] env_j H; discriminate H.
  - cbn [List.length] in Hmax. unfold GoInt.max_int in Hmax.
    cbn [printOptions]. cbv zeta.
    assert (Hadd : GoInt.add i 1 = i + 1) by (unwrap; reflexivity).
    rewrite Hadd.
    destruct (formatSingleLine_prefix_aux formatter
                (fmt_d (i + 1) ++ str ". ") env HW) as (tail & E).
    { rewrite len_app.
      pose proof (fmt_d_short (i + 1)
                    ltac:(unfold GoInt.in_range, GoInt.min_int, GoInt.max_int; lia)).
      change (len (str ". ")) with 2. unfold GoInt.max_int. lia. }
    unfold bind at 1, liftP. rewrite E.
    unfold bind at 1, fmt_Println, fmt_Print, modify.
    destruct (IH (i + 1)
                (set_stdout
                   (stdout s ++ ((fmt_d (i + 1) ++ str ". ") ++ tail) ++ newline) s)
                ltac:(lia) ltac:(unfold GoInt.max_int; lia))
      as (lines & Erun & Hlen & Hnth).
    exists (((fmt_d (i + 1) ++ str ". ") ++ tail) :: lines).
    split; [| split].
    + rewrite Erun. cbn [map List.concat]. unfold set_stdout.
      cbn [stdin stdout stderr ttyRaw globalDisplayState globalLineRenderer].
      rewrite <- !app_assoc. reflexivity.
    + cbn [List.length]. rewrite Hlen. reflexivity.
    + intros [| j] env_j H.
      * cbn [nth_error] in H. injection H as <-. exists tail.
        cbn [nth_error Z.of_nat]. rewrite Z.add_0_r. split; [reflexivity | exact E].
      * cbn [nth_error] in H. destruct (Hnth j env_j H) as (tail_j & H1 & H2).
        exists tail_j. cbn [nth_error].
        replace (i + Z.of_nat (S j) + 1) with (i + 1 + Z.of_nat j + 1) by lia.
        split; assumption.
Qed.

(** X25: the numbers of the numbered menu are the numbers it accepts.  When
    the line typed is the number [k+1] of the profile at position [k],
    [selectEnvironmentOriginal] returns exactly that profile, without error.
    With two profiles or more it first prints the menu: the heading, one
    line per profile in order, the line of the profile at position [i] being
    that profile formatted behind the label [i+1], and the prompt; it
    consumes the typed line and nothing else, and changes nothing else in the
    state. *)
Theorem typed_number_selects_profile (w : World) (config : Config) (k : nat)
  (env : Environment) (rest : list ReadEvent) (s : State) :
  0 <= Width (detectTerminalCapabilities w) <= GoInt.max_int ->
  Z.of_nat (List.length (Environments config)) <= GoInt.max_int ->
  nth_error (Environments config) k = Some env ->
  stdin s = RData (fmt_d (Z.of_nat k + 1) ++ newline) :: rest ->
  fst (selectEnvironmentOriginal w config s) = Val (env, None) /\
  ((2 <= List.length (Environments config))%nat ->
   exists lines,
     List.length lines = List.length (Environments config) /\
     (forall i env_i,
         nth_error (Environments config) i = Some env_i ->
         exists tail,
           nth_error lines i
           = Some ((fmt_d (Z.of_nat i + 1) ++ str ". ") ++ tail) /\
           formatSingleLine (newDisplayFormatter (detectTerminalLayout w))
             (fmt_d (Z.of_nat i + 1) ++ str ". ") env_i
           = Some ((fmt_d (Z.of_nat i + 1) ++ str ". ") ++ tail)) /\
     selectEnvironmentOriginal w config s
     = (Val (env, None),
        set_stdin rest
          (set_stdout
             (stdout s ++ str "Select environment:" ++ newline
              ++ List.concat (map (fun l => l ++ newline) lines)
              ++ str "Enter number (1-"
              ++ fmt_d (Z.of_nat (List.length (Environments config)))
              ++ str "): ") s))).
Proof.
  intros HW Hc Hk Hin.
  split; [exact (typed_number_result w config k env rest s HW Hc Hk Hin) |].
  intros H2. unfold selectEnvironmentOriginal. cbv zeta.
  assert (Hlt : (k < List.length (Environments config))%nat)
    by (apply nth_error_Some; congruence).
  replace (Z.of_nat (List.length (Environments config)) =? 0) with false
    by (symmetry; apply Z.eqb_neq; lia).
  replace (Z.of_nat (List.length (Environments config)) =? 1) with false
    by (symmetry; apply Z.eqb_neq; lia).
  unfold bind at 1, fmt_Println, fmt_Print, modify.
  set (s1 := set_stdout _ s).
  destruct (printOptions_output (newDisplayFormatter (detectTerminalLayout w))
              (Environments config)
              ltac:(cbn [newDisplayFormatter layout detectTerminalLayout layoutWidth];
                    exact HW)
              0 s1 ltac:(lia) ltac:(lia))
    as (lines & Erun & Hlen & Hnth).
  exists lines. split; [exact Hlen |]. split.
  { intros i env_i Hi. destruct (Hnth i env_i Hi) as (tail & H1 & H2').
    exists tail. cbn [Z.add] in H1, H2'. split; assumption. }
  unfold bind at 1. rewrite Erun.
  assert (Hz : 0 < Z.of_nat k + 1 <= GoInt.max_int) by lia.
  destruct (Z.of_nat k + 1) as [| p | p] eqn:Ep; try lia.
  rewrite fmt_d_pos in Hin.
  pose proof (digits_of_digits (Pos.to_uint p)) as Hd.
  unfold bind at 1.
  rewrite (regularInput_line _ (digits_of (Pos.to_uint p)) [] rest).
  - rewrite strings_TrimSpace_digits
      by (try apply digits_of_nonempty; exact Hd).
    rewrite <- fmt_d_pos, strconv_Atoi_fmt_d by lia.
    replace ((Z.pos p <? 1)
             || (Z.pos p >? Z.of_nat (List.length (Environments config))))
      with false
      by (symmetry; apply orb_false_iff; split;
          [apply Z.ltb_ge | rewrite Z.gtb_ltb; apply Z.ltb_ge]; lia).
    unfold bind, liftP.
    replace (GoInt.sub (Z.pos p) 1) with (Z.of_nat k)
      by (unfold GoInt.sub; rewrite wrap_id;
          [lia | unfold GoInt.in_range, GoInt.min_int; lia]).
    rewrite (index_env_nth _ k env Hk). unfold ret. f_equal.
    subst s1. unfold set_stdin, set_stdout.
    cbn [stdin stdout stderr ttyRaw globalDisplayState globalLineRenderer].
    rewrite <- !app_assoc. reflexivity.
  - subst s1. cbn [stdin set_stdout]. exact Hin.
  - pose proof (pos_digits_bound p ltac:(unfold GoInt.max_int in Hz; lia)).
    rewrite length_app. cbn [List.length]. unfold bufio_size. lia.
  - apply digit_not_newline, Hd.
Qed.

Lemma typed_number_selects_profile_witness :
  fst (selectEnvironmentOriginal (sample_world None) sample_config
         (initial_state [RData (fmt_d (Z.of_nat 1 + 1) ++ newline)]))
  = Val (sample_env "beta" "https://beta.example.com/v1" "gpt-5", None) /\
  exists lines,
    List.length lines = List.length (Environments sample_config) /\
    stdout (snd (selectEnvironmentOriginal (sample_world None) sample_config
                   (initial_state [RData (fmt_d (Z.of_nat 1 + 1) ++ newline)])))
    = str "Select environment:" ++ newline
      ++ List.concat (map (fun l => l ++ newline) lines)
      ++ str "Enter number (1-2): ".
Proof.
  destruct (typed_number_selects_profile (sample_world None) sample_config 1
              (sample_env "beta" "https://beta.example.com/v1" "gpt-5") []
              (initial_state [RData (fmt_d (Z.of_nat 1 + 1) ++ newline)])
              ltac:(vm_compute; split; discriminate)
              ltac:(vm_compute; discriminate)
              eq_refl eq_refl) as [R M].
  split; [exact R |].
  destruct (M ltac:(vm_compute; lia)) as (lines & Hlen & _ & Erun).
  exists lines. split; [exact Hlen |]. rewrite Erun. reflexivity.
Defined.

(** *** Whatever is typed *)

Lemma unfailing_bind {A B : Type} (m : M A) (k : A -> M B) :
  unfailing m -> (forall a, unfailing (k a)) -> unfailing (bind m k).
Proof.
  intros Hm Hk s. specialize (Hm s). unfold bind.
  destruct (m s) as [[a | |] s']; cbn [fst] in *;
    [apply Hk | contradiction | discriminate].
Qed.

Lemma unfailing_ret {A : Type} (a : A) : unfailing (ret a).
Proof. intros s. discriminate. Qed.

Lemma unfailing_os_Stdin_Read (n : nat) : unfailing (os_Stdin_Read n).
Proof.
  intros s. unfold os_Stdin_Read.
  destruct (stdin s) as [| [bs |] rest]; [discriminate | | discriminate].
  destruct (Nat.leb (List.length bs) n); discriminate.
Qed.

Lemma unfailing_bufio_fill (tries room : nat) : unfailing (bufio_fill tries room).
Proof.
  induction tries as [| tries IH]; cbn [bufio_fill]; [apply unfailing_ret |].
  apply unfailing_bind; [apply unfailing_os_Stdin_Read |].
  intros [e | [| b bs]]; [apply unfailing_ret | exact IH | apply unfailing_ret].
Qed.

Lemma unfailing_bufio_ReadString (fuel buffered : nat) (acc : list byte) :
  unfailing (bufio_ReadString fuel buffered acc).
Proof.
  revert buffered acc. induction fuel as [| fuel IH]; intros buffered acc;
    cbn [bufio_ReadString]; [intros s; discriminate |]. cbv zeta.
  apply unfailing_bind; [apply unfailing_bufio_fill |].
  intros [e | bs]; [apply unfailing_ret |].
  destruct (find_sub [x0a] bs); [apply unfailing_ret | apply IH].
Qed.

Lemma regularInput_returns (prompt : gostring) (s : State) :
  exists input err s', regularInput prompt s = (Val (input, err), s').
Proof.
  assert (U : unfailing (regularInput prompt)).
  { unfold regularInput.
    apply unfailing_bind; [intros s0; discriminate | intros []].
    apply unfailing_bind; [intros s0; discriminate | intros fuel].
    apply unfailing_bind; [apply unfailing_bufio_ReadString | intros [input err]].
    destruct err; apply unfailing_ret. }
  pose proof (U s) as Hu. pose proof (funded_regularInput prompt s) as Hf.
  destruct (regularInput prompt s) as [[[input err] | |] s']; cbn [fst] in *;
    [eauto | contradiction | contradiction].
Qed.

Lemma strconv_Atoi_in_range (text : gostring) (n : Z) :
  strconv_Atoi text = inr n -> GoInt.in_range n.
Proof.
  unfold strconv_Atoi.
  destruct (match text with
            | "-"%byte :: d => (true, d)
            | "+"%byte :: d => (false, d)
            | _ => (false, text)
            end) as [neg digits].
  destruct digits as [| b t]; [discriminate |].
  destruct (parse_digits 0 (b :: t)) as [v |]; [| discriminate].
  destruct (GoInt.in_rangeb (if neg then - v else v)) eqn:R; [| discriminate].
  intros E. injection E as <-. apply in_rangeb_spec, R.
Qed.

Lemma index_env_in (envs : list Environment) (i : Z) :
  0 <= i < Z.of_nat (List.length envs) ->
  exists env, index_env envs i = Some env /\ In env envs.
Proof.
  intros H. unfold index_env.
  replace ((0 <=? i) && (i <? Z.of_nat (List.length envs))) with true
    by (symmetry; apply andb_true_iff; split; [apply Z.leb_le | apply Z.ltb_lt]; lia).
  destruct (nth_error envs (Z.to_nat i)) as [env |] eqn:E.
  - exists env. split; [reflexivity | exact (nth_error_In _ _ E)].
  - apply nth_error_None in E. lia.
Qed.

(** X26: whatever is pending on standard input (a number, text, an empty
    line, a read error, end of file), the numbered selection does not panic
    and returns either an error together with the zero [Environment], or no
    error together with one of the configured profiles: the index it uses is
    always inside the list. *)
Theorem numbered_selection_is_safe (w : World) (config : Config) (s : State) :
  0 <= Width (detectTerminalCapabilities w) <= GoInt.max_int ->
  exists env err s',
    selectEnvironmentOriginal w config s = (Val (env, err), s') /\
    match err with
    | Some _ => env = emptyEnvironment
    | None => In env (Environments config)
    end.
Proof.
  intros HW. unfold selectEnvironmentOriginal. cbv zeta.
  destruct (Z.of_nat (List.length (Environments config)) =? 0) eqn:E0;
    [eexists _, _, _; split; [reflexivity | reflexivity] |].
  apply Z.eqb_neq in E0.
  destruct (Z.of_nat (List.length (Environments config)) =? 1) eqn:E1.
  - destruct (index_env_in (Environments config) 0 ltac:(lia)) as (env & Hi & Hin).
    unfold bind, liftP. rewrite Hi.
    eexists _, _, _. split; [reflexivity | exact Hin].
  - unfold bind at 1, fmt_Println, fmt_Print, modify.
    set (s1 := set_stdout _ s).
    destruct (hoare_printOptions (stdin s) (globalDisplayState s)
                (globalLineRenderer s)
                (newDisplayFormatter (detectTerminalLayout w)) 0
                (Environments config)
                ltac:(cbn [newDisplayFormatter layout detectTerminalLayout layoutWidth];
                      exact HW)
                s1 ltac:(repeat split))
      as ([] & s2 & E2 & _).
    unfold bind at 1. rewrite E2. unfold bind at 1.
    destruct (regularInput_returns
                (str "Enter number (1-"
                 ++ fmt_d (Z.of_nat (List.length (Environments config)))
                 ++ str "): ") s2) as (input & err & s3 & ->).
    destruct err as [e |];
      [eexists _, _, _; split; [reflexivity | reflexivity] |].
    destruct (strconv_Atoi input) as [e | choice] eqn:Ea;
      [eexists _, _, _; split; [reflexivity | reflexivity] |].
    destruct ((choice <? 1)
              || (choice >? Z.of_nat (List.length (Environments config)))) eqn:Er;
      [eexists _, _, _; split; [reflexivity | reflexivity] |].
    apply orb_false_iff in Er. destruct Er as [Er1 Er2].
    apply Z.ltb_ge in Er1. rewrite Z.gtb_ltb in Er2. apply Z.ltb_ge in Er2.
    pose proof (strconv_Atoi_in_range _ _ Ea) as R.
    destruct (index_env_in (Environments config) (GoInt.sub choice 1))
      as (env & Hi & Hin).
    { unfold GoInt.sub. rewrite wrap_id;
        [lia | unfold GoInt.in_range, GoInt.min_int, GoInt.max_int in *; lia]. }
    unfold bind, liftP. rewrite Hi.
    eexists _, _, _. split; [reflexivity | exact Hin].
Qed.

Lemma numbered_selection_is_safe_witness :
  exists env err s',
    selectEnvironmentOriginal (sample_world None) sample_config
      (initial_state [RData (str "7" ++ newline)]) = (Val (env, err), s') /\
    match err with
    | Some _ => env = emptyEnvironment
    | None => In env (Environments sample_config)
    end.
Proof.
  exact (numbered_selection_is_safe (sample_world None) sample_config
           (initial_state [RData (str "7" ++ newline)])
           ltac:(vm_compute; split; discriminate)).
Defined.

(** *** A last line without its newline *)

Lemma find_sub_no_newline (line : list byte) :
  Forall (fun b => b <> x0a) line -> find_sub [x0a] line = None.
Proof.
  induction 1 as [| b t Hb Ht IH]; [reflexivity |].
  cbn [find_sub has_prefix].
  replace (byte_eqb x0a b) with false
    by (destruct b; try reflexivity; contradiction Hb; reflexivity).
  cbn [andb]. rewrite IH. reflexivity.
Qed.

Lemma bufio_fill_eof (tries room : nat) (s : State) :
  stdin s = [] -> bufio_fill (S tries) room s = (Val (inl ErrEOF), s).
Proof.
  intros H. cbn [bufio_fill]. unfold bind, os_Stdin_Read. rewrite H. reflexivity.
Qed.

(** X27: [regularInput] insists on the newline.  When the input ends after a
    chunk of text that holds no newline (a last line that was not
    terminated), the text is dropped: the result is the empty string and the
    error "failed to read input" wrapping end-of-file. *)
Theorem regularInput_needs_newline (prompt line : gostring) (s : State) :
  stdin s = [RData line] -> line <> [] ->
  (List.length line <= bufio_size)%nat ->
  Forall (fun b => b <> x0a) line ->
  fst (regularInput prompt s)
  = Val (str "", Some (Wrapf (str "failed to read input") ErrEOF)).
Proof.
  intros Hin Hne Hlen Hline. unfold regularInput.
  unfold bind at 1, fmt_Print, modify. unfold bind at 1, get.
  cbn [stdin set_stdout]. rewrite Hin. cbn [stdin_weight].
  set (s1 := set_stdout _ s).
  assert (F : bufio_fill 100 bufio_size s1 = (Val (inr line), set_stdin [] s1)).
  { change 100%nat with (S 99). cbn [bufio_fill]. unfold bind, os_Stdin_Read.
    subst s1. cbn [stdin set_stdout]. rewrite Hin.
    apply Nat.leb_le in Hlen. rewrite Hlen.
    destruct line; [contradiction | reflexivity]. }
  unfold bind at 1. cbn [bufio_ReadString]. cbv zeta.
  change (Nat.eqb 0 bufio_size) with false. cbv iota.
  rewrite Nat.sub_0_r. unfold bind at 1. rewrite F.
  rewrite (find_sub_no_newline line Hline).
  unfold bind at 1. change 100%nat with (S 99).
  rewrite bufio_fill_eof by reflexivity. reflexivity.
Qed.

Lemma regularInput_needs_newline_witness :
  fst (regularInput (str "Enter number (1-2): ") (initial_state [RData (str "2")]))
  = Val (str "", Some (Wrapf (str "failed to read input") ErrEOF)).
Proof.
  exact (regularInput_needs_newline (str "Enter number (1-2): ") (str "2")
           (initial_state [RData (str "2")])
           eq_refl ltac:(discriminate)
           ltac:(vm_compute; repeat constructor)
           ltac:(repeat constructor; discriminate)).
Defined.

(** ** The dispatch of the selection *)

(** X28: the selection always comes to an end.  The two reading loops of
    [selectEnvironmentWithArrows] (the interactive [for] loop and the loop of
    [ReadString]) run on a budget of one more than the weight of the pending
    input; whatever the terminal, the profiles and the input, that budget is
    never exhausted: every round consumes input, and end of file or a read
    error ends the loop. *)
Theorem selectEnvironmentWithArrows_terminates (w : World) (config : Config)
  (s : State) :
  fst (selectEnvironmentWithArrows w config s) <> OutOfFuel.
Proof. apply selectEnvironmentWithArrows_funded. Qed.

(** X29: with standard input not a terminal and at least two profiles, no
    interactive tier is tried: when [isHeadlessMode] holds the selection
    returns the first profile and prints one informational line, reading
    nothing; otherwise it is the numbered tier. *)
Theorem selection_off_terminal (w : World) (first second : Environment)
  (others : list Environment) (s : State) :
  stdinIsTerminal w = false ->
  selectEnvironmentWithArrows w {| Environments := first :: second :: others |} s
  = if isHeadlessMode w
    then (Val (first, None), set_stdout (stdout s ++ headless_line first) s)
    else fallbackToNumberedSelection w
           {| Environments := first :: second :: others |} s.
Proof. intros H. exact (selection_without_terminal w first second others s H). Qed.

Lemma selection_off_terminal_witness :
  selectEnvironmentWithArrows ci_terminal_world
    {| Environments := [sample_env "alpha" "https://alpha.example.com/v1" "";
                        sample_env "beta" "https://beta.example.com/v1" "gpt-5"] |}
    (initial_state [])
  = if isHeadlessMode ci_terminal_world
    then (Val (sample_env "alpha" "https://alpha.example.com/v1" "", None),
          set_stdout (stdout (initial_state [])
                      ++ headless_line
                           (sample_env "alpha" "https://alpha.example.com/v1" ""))
            (initial_state []))
    else fallbackToNumberedSelection ci_terminal_world
           {| Environments := [sample_env "alpha" "https://alpha.example.com/v1" "";
                               sample_env "beta" "https://beta.example.com/v1" "gpt-5"] |}
           (initial_state []).
Proof.
  exact (selection_off_terminal ci_terminal_world
           (sample_env "alpha" "https://alpha.example.com/v1" "")
           (sample_env "beta" "https://beta.example.com/v1" "gpt-5") []
           (initial_state []) eq_refl).
Defined.

(** X30: what [isHeadlessMode] decides.  It answers true exactly when the
    status of standard output can be read and is not a character device, or
    when the status cannot be read and one of the five CI variables is set:
    a readable status settles the answer alone. *)
Theorem isHeadlessMode_characterised (w : World) :
  isHeadlessMode w = true <->
  (exists mode, stdoutStat w = Some mode /\ Z.land mode ModeCharDevice = 0)
  \/ (stdoutStat w = None
      /\ exists envVar, In envVar ciVars /\ getenv w envVar <> []).
Proof. apply isHeadlessMode_decides. Qed.
